(** * Agência Check back-office: services of the single-page application

    A shallow embedding of the TypeScript services (user management,
    notifications, backups, the analytics percent-change helper) and the
    properties the specification states about them.

    Conventions of the embedding.
    - A JavaScript [number] is an IEEE-754 binary64 value: [float].  Counters
      and array lengths are [nat], [Date]s are milliseconds since the epoch
      in [Z].
    - A [User] or a [BackupItem], which the source mutates through
      references held outside the array ([currentUser], the local [backup]
      of a running [createBackup]), lives in an object table (a [list]
      indexed by a location); the arrays are lists of locations, so two
      references to one object alias.  A notification is only ever mutated
      through the array that holds it and is kept by value.
    - A string is a sequence of bytes; [length] counts bytes, the number of
      code units for ASCII text.
    - A method is a function in the state-and-exception monad [M]: it takes
      the service state and yields either [Return v] or [Throw msg] (a
      rejected promise for the [async] methods) with the next state.
    - Clock readings, random identifiers and browser facilities
      ([URL.createObjectURL], [Blob]) are inputs of the method that uses
      them.  [localStorage.setItem] is a total write into a snapshot field
      of the state. *)

From Stdlib Require Import Floats ZArith Sorted.
From stdpp Require Import strings list pretty gmap.

Local Open Scope Z_scope.
Local Open Scope string_scope.

(** ** Outcomes and the state-and-exception monad *)

Inductive outcome (A : Type) : Type :=
| Return (a : A)
| Throw (msg : string).
Arguments Return {A} a.
Arguments Throw {A} msg.

Definition M (S A : Type) : Type := S -> outcome A * S.

Definition ret {S A} (a : A) : M S A := fun s => (Return a, s).

Definition throw {S A} (msg : string) : M S A := fun s => (Throw msg, s).

Definition bind {S A B} (m : M S A) (k : A -> M S B) : M S B :=
  fun s => match m s with
           | (Return a, s') => k a s'
           | (Throw e, s') => (Throw e, s')
           end.

Definition gets {S A} (f : S -> A) : M S A := fun s => (Return (f s), s).

Definition modify {S} (f : S -> S) : M S unit := fun s => (Return tt, f s).

(** [try { m } catch (error) { h error }] *)
Definition try_catch {S A} (m : M S A) (h : string -> M S A) : M S A :=
  fun s => match m s with
           | (Return a, s') => (Return a, s')
           | (Throw e, s') => h e s'
           end.

Notation "'do' x <- m ; k" := (bind m (fun x => k))
  (at level 10, x name, m at level 100, k at level 200).
Notation "'run' m ; k" := (bind m (fun _ => k))
  (at level 10, m at level 100, k at level 200).

(** ** Array helpers of the JavaScript runtime *)

(** [Array.prototype.findIndex]; [None] stands for [-1]. *)
Fixpoint findIndex {A} (p : A -> bool) (l : list A) : option nat :=
  match l with
  | [] => None
  | x :: l' => if p x then Some O else S <$> findIndex p l'
  end.

(** [Array.prototype.forEach] and [Array.prototype.filter] with a callback
    that acts on the state. *)
Fixpoint forEach {S A} (f : A -> M S unit) (l : list A) : M S unit :=
  match l with
  | [] => ret tt
  | x :: l' => run f x; forEach f l'
  end.

Fixpoint filterM {S A} (p : A -> M S bool) (l : list A) : M S (list A) :=
  match l with
  | [] => ret []
  | x :: l' =>
      do keep <- p x;
      do rest <- filterM p l';
      ret (if keep then x :: rest else rest)
  end.

(** Truthiness of a string: only the empty string is falsy. *)
Definition truthy (s : string) : bool := negb (String.eqb s "").

(** Truthiness of an optional string property. *)
Definition truthy_opt (o : option string) : bool :=
  match o with Some s => truthy s | None => false end.

(** Strings hold the UTF-8 bytes of the program's strings.  The [length]
    of a JavaScript string counts UTF-16 code units: a character of one,
    two or three bytes is one unit, a character of four bytes is two
    (a surrogate pair); continuation bytes add nothing. *)
Definition code_units (c : Ascii.ascii) : nat :=
  let b := Ascii.nat_of_ascii c in
  if (b <? 128)%nat then 1%nat
  else if (b <? 192)%nat then 0%nat
  else if (b <? 240)%nat then 1%nat
  else 2%nat.

Fixpoint js_length (s : string) : nat :=
  match s with
  | EmptyString => 0%nat
  | String c s' => (code_units c + js_length s')%nat
  end.

(** ** types/User.ts *)

Module UserTypes.

Inductive UserRole := admin | manager | sales | viewer.

Inductive Permission :=
| canViewSales | canCreateSales | canEditSales | canDeleteSales
| canViewInventory | canEditInventory | canManageStock
| canViewPayments | canManagePayments | canConfigurePix
| canManageUsers | canViewReports | canManageBackups | canAccessAnalytics
| canManageResellers
| canManageSettings | canViewLogs.

(** The keys of [UserPermissions], in declaration order ([Object.keys]). *)
Definition permission_keys : list Permission :=
  [ canViewSales; canCreateSales; canEditSales; canDeleteSales;
    canViewInventory; canEditInventory; canManageStock;
    canViewPayments; canManagePayments; canConfigurePix;
    canManageUsers; canViewReports; canManageBackups; canAccessAnalytics;
    canManageResellers; canManageSettings; canViewLogs ].

Definition key_name (p : Permission) : string :=
  match p with
  | canViewSales => "canViewSales" | canCreateSales => "canCreateSales"
  | canEditSales => "canEditSales" | canDeleteSales => "canDeleteSales"
  | canViewInventory => "canViewInventory"
  | canEditInventory => "canEditInventory"
  | canManageStock => "canManageStock"
  | canViewPayments => "canViewPayments"
  | canManagePayments => "canManagePayments"
  | canConfigurePix => "canConfigurePix"
  | canManageUsers => "canManageUsers"
  | canViewReports => "canViewReports"
  | canManageBackups => "canManageBackups"
  | canAccessAnalytics => "canAccessAnalytics"
  | canManageResellers => "canManageResellers"
  | canManageSettings => "canManageSettings"
  | canViewLogs => "canViewLogs"
  end.

Record User := {
  id : string;
  email : string;
  name : string;
  role : UserRole;
  avatar : option string;
  isActive : bool;
  lastLogin : option Z;
  createdAt : Z;
  updatedAt : Z;
  permissions : list string;
}.

Record CreateUserRequest := {
  req_email : string;
  req_name : string;
  req_role : UserRole;
  req_password : string;
}.

Record UpdateUserRequest := {
  upd_name : option string;
  upd_role : option UserRole;
  upd_isActive : option bool;
  upd_permissions : option (list string);
}.

Definition ROLE_PERMISSIONS (r : UserRole) (p : Permission) : bool :=
  match r with
  | admin => true
  | manager =>
      match p with
      | canManagePayments | canConfigurePix | canManageUsers
      | canManageBackups | canManageSettings | canViewLogs => false
      | _ => true
      end
  | sales =>
      match p with
      | canViewSales | canCreateSales | canEditSales
      | canViewInventory | canViewPayments => true
      | _ => false
      end
  | viewer =>
      match p with
      | canViewSales | canViewInventory | canViewPayments
      | canViewReports | canAccessAnalytics => true
      | _ => false
      end
  end.

(** [Object.keys(ROLE_PERMISSIONS[r]).filter(key => ROLE_PERMISSIONS[r][key])] *)
Definition role_permission_names (r : UserRole) : list string :=
  key_name <$> filter (fun p => ROLE_PERMISSIONS r p = true) permission_keys.

End UserTypes.

(** ** services/userService.ts *)

Module UserService.
Import UserTypes.

(** A reference to a [User] object: its index in the object table. *)
Definition loc := nat.

#[global] Instance User_inhabited : Inhabited User :=
  populate {| id := ""; email := ""; name := ""; role := viewer;
              avatar := None; isActive := false; lastLogin := None;
              createdAt := 0; updatedAt := 0; permissions := [] |}.

(** The fields of the class.  [users] is the array, [currentUser] a
    reference to one of the objects (or [null]). *)
Record state := {
  objects : list User;
  users : list loc;
  currentUser : option loc;
}.

Definition deref (s : state) (l : loc) : User := objects s !!! l.

(** [{ success: boolean; user?: User; message?: string }] *)
Record Result := {
  success : bool;
  user : option loc;
  message : option string;
}.

Definition failure (msg : string) : Result :=
  {| success := false; user := None; message := Some msg |}.

Record Activity := {
  act_id : string;
  act_userId : option string;
  act_action : string;
  act_timestamp : Z;
  act_details : string;
}.

(** The two seeded users; [boot] is the clock at construction. *)
Definition initial (boot : Z) : state :=
  {| objects :=
       [ {| id := "1"; email := "juliocorrea@check2.com.br";
            name := "Julio Correa - Administrador"; role := admin;
            avatar := None; isActive := true; lastLogin := None;
            createdAt := 1735689600000; updatedAt := boot;
            permissions := role_permission_names admin |};
         {| id := "2"; email := "manager@agenciacheck.com";
            name := "Gerente Comercial"; role := manager;
            avatar := None; isActive := true; lastLogin := None;
            createdAt := 1735689600000; updatedAt := boot;
            permissions := role_permission_names manager |} ];
     users := [0%nat; 1%nat];
     currentUser := None |}.

(** Assignments to one property of a [User] object. *)
Definition set_name (v : string) (u : User) : User :=
  {| id := id u; email := email u; name := v; role := role u;
     avatar := avatar u; isActive := isActive u; lastLogin := lastLogin u;
     createdAt := createdAt u; updatedAt := updatedAt u;
     permissions := permissions u |}.
Definition set_role (v : UserRole) (u : User) : User :=
  {| id := id u; email := email u; name := name u; role := v;
     avatar := avatar u; isActive := isActive u; lastLogin := lastLogin u;
     createdAt := createdAt u; updatedAt := updatedAt u;
     permissions := permissions u |}.
Definition set_avatar (v : string) (u : User) : User :=
  {| id := id u; email := email u; name := name u; role := role u;
     avatar := Some v; isActive := isActive u; lastLogin := lastLogin u;
     createdAt := createdAt u; updatedAt := updatedAt u;
     permissions := permissions u |}.
Definition set_isActive (v : bool) (u : User) : User :=
  {| id := id u; email := email u; name := name u; role := role u;
     avatar := avatar u; isActive := v; lastLogin := lastLogin u;
     createdAt := createdAt u; updatedAt := updatedAt u;
     permissions := permissions u |}.
Definition set_lastLogin (v : Z) (u : User) : User :=
  {| id := id u; email := email u; name := name u; role := role u;
     avatar := avatar u; isActive := isActive u; lastLogin := Some v;
     createdAt := createdAt u; updatedAt := updatedAt u;
     permissions := permissions u |}.
Definition set_updatedAt (v : Z) (u : User) : User :=
  {| id := id u; email := email u; name := name u; role := role u;
     avatar := avatar u; isActive := isActive u; lastLogin := lastLogin u;
     createdAt := createdAt u; updatedAt := v;
     permissions := permissions u |}.
Definition set_permissions (v : list string) (u : User) : User :=
  {| id := id u; email := email u; name := name u; role := role u;
     avatar := avatar u; isActive := isActive u; lastLogin := lastLogin u;
     createdAt := createdAt u; updatedAt := updatedAt u;
     permissions := v |}.

(** Mutation of the object behind a reference. *)
Definition mutate (l : loc) (f : User -> User) (s : state) : state :=
  {| objects := alter f l (objects s);
     users := users s;
     currentUser := currentUser s |}.

Definition set_currentUser (c : option loc) (s : state) : state :=
  {| objects := objects s; users := users s; currentUser := c |}.

(** [this.users.push(newUser)] with a freshly allocated object. *)
Definition push_new (u : User) : M state loc :=
  fun s =>
    let l := length (objects s) in
    (Return l, {| objects := objects s ++ [u];
                  users := users s ++ [l];
                  currentUser := currentUser s |}).

(** The object literal of [createUser]; [n] is [this.users.length]. *)
Definition newUser (now : Z) (userData : CreateUserRequest) (n : nat) : User :=
  {| id := pretty (n + 1)%nat;
     email := req_email userData;
     name := req_name userData;
     role := req_role userData;
     avatar := None;
     isActive := true;
     lastLogin := None;
     createdAt := now;
     updatedAt := now;
     permissions := role_permission_names (req_role userData) |}.

Definition cannot_delete_self : string :=
  "Não é possível excluir o próprio usuário".

(** [this.users.splice(i, 1)] *)
Definition splice1 (i : nat) (s : state) : state :=
  {| objects := objects s; users := delete i (users s);
     currentUser := currentUser s |}.

Definition admin_email : string := "juliocorrea@check2.com.br".

Definition login (now : Z) (email_ password : string) : M state Result :=
  try_catch
    (do found <- gets (fun s =>
         List.find (fun l => String.eqb (email (deref s l)) email_
                             && isActive (deref s l)) (users s));
     match found with
     | None => ret (failure "Usuário não encontrado ou inativo")
     | Some l =>
         do u <- gets (fun s => deref s l);
         if String.eqb (email u) admin_email
            && negb (String.eqb password "Ju113007")
         then ret (failure "Senha inválida")
         else if negb (String.eqb (email u) admin_email)
                 && (js_length password <? 3)%nat
         then ret (failure "Senha inválida")
         else
           run modify (mutate l (set_lastLogin now));
           run modify (set_currentUser (Some l));
           ret {| success := true; user := Some l; message := None |}
     end)
    (fun _ => ret (failure "Erro interno do servidor")).

Definition getCurrentUser : M state (option loc) := gets currentUser.

Definition logout : M state unit := modify (set_currentUser None).

Definition hasPermission (permission : Permission) (s : state) : bool :=
  match currentUser s with
  | None => false
  | Some l => ROLE_PERMISSIONS (role (deref s l)) permission || false
  end.

Definition hasAnyPermission (ps : list Permission) (s : state) : bool :=
  existsb (fun p => hasPermission p s) ps.

Definition access_denied : string := "Acesso negado: permissão insuficiente".

(** Resolves to the [users] array itself. *)
Definition getAllUsers : M state (list loc) :=
  do ok <- gets (hasPermission canManageUsers);
  if negb ok then throw access_denied
  else gets users.

Definition createUser (now : Z) (userData : CreateUserRequest)
  : M state Result :=
  try_catch
    (do ok <- gets (hasPermission canManageUsers);
     if negb ok then ret (failure access_denied)
     else
       do taken <- gets (fun s =>
            existsb (fun l => String.eqb (email (deref s l))
                                         (req_email userData)) (users s));
       if taken then ret (failure "Email já está em uso")
       else
         do n <- gets (fun s => length (users s));
         do l <- push_new (newUser now userData n);
         ret {| success := true; user := Some l; message := None |})
    (fun _ => ret (failure "Erro ao criar usuário")).

(** The assignments of [updateUser] to the object, in source order. *)
Definition apply_update (now : Z) (d : UpdateUserRequest) (u : User) : User :=
  let u := match upd_name d with
           | Some n => if truthy n then set_name n u else u
           | None => u
           end in
  let u := match upd_role d with
           | Some r => set_permissions (role_permission_names r) (set_role r u)
           | None => u
           end in
  let u := match upd_isActive d with
           | Some b => set_isActive b u
           | None => u
           end in
  let u := match upd_permissions d with
           | Some ps => set_permissions ps u
           | None => u
           end in
  set_updatedAt now u.

Definition updateUser (now : Z) (userId : string) (updateData : UpdateUserRequest)
  : M state Result :=
  try_catch
    (do ok <- gets (hasPermission canManageUsers);
     if negb ok then ret (failure access_denied)
     else
       do userIndex <- gets (fun s =>
            findIndex (fun l => String.eqb (id (deref s l)) userId) (users s));
       match userIndex with
       | None => ret (failure "Usuário não encontrado")
       | Some i =>
           do l <- gets (fun s => users s !!! i);
           run modify (mutate l (apply_update now updateData));
           ret {| success := true; user := Some l; message := None |}
       end)
    (fun _ => ret (failure "Erro ao atualizar usuário")).

Definition deleteUser (userId : string) : M state Result :=
  try_catch
    (do ok <- gets (hasPermission canManageUsers);
     if negb ok then ret (failure access_denied)
     else
       do own <- gets (fun s =>
            match currentUser s with
            | Some l => String.eqb (id (deref s l)) userId
            | None => false
            end);
       if own then ret (failure cannot_delete_self)
       else
         do userIndex <- gets (fun s =>
              findIndex (fun l => String.eqb (id (deref s l)) userId) (users s));
         match userIndex with
         | None => ret (failure "Usuário não encontrado")
         | Some i =>
             run modify (splice1 i);
             ret {| success := true; user := None; message := None |}
         end)
    (fun _ => ret (failure "Erro ao excluir usuário")).

Definition getUserActivity (now : Z) (userId : option string)
  : M state (list Activity) :=
  do ok <- gets (hasPermission canViewLogs);
  if negb ok then throw access_denied
  else
    do who <- gets (fun s =>
         if truthy_opt userId then userId
         else (fun l => id (deref s l)) <$> currentUser s);
    ret [ {| act_id := "1"; act_userId := who; act_action := "login";
             act_timestamp := now;
             act_details := "Login realizado com sucesso" |};
          {| act_id := "2"; act_userId := who; act_action := "create_sale";
             act_timestamp := now - 3600000;
             act_details := "Nova venda criada - R$ 150,00" |} ].

Definition updateProfile (now : Z) (new_name new_avatar : option string)
  : M state Result :=
  try_catch
    (do cur <- gets currentUser;
     match cur with
     | None => ret (failure "Usuário não autenticado")
     | Some c =>
         do userIndex <- gets (fun s =>
              findIndex (fun l => String.eqb (id (deref s l)) (id (deref s c)))
                        (users s));
         match userIndex with
         | None => ret (failure "Usuário não encontrado")
         | Some i =>
             do l <- gets (fun s => users s !!! i);
             run modify (mutate l (fun u =>
                   let u := match new_name with
                            | Some n => if truthy n then set_name n u else u
                            | None => u
                            end in
                   let u := match new_avatar with
                            | Some a => if truthy a then set_avatar a u else u
                            | None => u
                            end in
                   set_updatedAt now u));
             run modify (set_currentUser (Some l));
             ret {| success := true; user := Some l; message := None |}
         end
     end)
    (fun _ => ret (failure "Erro ao atualizar perfil")).

Definition changePassword (currentPassword newPassword : string)
  : M state Result :=
  try_catch
    (do cur <- gets currentUser;
     match cur with
     | None => ret (failure "Usuário não autenticado")
     | Some _ =>
         if (js_length currentPassword <? 3)%nat
         then ret (failure "Senha atual inválida")
         else if (js_length newPassword <? 6)%nat
         then ret (failure "Nova senha deve ter pelo menos 6 caracteres")
         else ret {| success := true; user := None;
                     message := Some "Senha alterada com sucesso" |}
     end)
    (fun _ => ret (failure "Erro ao alterar senha")).

(** Every reference held by the service points into the object table, and
    the signed-in user is one of the users of the array. *)
Definition wf (s : state) : Prop :=
  Forall (fun l => (l < length (objects s))%nat) (users s)
  /\ (forall l, currentUser s = Some l -> l ∈ users s).

End UserService.

(** ** types/Notification.ts *)

Module NotificationTypes.

Inductive NotificationType :=
| type_success | type_error | type_warning | type_info.

Inductive NotificationCategory :=
| order | payment | system | backup | user | general.

Inductive NotificationPriority := low | medium | high | urgent.

(** [metadata] and [actions] are opaque payloads that the service never
    inspects; they are left out of the record. *)
Record Notification := {
  id : string;
  type : NotificationType;
  category : NotificationCategory;
  priority : NotificationPriority;
  title : string;
  message : string;
  timestamp : Z;
  read : bool;
  userId : option string;
  autoClose : option Z;
  persistent : option bool;
  sound : option bool;
}.

(** [Omit<Notification, 'id' | 'timestamp' | 'read'>] *)
Record NotificationInput := {
  in_type : NotificationType;
  in_category : NotificationCategory;
  in_priority : NotificationPriority;
  in_title : string;
  in_message : string;
  in_userId : option string;
  in_autoClose : option Z;
  in_persistent : option bool;
  in_sound : option bool;
}.

Record CategorySettings := {
  cat_enabled : bool;
  cat_email : bool;
  cat_push : bool;
  cat_sound : bool;
}.

Record QuietHours := {
  qh_enabled : bool;
  qh_start : string;
  qh_end : string;
}.

(** [categories] is a lookup that may miss a key when the settings were
    read back from storage. *)
Record NotificationSettings := {
  st_userId : string;
  emailNotifications : bool;
  pushNotifications : bool;
  soundEnabled : bool;
  categories : NotificationCategory -> option CategorySettings;
  quietHours : QuietHours;
  st_createdAt : Z;
  st_updatedAt : Z;
}.

(** [Partial<NotificationSettings>]: [Some] for a key that is present. *)
Record SettingsUpdate := {
  up_userId : option string;
  up_emailNotifications : option bool;
  up_pushNotifications : option bool;
  up_soundEnabled : option bool;
  up_categories : option (NotificationCategory -> option CategorySettings);
  up_quietHours : option QuietHours;
  up_createdAt : option Z;
}.

End NotificationTypes.

(** ** services/notificationService.ts *)

Module NotificationService.
Import NotificationTypes.

(** A subscribed callback, known by its identity. *)
Definition listener := nat.

(** One reading of the clock: [Date.now()] with the local hour and minute
    of the same instant. *)
Record Clock := {
  epoch : Z;
  hours : Z;
  minutes : Z;
}.

(** The fields of the class that the public methods read or write, and
    what the methods do to the outside: the two [localStorage] entries,
    the calls made to listeners (oldest first) and the number of sounds
    played.  [callbacks] is what the callback behind a listener does when
    it is called with a notification: it returns ([None]) or throws
    ([Some] message); a callback does not call back into the service.
    The templates and the simulated connection are left out. *)
Record state := {
  notifications : list Notification;
  settings : option NotificationSettings;
  listeners : list listener;
  queue : list Notification;
  audio : bool;
  stored_notifications : option (list Notification);
  stored_settings : option NotificationSettings;
  delivered : list (listener * Notification);
  sounds : nat;
  callbacks : listener -> Notification -> option string;
}.

Definition set_notifications (v : list Notification) (s : state) : state :=
  {| notifications := v; settings := settings s; listeners := listeners s;
     queue := queue s; audio := audio s;
     stored_notifications := stored_notifications s;
     stored_settings := stored_settings s;
     delivered := delivered s; sounds := sounds s;
     callbacks := callbacks s |}.

Definition set_settings (v : option NotificationSettings) (s : state) : state :=
  {| notifications := notifications s; settings := v;
     listeners := listeners s; queue := queue s; audio := audio s;
     stored_notifications := stored_notifications s;
     stored_settings := stored_settings s;
     delivered := delivered s; sounds := sounds s;
     callbacks := callbacks s |}.

Definition set_listeners (v : list listener) (s : state) : state :=
  {| notifications := notifications s; settings := settings s;
     listeners := v; queue := queue s; audio := audio s;
     stored_notifications := stored_notifications s;
     stored_settings := stored_settings s;
     delivered := delivered s; sounds := sounds s;
     callbacks := callbacks s |}.

Definition set_queue (v : list Notification) (s : state) : state :=
  {| notifications := notifications s; settings := settings s;
     listeners := listeners s; queue := v; audio := audio s;
     stored_notifications := stored_notifications s;
     stored_settings := stored_settings s;
     delivered := delivered s; sounds := sounds s;
     callbacks := callbacks s |}.

Definition set_read (v : bool) (n : Notification) : Notification :=
  {| id := id n; type := type n; category := category n;
     priority := priority n; title := title n; message := message n;
     timestamp := timestamp n; read := v; userId := userId n;
     autoClose := autoClose n; persistent := persistent n;
     sound := sound n |}.

Definition default_categories (c : NotificationCategory)
  : option CategorySettings :=
  Some match c with
       | order | payment =>
           {| cat_enabled := true; cat_email := true;
              cat_push := true; cat_sound := true |}
       | backup =>
           {| cat_enabled := true; cat_email := false;
              cat_push := false; cat_sound := false |}
       | system | user | general =>
           {| cat_enabled := true; cat_email := false;
              cat_push := true; cat_sound := false |}
       end.

Definition createDefaultSettings (now : Z) : NotificationSettings :=
  {| st_userId := "current-user";
     emailNotifications := true;
     pushNotifications := true;
     soundEnabled := true;
     categories := default_categories;
     quietHours := {| qh_enabled := false; qh_start := "22:00";
                      qh_end := "08:00" |};
     st_createdAt := now;
     st_updatedAt := now |}.

(** The service right after construction on an empty [localStorage]. *)
Definition initial (now : Z) (has_audio : bool) : state :=
  {| notifications := []; settings := Some (createDefaultSettings now);
     listeners := []; queue := []; audio := has_audio;
     stored_notifications := None; stored_settings := None;
     delivered := []; sounds := 0%nat;
     callbacks := fun _ _ => None |}.

(** The two entries of [localStorage] are written, the settings when there
    are any.  In this service the storage is taken to accept the
    writes. *)
Definition saveData : M state unit :=
  modify (fun s =>
    {| notifications := notifications s; settings := settings s;
       listeners := listeners s; queue := queue s; audio := audio s;
       stored_notifications := Some (notifications s);
       stored_settings := match settings s with
                          | Some st => Some st
                          | None => stored_settings s
                          end;
       delivered := delivered s; sounds := sounds s;
     callbacks := callbacks s |}).

Definition playNotificationSound : M state unit :=
  modify (fun s =>
    if audio s then
      {| notifications := notifications s; settings := settings s;
         listeners := listeners s; queue := queue s; audio := audio s;
         stored_notifications := stored_notifications s;
         stored_settings := stored_settings s;
         delivered := delivered s; sounds := S (sounds s);
         callbacks := callbacks s |}
    else s).

Definition set_delivered (v : list (listener * Notification)) (s : state)
  : state :=
  {| notifications := notifications s; settings := settings s;
     listeners := listeners s; queue := queue s; audio := audio s;
     stored_notifications := stored_notifications s;
     stored_settings := stored_settings s;
     delivered := v; sounds := sounds s;
     callbacks := callbacks s |}.

(** The behaviour of the callbacks is given with the state. *)
Definition set_callbacks (v : listener -> Notification -> option string)
  (s : state) : state :=
  {| notifications := notifications s; settings := settings s;
     listeners := listeners s; queue := queue s; audio := audio s;
     stored_notifications := stored_notifications s;
     stored_settings := stored_settings s;
     delivered := delivered s; sounds := sounds s;
     callbacks := v |}.

(** [listener(n)]: the call is recorded; the callback returns or throws. *)
Definition call_listener (n : Notification) (l : listener) : M state unit :=
  run modify (fun s => set_delivered (delivered s ++ [(l, n)]) s);
  do thrown <- gets (fun s => callbacks s l n);
  match thrown with
  | Some e => throw e
  | None => ret tt
  end.

(** [this.listeners.forEach(listener => listener(n))]: the listeners are
    called in insertion order; an exception of a callback ends the loop and
    goes on to the caller. *)
Definition notify_listeners (n : Notification) : M state unit :=
  do ls <- gets listeners;
  forEach (call_listener n) ls.

(** No callback of a subscribed listener throws. *)
Definition listeners_return (s : state) : Prop :=
  forall l n, l ∈ listeners s -> callbacks s l n = None.

(** [s.split(':')] *)
Fixpoint split_colon (s : string) : list string :=
  match s with
  | EmptyString => [""]
  | String c s' =>
      if Ascii.eqb c (Ascii.ascii_of_nat 58) then "" :: split_colon s'
      else match split_colon s' with
           | p :: ps => String c p :: ps
           | [] => [String c ""]
           end
  end.

Definition float_of_Z (z : Z) : float := PrimFloat.of_uint63 (Uint63.of_Z z).

Section QuietHours.
(** The conversion [Number(string)] of the runtime. *)
Variable Number : string -> float.

(** [const [h, m] = s.split(':').map(Number)], then [h * 60 + m]; a
    missing component is [undefined] and the sum is [NaN]. *)
Definition minutes_of_day (s : string) : float :=
  let parts := Number <$> split_colon s in
  let h := default nan (parts !! 0%nat) in
  let m := default nan (parts !! 1%nat) in
  PrimFloat.add (PrimFloat.mul h 60%float) m.

Definition isQuietHours (now : Clock) (s : state) : bool :=
  match settings s with
  | None => false
  | Some st =>
      if negb (qh_enabled (quietHours st)) then false
      else
        let currentTime :=
          PrimFloat.add (PrimFloat.mul (float_of_Z (hours now)) 60%float)
                        (float_of_Z (minutes now)) in
        let startTime := minutes_of_day (qh_start (quietHours st)) in
        let endTime := minutes_of_day (qh_end (quietHours st)) in
        if PrimFloat.leb startTime endTime then
          PrimFloat.leb startTime currentTime
          && PrimFloat.leb currentTime endTime
        else
          PrimFloat.leb startTime currentTime
          || PrimFloat.leb currentTime endTime
  end.

(** [this.settings?.categories[c]?.enabled] as a condition. *)
Definition category_enabled (c : NotificationCategory) (s : state) : bool :=
  match settings s with
  | Some st => match categories st c with
               | Some cs => cat_enabled cs
               | None => false
               end
  | None => false
  end.

(** [this.settings?.soundEnabled && this.settings.categories[c]?.sound] *)
Definition sound_enabled (c : NotificationCategory) (s : state) : bool :=
  match settings s with
  | Some st => soundEnabled st
               && match categories st c with
                  | Some cs => cat_sound cs
                  | None => false
                  end
  | None => false
  end.

(** [rnd] is [Math.random().toString(36).substr(2, 9)]. *)
Definition fresh_id (now : Clock) (rnd : string) : string :=
  "notif_" ++ pretty (epoch now) ++ "_" ++ rnd.

Definition fullNotification (now : Clock) (rnd : string)
  (n : NotificationInput) : Notification :=
  {| id := fresh_id now rnd;
     type := in_type n; category := in_category n;
     priority := in_priority n; title := in_title n;
     message := in_message n;
     timestamp := epoch now;
     read := false;
     userId := in_userId n; autoClose := in_autoClose n;
     persistent := in_persistent n; sound := in_sound n |}.

Definition addNotification (now : Clock) (rnd : string)
  (notification : NotificationInput) : M state string :=
  let full := fullNotification now rnd notification in
  do enabled <- gets (category_enabled (in_category notification));
  if negb enabled then ret (id full)
  else
    do quiet <- gets (isQuietHours now);
    if quiet then
      run modify (fun s => set_queue (queue s ++ [full]) s);
      ret (id full)
    else
      run modify (fun s => set_notifications (full :: notifications s) s);
      do len <- gets (fun s => length (notifications s));
      run (if (1000 <? len)%nat
           then modify (fun s => set_notifications (take 1000 (notifications s)) s)
           else ret tt);
      run saveData;
      do snd <- gets (sound_enabled (in_category notification));
      run (if snd then playNotificationSound else ret tt);
      run notify_listeners full;
      ret (id full).

Definition quick (t : NotificationType) (p : NotificationPriority)
  (title_ message_ : string) (c : NotificationCategory)
  (close : option Z) (keep : option bool) : NotificationInput :=
  {| in_type := t; in_category := c; in_priority := p;
     in_title := title_; in_message := message_;
     in_userId := None; in_autoClose := close;
     in_persistent := keep; in_sound := None |}.

(** The quick methods; [category] defaults to [general] at the call. *)
Definition success (now : Clock) (rnd title_ message_ : string)
  (c : NotificationCategory) : M state string :=
  addNotification now rnd (quick type_success medium title_ message_ c None None).

Definition error (now : Clock) (rnd title_ message_ : string)
  (c : NotificationCategory) : M state string :=
  addNotification now rnd
    (quick type_error high title_ message_ c None (Some true)).

Definition warning (now : Clock) (rnd title_ message_ : string)
  (c : NotificationCategory) : M state string :=
  addNotification now rnd (quick type_warning medium title_ message_ c None None).

Definition info (now : Clock) (rnd title_ message_ : string)
  (c : NotificationCategory) : M state string :=
  addNotification now rnd
    (quick type_info low title_ message_ c (Some 5000) None).
End QuietHours.

Definition getUnreadNotifications (s : state) : list Notification :=
  List.filter (fun n => negb (read n)) (notifications s).

Definition markAsRead (notificationId : string) : M state bool :=
  do found <- gets (fun s =>
       findIndex (fun n => String.eqb (id n) notificationId) (notifications s));
  match found with
  | None => ret false
  | Some i =>
      do already <- gets (fun s =>
           match notifications s !! i with
           | Some n => read n
           | None => true
           end);
      if already then ret false
      else
        run modify (fun s =>
              set_notifications (alter (set_read true) i (notifications s)) s);
        run saveData;
        ret true
  end.

Definition markAllAsRead : M state unit :=
  run modify (fun s => set_notifications (set_read true <$> notifications s) s);
  saveData.

Definition deleteNotification (notificationId : string) : M state bool :=
  do found <- gets (fun s =>
       findIndex (fun n => String.eqb (id n) notificationId) (notifications s));
  match found with
  | Some index =>
      run modify (fun s => set_notifications (delete index (notifications s)) s);
      run saveData;
      ret true
  | None => ret false
  end.

Definition clearAll : M state unit :=
  run modify (set_notifications []);
  saveData.

(** [Set.prototype.add] and [Set.prototype.delete] *)
Definition subscribe (l : listener) : M state unit :=
  modify (fun s =>
    if bool_decide (l ∈ listeners s) then s
    else set_listeners (listeners s ++ [l]) s).

Definition unsubscribe (l : listener) : M state unit :=
  modify (fun s =>
    set_listeners (List.filter (fun l' => negb (Nat.eqb l' l)) (listeners s)) s).

Definition apply_settings_update (now : Z) (u : SettingsUpdate)
  (st : NotificationSettings) : NotificationSettings :=
  {| st_userId := default (st_userId st) (up_userId u);
     emailNotifications :=
       default (emailNotifications st) (up_emailNotifications u);
     pushNotifications :=
       default (pushNotifications st) (up_pushNotifications u);
     soundEnabled := default (soundEnabled st) (up_soundEnabled u);
     categories := default (categories st) (up_categories u);
     quietHours := default (quietHours st) (up_quietHours u);
     st_createdAt := default (st_createdAt st) (up_createdAt u);
     st_updatedAt := now |}.

Definition updateSettings (now : Z) (updates : SettingsUpdate) : M state unit :=
  do cur <- gets settings;
  match cur with
  | Some st =>
      run modify (set_settings (Some (apply_settings_update now updates st)));
      saveData
  | None => ret tt
  end.

(** One turn of the [forEach] in [processQueue]. *)
Definition deliver_queued (n : Notification) : M state unit :=
  run modify (fun s => set_notifications (n :: notifications s) s);
  notify_listeners n.

Definition processQueue : M state unit :=
  do queuedNotifications <- gets queue;
  run modify (set_queue []);
  run forEach deliver_queued queuedNotifications;
  saveData.

End NotificationService.

(** ** types/Backup.ts *)

Module BackupTypes.

Inductive BackupType := full | incremental | vendas | estoque | configuracoes.

Inductive BackupStatus := pending | running | completed | failed.

Inductive BackupFrequency := manual | daily | weekly | monthly.

Definition type_name (t : BackupType) : string :=
  match t with
  | full => "full" | incremental => "incremental" | vendas => "vendas"
  | estoque => "estoque" | configuracoes => "configuracoes"
  end.

Record BackupItem := {
  id : string;
  name : string;
  type : BackupType;
  status : BackupStatus;
  createdAt : Z;
  completedAt : option Z;
  size : Z;
  downloadUrl : option string;
  errorMessage : option string;
  progress : Z;
  userId : string;
  description : option string;
}.

(** A [Date] that a caller hands in or that the calendar computes: its
    time in milliseconds, or [None] for an Invalid Date. *)
Definition Date := option Z.

Module Config.

Record BackupConfig := {
  id : string;
  name : string;
  type : BackupType;
  frequency : BackupFrequency;
  isEnabled : bool;
  scheduleTime : option string;
  retentionDays : Z;
  includeFiles : bool;
  compression : bool;
  encryption : bool;
  createdAt : Date;
  updatedAt : Date;
  lastRunAt : option Date;
  nextRunAt : option Date;
}.

End Config.

Module Restore.

Record RestoreOperation := {
  id : string;
  backupId : string;
  status : BackupStatus;
  progress : Z;
  startedAt : Z;
  completedAt : option Z;
  userId : string;
  errorMessage : option string;
  itemsRestored : Z;
  totalItems : Z;
}.

End Restore.

(** Of a [BackupData] read back from a file, the lengths of the three
    arrays that [restoreBackup] counts, each when the key is there. *)
Module Data.

Record BackupData := {
  vendas : option Z;
  estoque : option Z;
  revendedores : option Z;
}.

End Data.

End BackupTypes.

(** ** services/backupService.ts *)

Module BackupService.
Import BackupTypes.

(** A reference to a [BackupItem] object. *)
Definition loc := nat.

#[global] Instance BackupItem_inhabited : Inhabited BackupItem :=
  populate {| id := ""; name := ""; type := full; status := pending;
              createdAt := 0; completedAt := None; size := 0;
              downloadUrl := None; errorMessage := None; progress := 0;
              userId := ""; description := None |}.

(** The [backups] array over the table of its objects, the [configs] and
    [restoreOperations] arrays, the ['check-diamond-backups'] and
    ['check-diamond-backup-configs'] entries of [localStorage], the object
    URLs handed to [URL.revokeObjectURL] so far (oldest first), and what
    [localStorage] answers to the writes to come, the next one first:
    [Some e] when [setItem] throws [e] (the quota is exceeded, the storage
    is not available), [None] when it takes the value.  Past the end of
    the list every write is taken. *)
Record state := {
  objects : list BackupItem;
  backups : list loc;
  configs : list Config.BackupConfig;
  restoreOperations : list Restore.RestoreOperation;
  stored_backups : option (list BackupItem);
  stored_configs : option (list Config.BackupConfig);
  revoked : list string;
  storage : list (option string);
}.

Definition deref (s : state) (l : loc) : BackupItem := objects s !!! l.

(** [{ success: boolean; backupId?: string; message?: string }] *)
Record Result := {
  success : bool;
  backupId : option string;
  message : option string;
}.

Definition failure (msg : string) : Result :=
  {| success := false; backupId := None; message := Some msg |}.

(** [{ success: boolean; operationId?: string; message?: string }] *)
Record RestoreResult := {
  restore_success : bool;
  operationId : option string;
  restore_message : option string;
}.

(** [{ success: boolean; configId?: string; message?: string }] *)
Record ConfigResult := {
  config_success : bool;
  configId : option string;
  config_message : option string;
}.

Definition initial : state :=
  {| objects := []; backups := []; configs := []; restoreOperations := [];
     stored_backups := None; stored_configs := None; revoked := [];
     storage := [] |}.

Definition set_objects (v : list BackupItem) (s : state) : state :=
  {| objects := v; backups := backups s; configs := configs s;
     restoreOperations := restoreOperations s;
     stored_backups := stored_backups s; stored_configs := stored_configs s;
     revoked := revoked s; storage := storage s |}.

Definition set_backups (v : list loc) (s : state) : state :=
  {| objects := objects s; backups := v; configs := configs s;
     restoreOperations := restoreOperations s;
     stored_backups := stored_backups s; stored_configs := stored_configs s;
     revoked := revoked s; storage := storage s |}.

Definition set_configs (v : list Config.BackupConfig) (s : state) : state :=
  {| objects := objects s; backups := backups s; configs := v;
     restoreOperations := restoreOperations s;
     stored_backups := stored_backups s; stored_configs := stored_configs s;
     revoked := revoked s; storage := storage s |}.

Definition set_restoreOperations (v : list Restore.RestoreOperation)
  (s : state) : state :=
  {| objects := objects s; backups := backups s; configs := configs s;
     restoreOperations := v;
     stored_backups := stored_backups s; stored_configs := stored_configs s;
     revoked := revoked s; storage := storage s |}.

Definition set_stored_backups (v : option (list BackupItem)) (s : state)
  : state :=
  {| objects := objects s; backups := backups s; configs := configs s;
     restoreOperations := restoreOperations s;
     stored_backups := v; stored_configs := stored_configs s;
     revoked := revoked s; storage := storage s |}.

Definition set_stored_configs (v : option (list Config.BackupConfig))
  (s : state) : state :=
  {| objects := objects s; backups := backups s; configs := configs s;
     restoreOperations := restoreOperations s;
     stored_backups := stored_backups s; stored_configs := v;
     revoked := revoked s; storage := storage s |}.

Definition set_revoked (v : list string) (s : state) : state :=
  {| objects := objects s; backups := backups s; configs := configs s;
     restoreOperations := restoreOperations s;
     stored_backups := stored_backups s; stored_configs := stored_configs s;
     revoked := v; storage := storage s |}.

Definition set_storage (v : list (option string)) (s : state) : state :=
  {| objects := objects s; backups := backups s; configs := configs s;
     restoreOperations := restoreOperations s;
     stored_backups := stored_backups s; stored_configs := stored_configs s;
     revoked := revoked s; storage := v |}.

Definition set_progress (v : Z) (b : BackupItem) : BackupItem :=
  {| id := id b; name := name b; type := type b; status := status b;
     createdAt := createdAt b; completedAt := completedAt b;
     size := size b; downloadUrl := downloadUrl b;
     errorMessage := errorMessage b; progress := v;
     userId := userId b; description := description b |}.

(** The five assignments that finish a backup. *)
Definition complete (sz : Z) (now : Z) (url : string) (b : BackupItem)
  : BackupItem :=
  {| id := id b; name := name b; type := type b; status := completed;
     createdAt := createdAt b; completedAt := Some now;
     size := sz; downloadUrl := Some url;
     errorMessage := errorMessage b; progress := 100;
     userId := userId b; description := description b |}.

(** The two assignments of the [catch] block. *)
Definition fail (msg : string) (b : BackupItem) : BackupItem :=
  {| id := id b; name := name b; type := type b; status := failed;
     createdAt := createdAt b; completedAt := completedAt b;
     size := size b; downloadUrl := downloadUrl b;
     errorMessage := Some msg; progress := progress b;
     userId := userId b; description := description b |}.

Definition mutate (l : loc) (f : BackupItem -> BackupItem) (s : state) : state :=
  set_objects (alter f l (objects s)) s.

(** [this.backups.unshift(backup)] with a freshly allocated object. *)
Definition unshift_new (b : BackupItem) : M state loc :=
  fun s =>
    let l := length (objects s) in
    (Return l, set_backups (l :: backups s) (set_objects (objects s ++ [b]) s)).

(** [URL.revokeObjectURL(url)] *)
Definition revokeObjectURL (url : string) : M state unit :=
  modify (fun s => set_revoked (revoked s ++ [url]) s).

(** [localStorage.setItem(key, value)]: the next answer of the storage is
    used up; the entry is written, by [write], unless the answer is an
    exception. *)
Definition setItem (write : state -> state) : M state unit :=
  fun s =>
    match storage s with
    | Some e :: rest => (Throw e, set_storage rest s)
    | None :: rest => (Return tt, write (set_storage rest s))
    | [] => (Return tt, write s)
    end.

(** [JSON.stringify(this.backups)] snapshots the objects by value.  The
    two entries are written one after the other; when the first write
    throws, the second is not tried. *)
Definition saveData : M state unit :=
  run setItem (fun s => set_stored_backups (Some (deref s <$> backups s)) s);
  setItem (fun s => set_stored_configs (Some (configs s)) s).

(** The storage takes every write to come. *)
Definition accepting (s : state) : Prop :=
  Forall (fun answer => answer = None) (storage s).

(** The callback of the [filter] in [cleanupOldBackups]: an entry older
    than the cutoff has its URL revoked and is dropped. *)
Definition retain (cutoff : Z) (l : loc) : M state bool :=
  do backup <- gets (fun s => deref s l);
  if (createdAt backup <? cutoff)%Z then
    run match downloadUrl backup with
        | Some u => if truthy u then revokeObjectURL u else ret tt
        | None => ret tt
        end;
    ret false
  else ret true.

(** [cutoff] is the clock minus thirty calendar days. *)
Definition cleanupOldBackups (cutoff : Z) : M state unit :=
  do all <- gets backups;
  do kept <- filterM (retain cutoff) all;
  run modify (set_backups kept);
  saveData.

Definition getBackups : M state (list loc) := gets backups.

Definition getBackup (id_ : string) : M state (option loc) :=
  gets (fun s =>
    List.find (fun l => String.eqb (id (deref s l)) id_) (backups s)).

Definition deleteBackup (id_ : string) : M state Result :=
  try_catch
    (do index <- gets (fun s =>
         findIndex (fun l => String.eqb (id (deref s l)) id_) (backups s));
     match index with
     | None => ret (failure "Backup não encontrado")
     | Some i =>
         do backup <- gets (fun s => deref s (backups s !!! i));
         run match downloadUrl backup with
             | Some u => if truthy u then revokeObjectURL u else ret tt
             | None => ret tt
             end;
         run modify (fun s => set_backups (delete i (backups s)) s);
         run saveData;
         ret {| success := true; backupId := None; message := None |}
     end)
    (fun _ => ret (failure "Erro ao excluir backup")).

(** [downloadBackup] builds a link in the document and clicks it.  The
    document is outside the state: [dom_error] is the exception that it
    throws while the link is made, attached, clicked or removed, if
    any. *)
Definition downloadBackup (dom_error : option string) (id_ : string)
  : M state Result :=
  try_catch
    (do found <- getBackup id_;
     match found with
     | None => ret (failure "Backup não encontrado ou não disponível")
     | Some l =>
         do backup <- gets (fun s => deref s l);
         if negb (truthy_opt (downloadUrl backup)) then
           ret (failure "Backup não encontrado ou não disponível")
         else
           run match dom_error with
               | Some e => throw e
               | None => ret tt
               end;
           ret {| success := true; backupId := None; message := None |}
     end)
    (fun _ => ret (failure "Erro ao baixar backup")).

(** *** [restoreBackup]

    What one call reads from outside the service: the clock and the random
    suffix of the identifier, the clock when the operation starts, what
    fetching the object URL and reading its JSON gives (the data, or the
    exception thrown), and the clock at completion. *)
Record RestoreEnv := {
  restore_now : Z;
  restore_rnd : string;
  restore_started : Z;
  fetched : outcome Data.BackupData;
  restore_done : Z;
}.

Definition new_operationId (env : RestoreEnv) : string :=
  "restore_" ++ pretty (restore_now env) ++ "_" ++ restore_rnd env.

Definition new_operation (env : RestoreEnv) (backupId_ : string)
  : Restore.RestoreOperation :=
  {| Restore.id := new_operationId env;
     Restore.backupId := backupId_;
     Restore.status := running;
     Restore.progress := 0;
     Restore.startedAt := restore_started env;
     Restore.completedAt := None;
     Restore.userId := "current-user";
     Restore.errorMessage := None;
     Restore.itemsRestored := 0;
     Restore.totalItems := 0 |}.

(** [operation.itemsRestored += n] *)
Definition add_restored (n : option Z) (op : Restore.RestoreOperation)
  : Restore.RestoreOperation :=
  match n with
  | None => op
  | Some k =>
      {| Restore.id := Restore.id op;
         Restore.backupId := Restore.backupId op;
         Restore.status := Restore.status op;
         Restore.progress := Restore.progress op;
         Restore.startedAt := Restore.startedAt op;
         Restore.completedAt := Restore.completedAt op;
         Restore.userId := Restore.userId op;
         Restore.errorMessage := Restore.errorMessage op;
         Restore.itemsRestored := Restore.itemsRestored op + k;
         Restore.totalItems := Restore.totalItems op |}
  end.

(** The three assignments that finish a restore operation. *)
Definition complete_operation (now : Z) (op : Restore.RestoreOperation)
  : Restore.RestoreOperation :=
  {| Restore.id := Restore.id op;
     Restore.backupId := Restore.backupId op;
     Restore.status := completed;
     Restore.progress := 100;
     Restore.startedAt := Restore.startedAt op;
     Restore.completedAt := Some now;
     Restore.userId := Restore.userId op;
     Restore.errorMessage := Restore.errorMessage op;
     Restore.itemsRestored := Restore.itemsRestored op;
     Restore.totalItems := Restore.totalItems op |}.

(** The two assignments of the [catch] block. *)
Definition fail_operation (msg : string) (op : Restore.RestoreOperation)
  : Restore.RestoreOperation :=
  {| Restore.id := Restore.id op;
     Restore.backupId := Restore.backupId op;
     Restore.status := failed;
     Restore.progress := Restore.progress op;
     Restore.startedAt := Restore.startedAt op;
     Restore.completedAt := Restore.completedAt op;
     Restore.userId := Restore.userId op;
     Restore.errorMessage := Some msg;
     Restore.itemsRestored := Restore.itemsRestored op;
     Restore.totalItems := Restore.totalItems op |}.

(** An assignment to the operation that the call holds: the object that
    it put at the front of [restoreOperations]. *)
Definition mutate_operation
  (f : Restore.RestoreOperation -> Restore.RestoreOperation) : M state unit :=
  modify (fun s =>
    set_restoreOperations (alter f 0%nat (restoreOperations s)) s).

(** The call is followed without another call running between its
    suspensions. *)
Definition restoreBackup (env : RestoreEnv) (backupId_ : string)
  : M state RestoreResult :=
  let operationId_ := new_operationId env in
  try_catch
    (do found <- getBackup backupId_;
     do backup <- gets (fun s => (fun l => deref s l) <$> found);
     match backup with
     | None =>
         ret {| restore_success := false; operationId := None;
                restore_message
                := Some "Backup não encontrado ou não concluído" |}
     | Some b =>
         match status b with
         | completed =>
             run modify (fun s =>
                   set_restoreOperations
                     (new_operation env backupId_ :: restoreOperations s) s);
             run (if truthy_opt (downloadUrl b) then
                    do data <- (fun s => (fetched env, s));
                    run mutate_operation (add_restored (Data.vendas data));
                    run mutate_operation (add_restored (Data.estoque data));
                    run mutate_operation
                          (add_restored (Data.revendedores data));
                    mutate_operation (complete_operation (restore_done env))
                  else ret tt);
             ret {| restore_success := true;
                    operationId := Some operationId_;
                    restore_message := None |}
         | _ =>
             ret {| restore_success := false; operationId := None;
                    restore_message
                    := Some "Backup não encontrado ou não concluído" |}
         end
     end)
    (fun e =>
       do index <- gets (fun s =>
            findIndex (fun op => String.eqb (Restore.id op) operationId_)
                      (restoreOperations s));
       run match index with
           | Some i =>
               modify (fun s =>
                 set_restoreOperations
                   (alter (fail_operation e) i (restoreOperations s)) s)
           | None => ret tt
           end;
       ret {| restore_success := false; operationId := None;
              restore_message := Some "Erro ao restaurar backup" |}).

(** *** The schedule configurations *)

(** What [createBackupConfig] is given: a configuration without [id],
    [createdAt] and [updatedAt]. *)
Record ConfigInput := {
  in_name : string;
  in_type : BackupType;
  in_frequency : BackupFrequency;
  in_isEnabled : bool;
  in_scheduleTime : option string;
  in_retentionDays : Z;
  in_includeFiles : bool;
  in_compression : bool;
  in_encryption : bool;
  in_lastRunAt : option Date;
  in_nextRunAt : option Date;
}.

(** What one call of [createBackupConfig] reads of the clock: at the
    identifier, at each of the two time stamps, and when the next run is
    computed; and the random suffix of the identifier. *)
Record ConfigEnv := {
  config_now : Z;
  config_rnd : string;
  config_created : Z;
  config_updated : Z;
  schedule_now : Z;
}.

Definition new_configId (env : ConfigEnv) : string :=
  "config_" ++ pretty (config_now env) ++ "_" ++ config_rnd env.

(** [String.prototype.split] with a separator of one character. *)
Fixpoint split_at (sep : Ascii.ascii) (s : string) : list string :=
  match s with
  | EmptyString => [EmptyString]
  | String c s' =>
      if Ascii.eqb c sep then EmptyString :: split_at sep s'
      else match split_at sep s' with
           | [] => [String c EmptyString]
           | part :: parts => String c part :: parts
           end
  end.

Definition is_manual (f : BackupFrequency) : bool :=
  match f with manual => true | _ => false end.

(** [Partial<BackupConfig>]: for each key, the value when the key is
    there.  [updatedAt] is left out: [updateBackupConfig] writes it after
    the updates. *)
Record ConfigUpdates := {
  upd_id : option string;
  upd_name : option string;
  upd_type : option BackupType;
  upd_frequency : option BackupFrequency;
  upd_isEnabled : option bool;
  upd_scheduleTime : option (option string);
  upd_retentionDays : option Z;
  upd_includeFiles : option bool;
  upd_compression : option bool;
  upd_encryption : option bool;
  upd_createdAt : option Date;
  upd_lastRunAt : option (option Date);
  upd_nextRunAt : option (option Date);
}.

(** [{ ...config, ...updates, updatedAt: new Date() }] *)
Definition merge_config (now : Z) (c : Config.BackupConfig)
  (u : ConfigUpdates) : Config.BackupConfig :=
  {| Config.id := default (Config.id c) (upd_id u);
     Config.name := default (Config.name c) (upd_name u);
     Config.type := default (Config.type c) (upd_type u);
     Config.frequency := default (Config.frequency c) (upd_frequency u);
     Config.isEnabled := default (Config.isEnabled c) (upd_isEnabled u);
     Config.scheduleTime
     := default (Config.scheduleTime c) (upd_scheduleTime u);
     Config.retentionDays
     := default (Config.retentionDays c) (upd_retentionDays u);
     Config.includeFiles
     := default (Config.includeFiles c) (upd_includeFiles u);
     Config.compression := default (Config.compression c) (upd_compression u);
     Config.encryption := default (Config.encryption c) (upd_encryption u);
     Config.createdAt := default (Config.createdAt c) (upd_createdAt u);
     Config.updatedAt := Some now;
     Config.lastRunAt := default (Config.lastRunAt c) (upd_lastRunAt u);
     Config.nextRunAt := default (Config.nextRunAt c) (upd_nextRunAt u) |}.

Section Calendar.

(** [Number.parseInt] of a part of the schedule time ([None] for a part
    that is not there; the result [None] is [NaN]); [setHours(h, m, 0, 0)]
    and [setDate(getDate() + 1)] in the time zone of the browser. *)
Variable parseInt : option string -> option Z.
Variable setHours : Z -> option Z -> option Z -> Date.
Variable next_day : Z -> Date.

(** The next run of a configuration with the schedule time [time],
    computed at [now]: today at that time, or tomorrow when that has
    passed.  The parts of the time are separated by a colon (character
    58). *)
Definition next_run (now : Z) (time : string) : Date :=
  let parts := split_at (Ascii.ascii_of_nat 58) time in
  match setHours now (parseInt (parts !! 0%nat)) (parseInt (parts !! 1%nat))
  with
  | Some t => if (t <=? now)%Z then next_day t else Some t
  | None => None
  end.

Definition new_config (env : ConfigEnv) (c : ConfigInput)
  : Config.BackupConfig :=
  {| Config.id := new_configId env;
     Config.name := in_name c;
     Config.type := in_type c;
     Config.frequency := in_frequency c;
     Config.isEnabled := in_isEnabled c;
     Config.scheduleTime := in_scheduleTime c;
     Config.retentionDays := in_retentionDays c;
     Config.includeFiles := in_includeFiles c;
     Config.compression := in_compression c;
     Config.encryption := in_encryption c;
     Config.createdAt := Some (config_created env);
     Config.updatedAt := Some (config_updated env);
     Config.lastRunAt := in_lastRunAt c;
     Config.nextRunAt
     := if negb (is_manual (in_frequency c))
           && truthy_opt (in_scheduleTime c)
        then Some (next_run (schedule_now env)
                            (default "" (in_scheduleTime c)))
        else in_nextRunAt c |}.

Definition createBackupConfig (env : ConfigEnv) (c : ConfigInput)
  : M state ConfigResult :=
  try_catch
    (run modify (fun s => set_configs (new_config env c :: configs s) s);
     run saveData;
     ret {| config_success := true; configId := Some (new_configId env);
            config_message := None |})
    (fun _ =>
       ret {| config_success := false; configId := None;
              config_message
              := Some "Erro ao criar configuração de backup" |}).

End Calendar.

Definition getBackupConfigs : M state (list Config.BackupConfig) :=
  gets configs.

Definition updateBackupConfig (now : Z) (id_ : string) (updates : ConfigUpdates)
  : M state Result :=
  try_catch
    (do index <- gets (fun s =>
         findIndex (fun c => String.eqb (Config.id c) id_) (configs s));
     match index with
     | None => ret (failure "Configuração não encontrada")
     | Some i =>
         run modify (fun s =>
               set_configs
                 (alter (fun c => merge_config now c updates) i (configs s))
                 s);
         run saveData;
         ret {| success := true; backupId := None; message := None |}
     end)
    (fun _ => ret (failure "Erro ao atualizar configuração")).

Definition deleteBackupConfig (id_ : string) : M state Result :=
  try_catch
    (do index <- gets (fun s =>
         findIndex (fun c => String.eqb (Config.id c) id_) (configs s));
     match index with
     | None => ret (failure "Configuração não encontrada")
     | Some i =>
         run modify (fun s => set_configs (delete i (configs s)) s);
         run saveData;
         ret {| success := true; backupId := None; message := None |}
     end)
    (fun _ => ret (failure "Erro ao excluir configuração")).

(** *** [createBackup]

    The method suspends at every [await]; between two suspensions it runs
    without interruption.  A run is followed in a [world]: the service
    state and the states that the rest of the application could see, one
    for each suspension, oldest first. *)
Record world := {
  svc : state;
  observed : list state;
}.

Definition lift {A} (m : M state A) : M world A :=
  fun w => let '(r, s') := m (svc w) in
           (r, {| svc := s'; observed := observed w |}).

Definition await : M world unit :=
  modify (fun w => {| svc := svc w; observed := observed w ++ [svc w] |}).

(** What one call reads from outside the service: the clock at entry and
    at completion, the random suffix of the identifier, the formatted
    date, the error thrown while the data is collected (if any), the JSON
    text of the collected data (or the error thrown while it is
    serialised), the object URL that the browser hands out, and the
    retention cutoff. *)
Record Env := {
  now_start : Z;
  rnd : string;
  locale_date : string;
  collect_error : option string;
  json : outcome string;
  object_url : string;
  now_done : Z;
  cutoff : Z;
}.

Definition new_backupId (env : Env) : string :=
  "backup_" ++ pretty (now_start env) ++ "_" ++ rnd env.

Definition new_backup (env : Env) (type_ : BackupType)
  (description_ : option string) : BackupItem :=
  {| id := new_backupId env;
     name := if truthy_opt description_ then default "" description_
             else "Backup " ++ type_name type_ ++ " - " ++ locale_date env;
     type := type_;
     status := running;
     createdAt := now_start env;
     completedAt := None;
     size := 0;
     downloadUrl := None;
     errorMessage := None;
     progress := 0;
     userId := "current-user";
     description := description_ |}.

(** [for (let p = from; p <= 100; p += 20) body(p)]; [fuel] bounds the
    number of turns. *)
Fixpoint for_progress {S} (fuel : nat) (p : Z) (body : Z -> M S unit)
  : M S unit :=
  match fuel with
  | O => ret tt
  | S fuel' =>
      if (p <=? 100)%Z then run body p; for_progress fuel' (p + 20) body
      else ret tt
  end.

(** One turn of the progress loop. *)
Definition progress_turn (backup : loc) (p : Z) : M world unit :=
  run lift (modify (mutate backup (set_progress p)));
  run lift saveData;
  await.

(** The [catch] block. *)
Definition on_error (env : Env) (e : string) : M world Result :=
  do found <- lift (getBackup (new_backupId env));
  run match found with
      | Some backup =>
          run lift (modify (mutate backup (fail e)));
          lift saveData
      | None => ret tt
      end;
  ret (failure "Erro ao criar backup").

Definition createBackup (env : Env) (type_ : BackupType)
  (description_ : option string) : M world Result :=
  let backupId_ := new_backupId env in
  try_catch
    (do backup <- lift (unshift_new (new_backup env type_ description_));
     run lift saveData;
     run await;
     run match collect_error env with
         | Some e => throw e
         | None => ret tt
         end;
     run for_progress 7 0 (progress_turn backup);
     do text <- (fun w => (json env, w));
     run lift (modify (mutate backup
                 (complete (Z.of_nat (String.length text)) (now_done env)
                           (object_url env))));
     run lift saveData;
     run lift (cleanupOldBackups (cutoff env));
     ret {| success := true; backupId := Some backupId_; message := None |})
    (on_error env).

(** The statuses that the object [l] shows over a run: at each suspension,
    then when the call has returned. *)
Definition status_trace (l : loc) (w : world) : list BackupStatus :=
  (fun s => status (deref s l)) <$> (observed w ++ [svc w])%list.

(** The core of the service state: what remains when the storage and its
    answers are left aside. *)
Definition same_arrays (s s' : state) : Prop :=
  objects s' = objects s /\ backups s' = backups s /\
  configs s' = configs s /\ restoreOperations s' = restoreOperations s /\
  revoked s' = revoked s.

(** The invariant of a run started in state [s] with the new object [nb]:
    the object sits behind the reference [length (objects s)] at the front
    of the array and is [running]; the first state that was observed
    shows the object there as it was created; every observed state shows
    it [running]; and a storage that takes every write still does. *)
Definition tracking (s : state) (nb : BackupItem) (w : world) : Prop :=
  let l := length (objects s) in
  (exists b,
     objects (svc w) = (objects s ++ [b])%list /\
     backups (svc w) = l :: backups s /\
     status b = running /\ id b = id nb) /\
  (exists s1 rest,
     observed w = s1 :: rest /\ backups s1 = l :: backups s
     /\ deref s1 l = nb) /\
  Forall (fun st => status (deref st l) = running) (observed w) /\
  (accepting s -> accepting (svc w)).

End BackupService.

(** ** services/analyticsService.ts *)

Module AnalyticsService.

Definition calculatePercentChange (current previous : float) : float :=
  if PrimFloat.eqb previous 0%float then
    (if PrimFloat.ltb 0%float current then 100%float else 0%float)
  else
    PrimFloat.mul
      (PrimFloat.div (PrimFloat.sub current previous) previous) 100%float.

End AnalyticsService.

(** ** The application: one instance of each service *)

Module App.

Record state := {
  userService : UserService.state;
  notificationService : NotificationService.state;
  backupService : BackupService.world;
}.

Definition in_notifications {A} (m : M NotificationService.state A)
  : M state A :=
  fun a => let '(r, n') := m (notificationService a) in
           (r, {| userService := userService a;
                  notificationService := n';
                  backupService := backupService a |}).

Definition in_backups {A} (m : M BackupService.world A) : M state A :=
  fun a => let '(r, b') := m (backupService a) in
           (r, {| userService := userService a;
                  notificationService := notificationService a;
                  backupService := b' |}).

End App.

(** ** Sample inputs and sessions *)

Module Samples.

(** [Number] on a string of decimal digits ([NaN] on any other
    character, [0] on the empty string). *)
Definition digit_value (c : Ascii.ascii) : option Z :=
  let n := Z.of_nat (Ascii.nat_of_ascii c) in
  if (48 <=? n)%Z && (n <=? 57)%Z then Some (n - 48)%Z else None.

Fixpoint decimal (acc : Z) (s : string) : option Z :=
  match s with
  | EmptyString => Some acc
  | String c s' =>
      match digit_value c with
      | Some d => decimal (10 * acc + d) s'
      | None => None
      end
  end.

Definition Number (s : string) : float :=
  match decimal 0 s with
  | Some z => NotificationService.float_of_Z z
  | None => nan
  end.

Definition noon : NotificationService.Clock :=
  {| NotificationService.epoch := 1767268800000;
     NotificationService.hours := 12;
     NotificationService.minutes := 0 |}.

(** The user service after the manager, then after the administrator,
    signed in. *)
Definition manager_session : UserService.state :=
  snd (UserService.login 1767268800000 "manager@agenciacheck.com" "abc"
         (UserService.initial 1767225600000)).

Definition admin_session : UserService.state :=
  snd (UserService.login 1767268800000 "juliocorrea@check2.com.br" "Ju113007"
         (UserService.initial 1767225600000)).

Definition new_seller : UserTypes.CreateUserRequest :=
  {| UserTypes.req_email := "seller@agenciacheck.com";
     UserTypes.req_name := "Vendedor";
     UserTypes.req_role := UserTypes.sales;
     UserTypes.req_password := "secret" |}.

Definition second_manager : UserTypes.CreateUserRequest :=
  {| UserTypes.req_email := "manager@agenciacheck.com";
     UserTypes.req_name := "Outro Gerente";
     UserTypes.req_role := UserTypes.manager;
     UserTypes.req_password := "secret" |}.

Definition alert (n : nat) : NotificationTypes.NotificationInput :=
  NotificationService.quick NotificationTypes.type_info
    NotificationTypes.low "Aviso" (pretty n) NotificationTypes.general
    None None.

(** [n] calls of [addNotification], one per millisecond. *)
Fixpoint add_many (n : nat) (s : NotificationService.state)
  : NotificationService.state :=
  match n with
  | O => s
  | S n' =>
      snd (NotificationService.addNotification Number
             {| NotificationService.epoch := 1767268800000 + Z.of_nat n';
                NotificationService.hours := 12;
                NotificationService.minutes := 0 |}
             "k3j9x0a1b" (alert n') (add_many n' s))
  end.

Definition all_day : NotificationTypes.SettingsUpdate :=
  {| NotificationTypes.up_userId := None;
     NotificationTypes.up_emailNotifications := None;
     NotificationTypes.up_pushNotifications := None;
     NotificationTypes.up_soundEnabled := None;
     NotificationTypes.up_categories := None;
     NotificationTypes.up_quietHours :=
       Some {| NotificationTypes.qh_enabled := true;
               NotificationTypes.qh_start := "00:00";
               NotificationTypes.qh_end := "23:59" |};
     NotificationTypes.up_createdAt := None |}.

(** A fresh service with one listener and quiet hours switched on. *)
Definition quiet : NotificationService.state :=
  snd (NotificationService.updateSettings 1767268800000 all_day
         (snd (NotificationService.subscribe 7%nat
                 (NotificationService.initial 1767225600000 true)))).

(** A thousand notifications delivered, then quiet hours switched on and
    one more notification added. *)
Definition full_house : NotificationService.state :=
  snd (NotificationService.addNotification Number noon "zzzzzzzzz"
         (alert 1000)
         (snd (NotificationService.updateSettings 1767268800000 all_day
                 (add_many 1000
                    (NotificationService.initial 1767225600000 true))))).

Definition plain_run : BackupService.Env :=
  {| BackupService.now_start := 1767268800000;
     BackupService.rnd := "abcdefghi";
     BackupService.locale_date := "01/01/2026";
     BackupService.collect_error := None;
     BackupService.json := Return "{}";
     BackupService.object_url := "blob:http://localhost/0f6c";
     BackupService.now_done := 1767268800700;
     BackupService.cutoff := 1764676800000 |}.

Definition fresh_world : BackupService.world :=
  {| BackupService.svc := BackupService.initial;
     BackupService.observed := [] |}.

(** The backup service after one backup was taken. *)
Definition after_backup : BackupService.state :=
  BackupService.svc
    (snd (BackupService.createBackup plain_run BackupTypes.full None
            fresh_world)).

(** The backup service with a storage that refuses every write of a
    call. *)
Definition no_storage : BackupService.state :=
  BackupService.set_storage
    [Some "QuotaExceededError"; Some "QuotaExceededError"]
    BackupService.initial.

(** The notification service with one listener, whose callback throws. *)
Definition throwing_listener : NotificationService.state :=
  NotificationService.set_callbacks
    (fun l _ => if Nat.eqb l 7 then Some "listener failed" else None)
    (snd (NotificationService.subscribe 7%nat
            (NotificationService.initial 1767225600000 true))).

(** The same, with a storage that is full: the next write throws. *)
Definition full_storage : BackupService.state :=
  BackupService.set_storage [Some "QuotaExceededError"] after_backup.

(** The application while quiet hours are active. *)
Definition quiet_app : App.state :=
  {| App.userService := admin_session;
     App.notificationService := quiet;
     App.backupService := fresh_world |}.

End Samples.


(** ** Sessions of the user service: sequences of calls *)

Module UserSessions.
Import UserTypes UserService.

(** One call of a public method, with what it reads from outside. *)
Inductive call :=
| Login (now : Z) (email_ password : string)
| Logout
| GetAllUsers
| CreateUser (now : Z) (userData : CreateUserRequest)
| UpdateUser (now : Z) (userId : string) (updateData : UpdateUserRequest)
| DeleteUser (userId : string)
| GetUserActivity (now : Z) (userId : option string)
| UpdateProfile (now : Z) (new_name new_avatar : option string)
| ChangePassword (currentPassword newPassword : string).

(** The state that a call leaves. *)
Definition exec (c : call) (s : state) : state :=
  match c with
  | Login now e p => snd (login now e p s)
  | Logout => snd (logout s)
  | GetAllUsers => snd (getAllUsers s)
  | CreateUser now d => snd (createUser now d s)
  | UpdateUser now i d => snd (updateUser now i d s)
  | DeleteUser i => snd (deleteUser i s)
  | GetUserActivity now i => snd (getUserActivity now i s)
  | UpdateProfile now n a => snd (updateProfile now n a s)
  | ChangePassword a b => snd (changePassword a b s)
  end.

(** The calls of a session, oldest first. *)
Definition session (cs : list call) (s : state) : state :=
  fold_left (fun s c => exec c s) cs s.

(** The emails of the users of the array, in order. *)
Definition emails (s : state) : list string :=
  (fun l => email (deref s l)) <$> users s.

(** No user of the array is an administrator. *)
Definition no_admin (s : state) : Prop :=
  Forall (fun l => role (deref s l) <> admin) (users s).

(** [l] is what [this.users.findIndex(u => u.id === i)] finds: the first
    user of the array with the identifier [i]. *)
Definition first_with_id (s : state) (i : string) (l : loc) : Prop :=
  exists k,
    users s !! k = Some l /\ id (deref s l) = i /\
    forall j l', (j < k)%nat -> users s !! j = Some l' ->
                 id (deref s l') <> i.

End UserSessions.

(** ** More sample sessions *)

Module MoreSamples.
Import UserTypes UserService UserSessions.

Definition to_manager : UpdateUserRequest :=
  {| upd_name := None; upd_role := Some manager;
     upd_isActive := None; upd_permissions := None |}.

Definition custom_permissions : UpdateUserRequest :=
  {| upd_name := None; upd_role := None; upd_isActive := None;
     upd_permissions := Some ["canManageUsers"] |}.

(** The administrator signs in and makes themselves a manager. *)
Definition demoted : state :=
  session [ Login 1767268800000 "juliocorrea@check2.com.br" "Ju113007";
            UpdateUser 1767268800001 "1" to_manager ]
          (initial 1767225600000).

(** The administrator signs in, creates a user (who gets the identifier
    "3") and deletes the user "2": two users are left, and the next
    identifier to be handed out is "3" again. *)
Definition after_turnover : state :=
  session [ Login 1767268800000 "juliocorrea@check2.com.br" "Ju113007";
            CreateUser 1767268800001 Samples.new_seller;
            DeleteUser "2" ]
          (initial 1767225600000).

(** The password [ñ1]: two characters, three bytes. *)
Definition two_characters : string :=
  String (Ascii.ascii_of_nat 195)
    (String (Ascii.ascii_of_nat 177) (String (Ascii.ascii_of_nat 49) "")).

Definition another_seller : CreateUserRequest :=
  {| req_email := "other@agenciacheck.com"; req_name := "Outro";
     req_role := sales; req_password := "secret" |}.

End MoreSamples.

(** ** Reading the notification list: [getNotifications] and [getStats] *)

Module NotificationQueries.
Import NotificationTypes NotificationService.

(** [Array.prototype.sort] is stable; with the comparator
    [(a, b) => b.timestamp - a.timestamp] it puts a notification before the
    first one that is not newer than it.  [sort_newest_first] sorts by
    inserting from the right, which gives that order. *)
Fixpoint insert_newest_first (x : Notification) (l : list Notification)
  : list Notification :=
  match l with
  | [] => [x]
  | y :: l' =>
      if (timestamp y <=? timestamp x)%Z then x :: y :: l'
      else y :: insert_newest_first x l'
  end.

Definition sort_newest_first (l : list Notification) : list Notification :=
  foldr insert_newest_first [] l.

(** [a.slice(0, n)] for an integer [n]: a negative [n] counts from the
    end. *)
Definition slice_to {A} (n : Z) (a : list A) : list A :=
  if (n <? 0)%Z then take (Z.to_nat (Z.of_nat (length a) + n)) a
  else take (Z.to_nat n) a.

(** [limit] is the optional argument, an integer when given; [0] is falsy. *)
Definition getNotifications (limit : option Z) (s : state)
  : list Notification :=
  let sorted := sort_newest_first (notifications s) in
  match limit with
  | Some n => if (n =? 0)%Z then sorted else slice_to n sorted
  | None => sorted
  end.

(** [acc[k] = (acc[k] || 0) + 1] on a record whose keys are kept in the
    order of their first assignment. *)
Fixpoint bump {K} (eqb : K -> K -> bool) (k : K) (acc : list (K * nat))
  : list (K * nat) :=
  match acc with
  | [] => [(k, 1%nat)]
  | (k', n) :: acc' =>
      if eqb k' k then (k', S n) :: acc'
      else (k', n) :: bump eqb k acc'
  end.

Definition category_eqb (a b : NotificationCategory) : bool :=
  match a, b with
  | order, order | payment, payment | system, system
  | backup, backup | user, user | general, general => true
  | _, _ => false
  end.

Definition type_eqb (a b : NotificationType) : bool :=
  match a, b with
  | type_success, type_success | type_error, type_error
  | type_warning, type_warning | type_info, type_info => true
  | _, _ => false
  end.

Record Stats := {
  total : nat;
  unread : nat;
  byCategory : list (NotificationCategory * nat);
  byType : list (NotificationType * nat);
  last24Hours : nat;
  avgResponseTime : Z;
}.

(** [now] is [Date.now()]. *)
Definition getStats (now : Z) (s : state) : Stats :=
  {| total := length (notifications s);
     unread := length (getUnreadNotifications s);
     byCategory :=
       fold_left (fun acc notif => bump category_eqb (category notif) acc)
                 (notifications s) [];
     byType :=
       fold_left (fun acc notif => bump type_eqb (type notif) acc)
                 (notifications s) [];
     last24Hours :=
       length (List.filter
                 (fun n => (now - timestamp n <? 24 * 60 * 60 * 1000)%Z)
                 (notifications s));
     avgResponseTime := 2000 |}.

End NotificationQueries.

(** ** Sessions of the notification service *)

Module NotificationSessions.
Import NotificationTypes NotificationService.

Inductive call :=
| AddNotification (now : Clock) (rnd : string) (n : NotificationInput)
| MarkAsRead (notificationId : string)
| MarkAllAsRead
| DeleteNotification (notificationId : string)
| ClearAll
| Subscribe (l : listener)
| Unsubscribe (l : listener)
| UpdateSettings (now : Z) (updates : SettingsUpdate)
| ProcessQueue.

Definition is_flush (c : call) : bool :=
  match c with ProcessQueue => true | _ => false end.

Section Exec.
Variable Number : string -> float.

Definition exec (c : call) (s : state) : state :=
  match c with
  | AddNotification now rnd n => snd (addNotification Number now rnd n s)
  | MarkAsRead i => snd (markAsRead i s)
  | MarkAllAsRead => snd (markAllAsRead s)
  | DeleteNotification i => snd (deleteNotification i s)
  | ClearAll => snd (clearAll s)
  | Subscribe l => snd (subscribe l s)
  | Unsubscribe l => snd (unsubscribe l s)
  | UpdateSettings now u => snd (updateSettings now u s)
  | ProcessQueue => snd (processQueue s)
  end.

Definition session (cs : list call) (s : state) : state :=
  fold_left (fun s c => exec c s) cs s.
End Exec.

(** The calls made to the listener [l], oldest first. *)
Definition calls_to (l : listener) (s : state) : list Notification :=
  snd <$> List.filter (fun c => Nat.eqb (fst c) l) (delivered s).

End NotificationSessions.

(** ** A sample window of quiet hours *)

Module QuietSamples.
Import NotificationTypes NotificationService.

Definition overnight_window : SettingsUpdate :=
  {| up_userId := None; up_emailNotifications := None;
     up_pushNotifications := None; up_soundEnabled := None;
     up_categories := None;
     up_quietHours := Some {| qh_enabled := true; qh_start := "22:00";
                              qh_end := "08:00" |};
     up_createdAt := None |}.

(** A fresh service with the default window switched on. *)
Definition overnight : state :=
  snd (updateSettings 1767268800000 overnight_window
         (initial 1767225600000 true)).

Definition at_time (h m : Z) : Clock :=
  {| epoch := 1767268800000; hours := h; minutes := m |}.

End QuietSamples.

(** ** Queries on the backups and the course of a backup *)

Module BackupQueries.
Import BackupTypes BackupService.

(** The stable sort of references with the comparator
    [(a, b) => b.createdAt.getTime() - a.createdAt.getTime()]. *)
Fixpoint insert_newest_first (s : state) (x : loc) (l : list loc) : list loc :=
  match l with
  | [] => [x]
  | y :: l' =>
      if (createdAt (deref s y) <=? createdAt (deref s x))%Z then x :: y :: l'
      else y :: insert_newest_first s x l'
  end.

Definition sort_newest_first (s : state) (l : list loc) : list loc :=
  foldr (insert_newest_first s) [] l.

Definition is_completed (b : BackupItem) : bool :=
  match status b with completed => true | _ => false end.

(** [this.backups.filter(...).sort(...)[0] || null] *)
Definition getLastSuccessfulBackup (s : state) : option loc :=
  head (sort_newest_first s
          (List.filter (fun l => is_completed (deref s l)) (backups s))).

(** The URL that the retention sweep with cutoff [c] revokes for the
    backup [b], if any. *)
Definition stale_url (c : Z) (b : BackupItem) : option string :=
  if (createdAt b <? c)%Z then
    match downloadUrl b with
    | Some u => if truthy u then Some u else None
    | None => None
    end
  else None.

(** The progress that the object [l] shows over a run: at each suspension,
    then when the call has returned. *)
Definition progress_trace (l : loc) (w : world) : list Z :=
  (fun s => progress (deref s l)) <$> (observed w ++ [svc w])%list.

(** The state of a run started in [s] whose new object [nb] shows the
    progress [p], the progress seen at the suspensions so far being
    [seen]. *)
Definition at_progress (s : state) (nb : BackupItem) (p : Z) (seen : list Z)
  (w : world) : Prop :=
  objects (svc w) = (objects s ++ [set_progress p nb])%list /\
  backups (svc w) = length (objects s) :: backups s /\
  revoked (svc w) = revoked s /\
  accepting (svc w) /\
  (fun st => progress (deref st (length (objects s)))) <$> observed w = seen.

(** Where a run started in state [s] with the new object [nb] stands
    when an exception ends it with the backup still at the front of the
    list. *)
Definition holding (s : state) (nb : BackupItem) (w : world) : Prop :=
  let l := length (objects s) in
  (exists b,
     objects (svc w) = (objects s ++ [b])%list /\
     backups (svc w) = l :: backups s /\ id b = id nb) /\
  (forall s1, head (observed w) = Some s1 ->
              backups s1 = l :: backups s /\ deref s1 l = nb) /\
  Forall (fun st => status (deref st l) = running) (observed w).

(** The state that [saveData] leaves when the storage takes both
    writes. *)
Definition saved (s : state) : state :=
  {| objects := objects s; backups := backups s; configs := configs s;
     restoreOperations := restoreOperations s;
     stored_backups := Some (deref s <$> backups s);
     stored_configs := Some (configs s);
     revoked := revoked s; storage := drop 2 (storage s) |}.

(** The exception that the next [saveData] ends with, if any: the storage
    refuses the first write, or takes it and refuses the second. *)
Definition save_error (s : state) : option string :=
  match storage s with
  | Some e :: _ => Some e
  | None :: Some e :: _ => Some e
  | _ => None
  end.

(** The state that a [saveData] ended by an exception leaves: the first
    entry is written when it was the second write that was refused. *)
Definition unsaved (s : state) : state :=
  match storage s with
  | None :: _ :: rest =>
      set_stored_backups (Some (deref s <$> backups s)) (set_storage rest s)
  | _ => set_storage (drop 1 (storage s)) s
  end.

(** The state in which the retention sweep with cutoff [c] calls
    [saveData]. *)
Definition swept (c : Z) (s : state) : state :=
  set_backups
    (List.filter (fun l => negb (createdAt (deref s l) <? c)%Z) (backups s))
    (set_revoked
       (revoked s ++ omap (fun l => stale_url c (deref s l)) (backups s))%list
       s).

(** A run in which the data cannot be collected. *)
Definition failing_run : Env :=
  {| now_start := 1767268800000;
     rnd := "abcdefghi";
     locale_date := "01/01/2026";
     collect_error := Some "store unavailable";
     json := Return "{}";
     object_url := "blob:http://localhost/0f6c";
     now_done := 1767268800700;
     cutoff := 1764676800000 |}.

End BackupQueries.

(** ** services/analyticsService.ts: periods and the cache *)

Module AnalyticsPeriods.

(** The two properties of a sale that date it. *)
Record Sale := {
  data : option string;
  createdAt : option string;
}.

(** [{ start: Date; end: Date }], both valid dates, as time values. *)
Record DateRange := {
  start : Z;
  end_ : Z;
}.

Section Dates.

(** The time value of [new Date(text)]; [None] for an invalid date. *)
Variable parse : string -> option Z.

(** [new Date(sale.data || sale.createdAt || Date.now())]; [now] is the
    clock while the sales are filtered. *)
Definition saleDate (now : Z) (sale : Sale) : option Z :=
  if truthy_opt (data sale) then parse (default "" (data sale))
  else if truthy_opt (createdAt sale) then parse (default "" (createdAt sale))
  else Some now.

(** [saleDate >= dateRange.start && saleDate <= dateRange.end]: a
    comparison with an invalid date is false. *)
Definition within (r : DateRange) (t : option Z) : bool :=
  match t with
  | Some t => (start r <=? t)%Z && (t <=? end_ r)%Z
  | None => false
  end.

Definition filterSalesByDateRange (now : Z) (sales : list Sale)
  (dateRange : DateRange) : list Sale :=
  List.filter (fun sale => within dateRange (saleDate now sale)) sales.

Definition getPreviousPeriodSales (now : Z) (sales : list Sale)
  (dateRange : DateRange) : list Sale :=
  let periodLength := (end_ dateRange - start dateRange)%Z in
  let previousStart := (start dateRange - periodLength)%Z in
  let previousEnd := start dateRange in
  filterSalesByDateRange now sales
    {| start := previousStart; end_ := previousEnd |}.

End Dates.

(** The date text of the sample sale, in the format of [toISOString], and
    the time value that [new Date] gives for it; the sample holds no other
    date text. *)
Definition new_year_text : string := "2026-01-01T00:00:00.000Z".

Definition sample_dates (text : string) : option Z :=
  if String.eqb text new_year_text then Some 1767225600000 else None.

Definition january : DateRange :=
  {| start := 1767225600000; end_ := 1769904000000 |}.

Definition on_new_year : Sale :=
  {| data := Some new_year_text; createdAt := None |}.

End AnalyticsPeriods.

Module AnalyticsCache.

Section Cache.

(** The type of the cached results. *)
Variable D : Type.

Record Entry := {
  data : D;
  timestamp : Z;
}.

(** [Map<string, { data: any; timestamp: Date }>] *)
Definition state := gmap string Entry.

Definition CACHE_DURATION : Z := 5 * 60 * 1000.

(** [now] is [Date.now()]. *)
Definition getCachedData (now : Z) (key : string) : M state (option D) :=
  gets (fun cache =>
    match cache !! key with
    | Some cached =>
        if (now - timestamp cached <? CACHE_DURATION)%Z
        then Some (data cached) else None
    | None => None
    end).

(** [now] is the time value of [new Date()]. *)
Definition setCachedData (now : Z) (key : string) (d : D) : M state unit :=
  modify (fun cache => <[key := {| data := d; timestamp := now |}]> cache).

(** The frame shared by [calculatePerformanceMetrics],
    [calculateSalesAnalytics] and [calculateCustomerAnalytics]: look the
    key up, return a hit, otherwise compute, store and return.  [fresh] is
    what the computation yields at this call (the results are objects,
    hence truthy); [now_read] and [now_write] are the clock at the lookup
    and at the store. *)
Definition cached_or_computed (now_read now_write : Z) (cacheKey : string)
  (fresh : D) : M state D :=
  do cached <- getCachedData now_read cacheKey;
  match cached with
  | Some d => ret d
  | None => run setCachedData now_write cacheKey fresh; ret fresh
  end.

End Cache.

Arguments data {D}.
Arguments timestamp {D}.
Arguments getCachedData {D}.
Arguments setCachedData {D}.
Arguments cached_or_computed {D}.

End AnalyticsCache.

(** ** stores/userStore.ts and components/auth/ProtectedRoute.tsx *)

Module UserStore.
Import UserTypes.

Definition loc := UserService.loc.

(** The [users] array of the store.  [loadUsers] stores the array that
    [getAllUsers] resolves to, which is the array of the service itself;
    every other action stores an array of its own making. *)
Inductive users_array :=
| service_array
| own_array (elements : list loc).

(** The data of the store; the users are references to the objects of the
    service. *)
Record store := {
  currentUser : option loc;
  isAuthenticated : bool;
  isLoading : bool;
  users : users_array;
  selectedUser : option loc;
}.

(** The store and the service it drives. *)
Record state := {
  service : UserService.state;
  ui : store;
}.

(** [{ success: boolean; message?: string }] *)
Record Result := {
  success : bool;
  message : option string;
}.

(** What the [persist] middleware keeps under ['user-store']: the two
    properties that [partialize] picks, the user as the JSON copy of the
    object. *)
Record Persisted := {
  saved_currentUser : option User;
  saved_isAuthenticated : bool;
}.

(** The store and the service after a page load.  The service is
    constructed anew, with nobody signed in.  The store starts from its
    initial values, overlaid with the persisted entry when there is one;
    a persisted user is an object of its own, not one of the service's
    users. *)
Definition initial (boot : Z) (saved : option Persisted) : state :=
  let s0 := UserService.initial boot in
  match saved with
  | None =>
      {| service := s0;
         ui := {| currentUser := None; isAuthenticated := false;
                  isLoading := false; users := own_array [];
                  selectedUser := None |} |}
  | Some p =>
      match saved_currentUser p with
      | Some copy =>
          {| service :=
               {| UserService.objects := UserService.objects s0 ++ [copy];
                  UserService.users := UserService.users s0;
                  UserService.currentUser := None |};
             ui := {| currentUser := Some (length (UserService.objects s0));
                      isAuthenticated := saved_isAuthenticated p;
                      isLoading := false; users := own_array [];
                      selectedUser := None |} |}
      | None =>
          {| service := s0;
             ui := {| currentUser := None;
                      isAuthenticated := saved_isAuthenticated p;
                      isLoading := false; users := own_array [];
                      selectedUser := None |} |}
      end
  end.

Definition in_service {A} (m : M UserService.state A) : M state A :=
  fun a => let '(r, s') := m (service a) in
           (r, {| service := s'; ui := ui a |}).

(** [set({ ... })] *)
Definition set (f : store -> store) : M state unit :=
  modify (fun a => {| service := service a; ui := f (ui a) |}).

Definition set_isLoading (v : bool) (st : store) : store :=
  {| currentUser := currentUser st; isAuthenticated := isAuthenticated st;
     isLoading := v; users := users st; selectedUser := selectedUser st |}.

Definition set_users (v : users_array) (st : store) : store :=
  {| currentUser := currentUser st; isAuthenticated := isAuthenticated st;
     isLoading := isLoading st; users := v; selectedUser := selectedUser st |}.

Definition set_selectedUser (v : option loc) (st : store) : store :=
  {| currentUser := currentUser st; isAuthenticated := isAuthenticated st;
     isLoading := isLoading st; users := users st; selectedUser := v |}.

Definition set_currentUser (v : option loc) (st : store) : store :=
  {| currentUser := v; isAuthenticated := isAuthenticated st;
     isLoading := isLoading st; users := users st;
     selectedUser := selectedUser st |}.

(** [set({ currentUser: result.user, isAuthenticated: true,
    isLoading: false })] *)
Definition signed_in (u : loc) (st : store) : store :=
  {| currentUser := Some u; isAuthenticated := true; isLoading := false;
     users := users st; selectedUser := selectedUser st |}.

(** [set({ currentUser: null, isAuthenticated: false, users: [],
    selectedUser: null })] *)
Definition signed_out (st : store) : store :=
  {| currentUser := None; isAuthenticated := false;
     isLoading := isLoading st; users := own_array [];
     selectedUser := None |}.

(** The elements of [get().users] at the time of the call. *)
Definition elements_of (a : state) : list loc :=
  match users (ui a) with
  | service_array => UserService.users (service a)
  | own_array l => l
  end.

Definition login (now : Z) (email_ password : string) : M state Result :=
  run set (set_isLoading true);
  try_catch
    (do result <- in_service (UserService.login now email_ password);
     match UserService.success result, UserService.user result with
     | true, Some u =>
         run set (signed_in u);
         ret {| success := true; message := None |}
     | _, _ =>
         run set (set_isLoading false);
         ret {| success := false; message := UserService.message result |}
     end)
    (fun _ =>
       run set (set_isLoading false);
       ret {| success := false; message := Some "Erro ao fazer login" |}).

Definition logout : M state unit :=
  run in_service UserService.logout;
  set signed_out.

Definition loadUsers : M state unit :=
  try_catch
    (do users_ <- in_service UserService.getAllUsers;
     set (set_users service_array))
    (fun _ => ret tt).

Definition createUser (now : Z) (userData : CreateUserRequest)
  : M state Result :=
  try_catch
    (do result <- in_service (UserService.createUser now userData);
     match UserService.success result, UserService.user result with
     | true, Some u =>
         do users_ <- gets elements_of;
         run set (set_users (own_array (users_ ++ [u])));
         ret {| success := true; message := None |}
     | _, _ =>
         ret {| success := false; message := UserService.message result |}
     end)
    (fun _ => ret {| success := false;
                     message := Some "Erro ao criar usuário" |}).

Definition updateUser (now : Z) (userId : string)
  (updateData : UpdateUserRequest) : M state Result :=
  try_catch
    (do result <- in_service (UserService.updateUser now userId updateData);
     match UserService.success result, UserService.user result with
     | true, Some u =>
         do users_ <- gets elements_of;
         do updatedUsers <- gets (fun a =>
              (fun user =>
                 if String.eqb (id (UserService.deref (service a) user)) userId
                 then u else user) <$> users_);
         run set (set_users (own_array updatedUsers));
         ret {| success := true; message := None |}
     | _, _ =>
         ret {| success := false; message := UserService.message result |}
     end)
    (fun _ => ret {| success := false;
                     message := Some "Erro ao atualizar usuário" |}).

Definition deleteUser (userId : string) : M state Result :=
  try_catch
    (do result <- in_service (UserService.deleteUser userId);
     if UserService.success result then
       do users_ <- gets elements_of;
       do filteredUsers <- gets (fun a =>
            List.filter
              (fun user =>
                 negb (String.eqb (id (UserService.deref (service a) user))
                                  userId))
              users_);
       run set (set_users (own_array filteredUsers));
       ret {| success := true; message := None |}
     else
       ret {| success := false; message := UserService.message result |})
    (fun _ => ret {| success := false;
                     message := Some "Erro ao excluir usuário" |}).

Definition updateProfile (now : Z) (new_name new_avatar : option string)
  : M state Result :=
  try_catch
    (do result <- in_service (UserService.updateProfile now new_name new_avatar);
     match UserService.success result, UserService.user result with
     | true, Some u =>
         run set (set_currentUser (Some u));
         ret {| success := true; message := None |}
     | _, _ =>
         ret {| success := false; message := UserService.message result |}
     end)
    (fun _ => ret {| success := false;
                     message := Some "Erro ao atualizar perfil" |}).

Definition changePassword (currentPassword newPassword : string)
  : M state Result :=
  try_catch
    (do result <- in_service
                    (UserService.changePassword currentPassword newPassword);
     ret {| success := UserService.success result;
            message := UserService.message result |})
    (fun _ => ret {| success := false;
                     message := Some "Erro ao alterar senha" |}).

Definition hasPermission (permission : Permission) (a : state) : bool :=
  UserService.hasPermission permission (service a).

Definition hasAnyPermission (ps : list Permission) (a : state) : bool :=
  UserService.hasAnyPermission ps (service a).

Definition setSelectedUser (u : option loc) : M state unit :=
  set (set_selectedUser u).

Definition setLoading (loading : bool) : M state unit :=
  set (set_isLoading loading).

(** *** Sequences of actions *)

Inductive call :=
| Login (now : Z) (email_ password : string)
| Logout
| LoadUsers
| CreateUser (now : Z) (userData : CreateUserRequest)
| UpdateUser (now : Z) (userId : string) (updateData : UpdateUserRequest)
| DeleteUser (userId : string)
| UpdateProfile (now : Z) (new_name new_avatar : option string)
| ChangePassword (currentPassword newPassword : string)
| SetSelectedUser (u : option loc)
| SetLoading (loading : bool).

Definition exec (c : call) (a : state) : state :=
  match c with
  | Login now e p => snd (login now e p a)
  | Logout => snd (logout a)
  | LoadUsers => snd (loadUsers a)
  | CreateUser now d => snd (createUser now d a)
  | UpdateUser now i d => snd (updateUser now i d a)
  | DeleteUser i => snd (deleteUser i a)
  | UpdateProfile now n v => snd (updateProfile now n v a)
  | ChangePassword p q => snd (changePassword p q a)
  | SetSelectedUser u => snd (setSelectedUser u a)
  | SetLoading b => snd (setLoading b a)
  end.

Definition session (cs : list call) (a : state) : state :=
  fold_left (fun a c => exec c a) cs a.

(** The store and the service name the same signed-in user, and the flag
    of the store says whether there is one. *)
Definition in_step (a : state) : Prop :=
  currentUser (ui a) = UserService.currentUser (service a) /\
  isAuthenticated (ui a) = bool_decide (is_Some (currentUser (ui a))).

(** *** [ProtectedRoute] *)

(** What the component renders. *)
Inductive rendering :=
| to_login
| to_dashboard
| children.

Definition role_eqb (a b : UserRole) : bool :=
  match a, b with
  | admin, admin | manager, manager | sales, sales | viewer, viewer => true
  | _, _ => false
  end.

(** The props are optional; a role and a permission key are non-empty
    strings and an array is an object, so each is truthy when present. *)
Definition ProtectedRoute (requireRole : option UserRole)
  (requirePermission : option Permission)
  (requireAnyPermission : option (list Permission)) (a : state) : rendering :=
  match isAuthenticated (ui a), currentUser (ui a) with
  | true, Some u =>
      let user := UserService.deref (service a) u in
      if negb (isActive user) then to_login
      else if match requireRole with
              | Some r => negb (role_eqb (role user) r)
              | None => false
              end then to_dashboard
      else if match requirePermission with
              | Some p => negb (hasPermission p a)
              | None => false
              end then to_dashboard
      else if match requireAnyPermission with
              | Some ps => negb (hasAnyPermission ps a)
              | None => false
              end then to_dashboard
      else children
  | _, _ => to_login
  end.

(** The administrator signs in and opens the list of users. *)
Definition admin_console : state :=
  session [Login 1767268800000 "juliocorrea@check2.com.br" "Ju113007";
           LoadUsers]
          (initial 1767225600000 None).

(** What the store persisted while the manager was signed in. *)
Definition manager_saved : Persisted :=
  {| saved_currentUser :=
       Some {| id := "2"; email := "manager@agenciacheck.com";
               name := "Gerente Comercial"; role := manager;
               avatar := None; isActive := true;
               lastLogin := Some 1767268800000;
               createdAt := 1735689600000; updatedAt := 1767225600000;
               permissions := role_permission_names manager |};
     saved_isAuthenticated := true |}.

End UserStore.

(** ** hooks/use-responsive.tsx: what [useResponsive] computes *)

Module Responsive.

Inductive DeviceType := mobile | tablet | desktop.

(** [Record<BreakpointSize, number>]; [xxl] is the key ['2xl']. *)
Record Breakpoints := {
  xs : Z; sm : Z; md : Z; lg : Z; xl : Z; xxl : Z;
}.

Record DeviceBreakpoints := {
  below_mobile : Z;
  below_tablet : Z;
}.

Record ResponsiveConfig := {
  breakpoints : Breakpoints;
  deviceBreakpoints : DeviceBreakpoints;
}.

(** [Partial<ResponsiveConfig>] *)
Record PartialConfig := {
  with_breakpoints : option Breakpoints;
  with_deviceBreakpoints : option DeviceBreakpoints;
}.

Definition defaultConfig : ResponsiveConfig :=
  {| breakpoints := {| xs := 475; sm := 640; md := 768; lg := 1024;
                       xl := 1280; xxl := 1536 |};
     deviceBreakpoints := {| below_mobile := 768; below_tablet := 1024 |} |}.

(** [{ ...defaultConfig, ...config }] *)
Definition finalConfig (config : PartialConfig) : ResponsiveConfig :=
  {| breakpoints := default (breakpoints defaultConfig)
                            (with_breakpoints config);
     deviceBreakpoints := default (deviceBreakpoints defaultConfig)
                                  (with_deviceBreakpoints config) |}.

Definition deviceType (config : PartialConfig) (width : Z) : DeviceType :=
  if (width <? below_mobile (deviceBreakpoints (finalConfig config)))%Z
  then mobile
  else if (width <? below_tablet (deviceBreakpoints (finalConfig config)))%Z
  then tablet
  else desktop.

(** The object [breakpoints] of the result. *)
Record Reached := {
  at_xs : bool; at_sm : bool; at_md : bool; at_lg : bool; at_xl : bool;
  at_xxl : bool;
}.

Definition reached (config : PartialConfig) (width : Z) : Reached :=
  let b := breakpoints (finalConfig config) in
  {| at_xs := (xs b <=? width)%Z; at_sm := (sm b <=? width)%Z;
     at_md := (md b <=? width)%Z; at_lg := (lg b <=? width)%Z;
     at_xl := (xl b <=? width)%Z; at_xxl := (xxl b <=? width)%Z |}.

Definition isTouchDevice (config : PartialConfig) (width : Z) : bool :=
  match deviceType config width with
  | mobile | tablet => true
  | desktop => false
  end.

(** [{ mobile?: T; tablet?: T; desktop?: T; default: T }] *)
Record Values (T : Type) := {
  for_mobile : option T;
  for_tablet : option T;
  for_desktop : option T;
  by_default : T;
}.
Arguments for_mobile {T}.
Arguments for_tablet {T}.
Arguments for_desktop {T}.
Arguments by_default {T}.

Definition getResponsiveValue {T} (config : PartialConfig) (width : Z)
  (values : Values T) : T :=
  match deviceType config width, for_mobile values, for_tablet values,
        for_desktop values with
  | mobile, Some v, _, _ => v
  | tablet, _, Some v, _ => v
  | desktop, _, _, Some v => v
  | _, _, _, _ => by_default values
  end.

(** The call [useResponsive()]. *)
Definition no_config : PartialConfig :=
  {| with_breakpoints := None; with_deviceBreakpoints := None |}.

End Responsive.

(** * Properties *)

Local Open Scope list_scope.

(** ** Facts about the array helpers *)

Lemma findIndex_Some {A} (p : A -> bool) (l : list A) (i : nat) :
  findIndex p l = Some i ->
  exists x, l !! i = Some x /\ p x = true /\
            forall j y, (j < i)%nat -> l !! j = Some y -> p y = false.
Proof.
  revert i. induction l as [|a l IH]; intros i H; cbn in H; [discriminate|].
  destruct (p a) eqn:Ha.
  - injection H as <-. exists a. repeat split; auto. intros j y Hj. lia.
  - destruct (findIndex p l) as [k|] eqn:Hk; [|discriminate].
    cbn in H. injection H as <-.
    destruct (IH k eq_refl) as (x & Hx & Hpx & Hbefore).
    exists x. repeat split; auto.
    intros [|j] y Hj Hy; cbn in Hy.
    + congruence.
    + apply (Hbefore j); [lia | exact Hy].
Qed.

Lemma findIndex_None {A} (p : A -> bool) (l : list A) :
  findIndex p l = None <-> (forall x, x ∈ l -> p x = false).
Proof.
  induction l as [|a l IH]; cbn.
  - split; [|reflexivity]. intros _ x Hx. inversion Hx.
  - destruct (p a) eqn:Ha.
    + split; [discriminate|]. intros H.
      specialize (H a (list_elem_of_here a l)). congruence.
    + destruct (findIndex p l) as [k|]; cbn.
      * split; [discriminate|]. intros H.
        assert (Some k = None) as Hk; [|discriminate].
        apply IH. intros x Hx. apply H. now apply list_elem_of_further.
      * split; [|reflexivity]. intros _ x Hx.
        apply elem_of_cons in Hx as [->|Hx]; [assumption|].
        now apply IH.
Qed.

Lemma findIndex_is_Some {A} (p : A -> bool) (l : list A) (x : A) :
  x ∈ l -> p x = true -> exists i, findIndex p l = Some i.
Proof.
  intros Hx Hp. destruct (findIndex p l) as [i|] eqn:H; [eauto|].
  rewrite findIndex_None in H. rewrite (H x Hx) in Hp. discriminate.
Qed.

Lemma elem_of_delete_other {A} (l : list A) (i : nat) (x y : A) :
  l !! i = Some y -> y <> x -> x ∈ l -> x ∈ delete i l.
Proof.
  revert i. induction l as [|a l IH]; intros i Hi Hne Hx; [inversion Hx|].
  destruct i as [|i]; cbn in *.
  - injection Hi as ->. apply elem_of_cons in Hx as [->|Hx]; [congruence|exact Hx].
  - apply elem_of_cons in Hx as [->|Hx]; apply elem_of_cons; [now left|right].
    now apply (IH i).
Qed.

Lemma existsb_elem_of {A} (p : A -> bool) (l : list A) :
  existsb p l = true <-> exists x, x ∈ l /\ p x = true.
Proof.
  rewrite existsb_exists. split; intros (x & Hx & Hp); exists x; split; auto;
    now apply list_elem_of_In.
Qed.

Lemma existsb_false_elem_of {A} (p : A -> bool) (l : list A) :
  existsb p l = false <-> forall x, x ∈ l -> p x = false.
Proof.
  split.
  - intros H x Hx. destruct (p x) eqn:Hp; [|reflexivity].
    rewrite <- H. symmetry. apply existsb_elem_of. eauto.
  - intros H. destruct (existsb p l) eqn:E; [|reflexivity].
    apply existsb_elem_of in E as (x & Hx & Hp). rewrite (H x Hx) in Hp.
    discriminate.
Qed.

(** ** The user service *)

Section UserServiceProperties.
Import UserTypes UserService.

Ltac step_method :=
  unfold try_catch, bind, gets, ret, throw, modify; cbn.

Lemma hasPermission_unauthenticated (p : Permission) (s : state) :
  currentUser s = None -> hasPermission p s = false.
Proof. unfold hasPermission. now intros ->. Qed.

(** C1: while the current principal lacks [canManageUsers] (in particular
    when nobody is signed in), [createUser], [updateUser] and [deleteUser]
    return the access-denied result, [getAllUsers] is rejected with the
    access-denied error, and the service state (the users array and every
    user object) is exactly what it was. *)
Theorem gated_methods_deny_without_permission
  (s : state) (now : Z) (userData : CreateUserRequest)
  (userId : string) (updateData : UpdateUserRequest) :
  (currentUser s = None -> hasPermission canManageUsers s = false) /\
  (hasPermission canManageUsers s = false ->
     createUser now userData s = (Return (failure access_denied), s) /\
     updateUser now userId updateData s = (Return (failure access_denied), s) /\
     deleteUser userId s = (Return (failure access_denied), s) /\
     getAllUsers s = (Throw access_denied, s)).
Proof.
  split; [apply hasPermission_unauthenticated|].
  intros H.
  unfold createUser, updateUser, deleteUser, getAllUsers.
  step_method. rewrite H. cbn. repeat split.
Qed.

Lemma gated_methods_deny_without_permission_witness :
  hasPermission canManageUsers Samples.manager_session = false /\
  createUser 0 Samples.new_seller Samples.manager_session
    = (Return (failure access_denied), Samples.manager_session) /\
  getAllUsers (initial 0) = (Throw access_denied, initial 0).
Proof.
  pose proof (gated_methods_deny_without_permission
                Samples.manager_session 0 Samples.new_seller "1"
                {| upd_name := None; upd_role := Some admin;
                   upd_isActive := None; upd_permissions := None |}) as [_ Hm].
  pose proof (gated_methods_deny_without_permission
                (initial 0) 0 Samples.new_seller "1"
                {| upd_name := None; upd_role := None;
                   upd_isActive := None; upd_permissions := None |}) as [Hn Hi].
  split; [reflexivity|].
  split; [apply Hm; reflexivity|].
  apply Hi, Hn. reflexivity.
Defined.

(** C2: for a principal with [canManageUsers], [createUser] with an email
    that some user of the list already has returns the failure
    "Email já está em uso" and changes nothing; with an email that no user of
    the list has it returns success and appends exactly one reference, to a
    new object that carries this email, leaving the earlier objects as
    they were. *)
Theorem createUser_rejects_duplicate_email
  (s : state) (now : Z) (userData : CreateUserRequest) :
  hasPermission canManageUsers s = true ->
  ((exists l, l ∈ users s /\ email (deref s l) = req_email userData) ->
     createUser now userData s
     = (Return (failure "Email já está em uso"), s)) /\
  ((forall l, l ∈ users s -> email (deref s l) <> req_email userData) ->
     let l := length (objects s) in
     createUser now userData s
     = (Return {| success := true; user := Some l; message := None |},
        {| objects := objects s
                      ++ [newUser now userData (length (users s))];
           users := users s ++ [l];
           currentUser := currentUser s |})
     /\ email (newUser now userData (length (users s)))
        = req_email userData).
Proof.
  intros Hperm. split.
  - intros (l & Hl & He).
    unfold createUser. step_method. rewrite Hperm. cbn.
    assert (existsb (fun l0 => String.eqb (email (deref s l0))
                                          (req_email userData)) (users s)
            = true) as ->; [|reflexivity].
    apply existsb_elem_of. exists l. split; [assumption|].
    now apply String.eqb_eq.
  - intros Hnone l. split; [|reflexivity].
    unfold createUser. step_method. rewrite Hperm. cbn.
    assert (existsb (fun l0 => String.eqb (email (deref s l0))
                                          (req_email userData)) (users s)
            = false) as ->; [|reflexivity].
    apply existsb_false_elem_of. intros x Hx.
    apply String.eqb_neq. now apply Hnone.
Qed.

Lemma createUser_rejects_duplicate_email_witness :
  createUser 9 Samples.second_manager Samples.admin_session
  = (Return (failure "Email já está em uso"), Samples.admin_session)
  /\ fst (createUser 9 Samples.new_seller Samples.admin_session)
     = Return {| success := true; user := Some 2%nat; message := None |}.
Proof.
  split.
  - apply (createUser_rejects_duplicate_email Samples.admin_session 9
             Samples.second_manager); [reflexivity|].
    exists 1%nat. split; [|reflexivity].
    apply list_elem_of_In. cbn. auto.
  - destruct (createUser_rejects_duplicate_email Samples.admin_session 9
                Samples.new_seller eq_refl) as [_ H].
    destruct H as [-> _]; [|reflexivity].
    intros l Hl. apply list_elem_of_In in Hl. cbn in Hl.
    destruct Hl as [<-|[<-|[]]]; vm_compute; discriminate.
Defined.

(** [deleteUser] never changes who is signed in and never removes the
    signed-in user from the array. *)
Lemma deleteUser_never_deletes_current_user_aux (s : state) (userId : string) :
  currentUser (snd (deleteUser userId s)) = currentUser s /\
  (forall l, currentUser s = Some l -> l ∈ users s ->
             l ∈ users (snd (deleteUser userId s))).
Proof.
  unfold deleteUser. step_method.
  destruct (hasPermission canManageUsers s); cbn; [|now split].
  destruct (currentUser s) as [c|] eqn:Hcur.
  - destruct (String.eqb (id (deref s c)) userId) eqn:Hown; cbn; [now split|].
    destruct (findIndex _ (users s)) as [i|] eqn:Hi; cbn; [|now split].
    split; [congruence|]. intros l Hsigned Hl.
    assert (l = c) as -> by congruence.
    destruct (findIndex_Some _ _ _ Hi) as (l' & Hl' & Hid & _).
    apply (elem_of_delete_other _ _ _ l' Hl'); [|exact Hl].
    intros ->. congruence.
  - cbn. destruct (findIndex _ (users s)); cbn; split; try congruence;
      intros l Hsigned; congruence.
Qed.

(** C10, as the code has it: [deleteUser] with the identifier of the signed-in
    user fails and changes nothing; the message is the cannot-delete-own-user
    one when that user holds [canManageUsers], and the access-denied one
    when they do not (the permission is checked first).  Whatever identifier
    is asked for, the signed-in user stays signed in and stays in the list. *)
Theorem deleteUser_never_deletes_current_user (s : state) (l : loc) :
  currentUser s = Some l ->
  deleteUser (id (deref s l)) s
  = (Return (failure (if hasPermission canManageUsers s
                      then cannot_delete_self else access_denied)), s) /\
  (forall userId,
      currentUser (snd (deleteUser userId s)) = Some l /\
      (l ∈ users s -> l ∈ users (snd (deleteUser userId s)))).
Proof.
  intros Hcur. split.
  - unfold deleteUser. step_method.
    destruct (hasPermission canManageUsers s); cbn; [|reflexivity].
    rewrite Hcur, String.eqb_refl. reflexivity.
  - intros userId.
    destruct (deleteUser_never_deletes_current_user_aux s userId)
      as [Hsame Hstay].
    split; [now rewrite Hsame|]. now apply Hstay.
Qed.

Lemma deleteUser_never_deletes_current_user_witness :
  deleteUser "1" Samples.admin_session
  = (Return (failure cannot_delete_self), Samples.admin_session).
Proof.
  exact (proj1 (deleteUser_never_deletes_current_user Samples.admin_session
                  0%nat eq_refl)).
Defined.

(** C10 as stated fails: the manager is signed in, asks to delete their own
    identifier, and the message is the access-denied one. *)
Lemma deleteUser_own_id_message_counterexample :
  currentUser Samples.manager_session = Some 1%nat /\
  id (deref Samples.manager_session 1%nat) = "2" /\
  deleteUser "2" Samples.manager_session
  = (Return (failure access_denied), Samples.manager_session) /\
  deleteUser "2" Samples.manager_session
  <> (Return (failure cannot_delete_self), Samples.manager_session).
Proof. repeat split. vm_compute. discriminate. Qed.

(** The references of the service never dangle: the invariant [wf] holds
    at construction and every method keeps it. *)
Lemma wf_initial (boot : Z) : wf (initial boot).
Proof.
  split.
  - repeat constructor.
  - discriminate.
Qed.

Lemma wf_mutate (l : loc) (f : User -> User) (s : state) :
  wf s -> wf (mutate l f s).
Proof.
  intros [Hrefs Hcur]. split; cbn; [|exact Hcur].
  now rewrite length_alter.
Qed.

Lemma wf_set_currentUser (l : loc) (s : state) :
  wf s -> l ∈ users s -> wf (set_currentUser (Some l) s).
Proof.
  intros [Hrefs _] Hl. split; cbn; [exact Hrefs|].
  now intros l' [= <-].
Qed.

Lemma findIndex_lookup_total (p : loc -> bool) (ls : list loc) (i : nat) :
  findIndex p ls = Some i -> ls !!! i ∈ ls.
Proof.
  intros Hi. destruct (findIndex_Some _ _ _ Hi) as (l & Hl & _).
  rewrite (list_lookup_total_correct _ _ _ Hl).
  apply list_elem_of_lookup. eauto.
Qed.

Lemma wf_preserved (s : state) :
  wf s ->
  (forall now e p, wf (snd (login now e p s))) /\
  wf (snd (logout s)) /\
  (forall now d, wf (snd (createUser now d s))) /\
  (forall now i d, wf (snd (updateUser now i d s))) /\
  (forall i, wf (snd (deleteUser i s))) /\
  (forall now n a, wf (snd (updateProfile now n a s))).
Proof.
  intros Hwf.
  split; [|split; [|split; [|split; [|split]]]].
  - intros now e p. unfold login. step_method.
    destruct (List.find _ (users s)) as [l|] eqn:Hfind; cbn; [|exact Hwf].
    repeat (match goal with
            | |- context [if ?b then _ else _] => destruct b
            end; cbn; try exact Hwf).
    apply (wf_set_currentUser l (mutate l _ s)); [now apply wf_mutate|].
    apply list_elem_of_In. now apply (find_some _ _ Hfind).
  - split; [apply Hwf|discriminate].
  - intros now d. unfold createUser, push_new. step_method.
    destruct (hasPermission canManageUsers s); cbn; [|exact Hwf].
    destruct (existsb _ (users s)); cbn; [exact Hwf|].
    split; cbn.
    + apply Forall_app. split.
      * eapply Forall_impl; [apply Hwf|]. cbn. intros l Hl.
        rewrite length_app. cbn. lia.
      * constructor; [|constructor]. rewrite length_app. cbn. lia.
    + intros l Hl. apply elem_of_app. left. now apply Hwf.
  - intros now i d. unfold updateUser. step_method.
    destruct (hasPermission canManageUsers s); cbn; [|exact Hwf].
    destruct (findIndex _ (users s)); cbn; [|exact Hwf].
    now apply wf_mutate.
  - intros i. split.
    + unfold deleteUser. step_method.
      destruct (hasPermission canManageUsers s); cbn; [|apply Hwf].
      destruct (match currentUser s with Some _ => _ | None => _ end); cbn;
        [apply Hwf|].
      destruct (findIndex _ (users s)); cbn; [|apply Hwf].
      apply Forall_delete, Hwf.
    + intros l Hl.
      destruct (deleteUser_never_deletes_current_user_aux s i) as [Hsame Hstay].
      rewrite Hsame in Hl. apply (Hstay l Hl). now apply Hwf.
  - intros now n a. unfold updateProfile. step_method.
    destruct (currentUser s) as [c|] eqn:Hc; cbn; [|exact Hwf].
    destruct (findIndex _ (users s)) as [k|] eqn:Hk; cbn; [|exact Hwf].
    apply (wf_set_currentUser _ (mutate _ _ s)); [now apply wf_mutate|].
    now apply (findIndex_lookup_total _ _ _ Hk).
Qed.

End UserServiceProperties.

(** ** The notification service *)

Section NotificationServiceProperties.
Import NotificationTypes NotificationService.

Variable Number : string -> float.

Ltac step_method :=
  unfold try_catch, bind, gets, ret, throw, modify; cbn.

(** C3: [markAllAsRead] returns, and afterwards every stored notification
    has [read = true] and [getUnreadNotifications] is empty (length zero);
    the list is the earlier one with the flags set. *)
Theorem markAllAsRead_marks_every_notification (s : state) :
  exists s',
    markAllAsRead s = (Return tt, s') /\
    notifications s' = set_read true <$> notifications s /\
    Forall (fun n => read n = true) (notifications s') /\
    length (getUnreadNotifications s') = 0%nat.
Proof.
  eexists. split; [reflexivity|]. cbn.
  split; [reflexivity|].
  assert (Forall (fun n => read n = true) (set_read true <$> notifications s))
    as Hall.
  { apply Forall_fmap, Forall_true. reflexivity. }
  split; [exact Hall|].
  unfold getUnreadNotifications. cbn.
  induction Hall as [|n l Hn _ IH]; cbn; [reflexivity|].
  rewrite Hn. exact IH.
Qed.

(** *** Calls of the listeners *)

Lemma call_listener_run (n : Notification) (l : listener) (s : state) :
  call_listener n l s
  = (match callbacks s l n with Some e => Throw e | None => Return tt end,
     set_delivered (delivered s ++ [(l, n)]) s).
Proof.
  unfold call_listener, bind, modify, gets, throw, ret. cbn.
  now destruct (callbacks s l n).
Qed.

(** Either no callback of the list throws, or there is a first one that
    does. *)
Lemma first_thrower (cb : listener -> option string) (ls : list listener) :
  (forall l, l ∈ ls -> cb l = None) \/
  (exists before l after e,
      ls = before ++ l :: after /\
      (forall l', l' ∈ before -> cb l' = None) /\ cb l = Some e).
Proof.
  induction ls as [|a ls IH].
  - left. intros l Hl. inversion Hl.
  - destruct (cb a) as [e|] eqn:Ha.
    + right. exists [], a, ls, e. split; [reflexivity|].
      split; [|exact Ha]. intros l' Hl'. inversion Hl'.
    + destruct IH as [Hall|(before & l & after & e & -> & Hbefore & Hl)].
      * left. intros l Hl. apply elem_of_cons in Hl as [->|Hl]; auto.
      * right. exists (a :: before), l, after, e. split; [reflexivity|].
        split; [|exact Hl].
        intros l' Hl'. apply elem_of_cons in Hl' as [->|Hl']; auto.
Qed.

(** The first callback that throws is determined by the list. *)
Lemma first_thrower_unique (cb : listener -> option string)
  (before : list listener) :
  forall (l : listener) (after before' : list listener) (l' : listener)
         (after' : list listener) (e e' : string),
    before ++ l :: after = before' ++ l' :: after' ->
    (forall x, x ∈ before -> cb x = None) -> cb l = Some e ->
    (forall x, x ∈ before' -> cb x = None) -> cb l' = Some e' ->
    before' = before /\ l' = l /\ e' = e.
Proof.
  induction before as [|a before IH];
    intros l after [|a' before'] l' after' e e' Heq Hb Hl Hb' Hl'.
  - cbn in Heq. injection Heq as -> _. split; [reflexivity|].
    split; [reflexivity|congruence].
  - cbn in Heq. injection Heq as -> _.
    rewrite (Hb' _ (list_elem_of_here _ _)) in Hl. discriminate.
  - cbn in Heq. injection Heq as -> _.
    rewrite (Hb _ (list_elem_of_here _ _)) in Hl'. discriminate.
  - cbn in Heq. injection Heq as -> Heq.
    destruct (IH l after before' l' after' e e' Heq
                 (fun x Hx => Hb x (list_elem_of_further _ _ _ Hx)) Hl
                 (fun x Hx => Hb' x (list_elem_of_further _ _ _ Hx)) Hl')
      as (-> & -> & ->).
    repeat split.
Qed.

Lemma forEach_listeners_return (n : Notification) (ls : list listener) :
  forall s,
    (forall l, l ∈ ls -> callbacks s l n = None) ->
    forEach (call_listener n) ls s
    = (Return tt,
       set_delivered (delivered s ++ ((fun l => (l, n)) <$> ls)) s).
Proof.
  induction ls as [|a ls IH]; intros s Hall.
  - cbn. unfold ret. rewrite app_nil_r. now destruct s.
  - cbn [forEach]. unfold bind. rewrite call_listener_run.
    rewrite (Hall a (list_elem_of_here a ls)).
    rewrite IH.
    + cbn. unfold set_delivered. cbn. now rewrite <- app_assoc.
    + intros l Hl. cbn. apply Hall. now right.
Qed.

Lemma forEach_listener_throws (n : Notification) (before : list listener)
  (l : listener) (after : list listener) (e : string) :
  forall s,
    (forall l', l' ∈ before -> callbacks s l' n = None) ->
    callbacks s l n = Some e ->
    forEach (call_listener n) (before ++ l :: after) s
    = (Throw e,
       set_delivered
         (delivered s ++ ((fun l => (l, n)) <$> before ++ [l])) s).
Proof.
  induction before as [|a before IH]; intros s Hbefore Hl.
  - cbn [app forEach]. unfold bind. rewrite call_listener_run, Hl.
    reflexivity.
  - cbn [app forEach]. unfold bind. rewrite call_listener_run.
    rewrite (Hbefore a (list_elem_of_here a before)).
    rewrite IH.
    + cbn. unfold set_delivered. cbn. now rewrite <- app_assoc.
    + intros l' Hl'. cbn. apply Hbefore. now right.
    + exact Hl.
Qed.

(** What a round of calls leaves: the calls made, to the listeners in
    order, up to the end of the list or to the first callback that
    throws. *)
Lemma notify_listeners_frame (n : Notification) (s : state) :
  exists r called,
    notify_listeners n s
    = (r, set_delivered (delivered s ++ ((fun l => (l, n)) <$> called)) s) /\
    called `prefix_of` listeners s /\
    (r = Return tt -> called = listeners s) /\
    ((forall l, l ∈ listeners s -> callbacks s l n = None) ->
     r = Return tt) /\
    (forall e, r = Throw e ->
               exists l, l ∈ listeners s /\ callbacks s l n = Some e).
Proof.
  unfold notify_listeners, bind, gets.
  destruct (first_thrower (fun l => callbacks s l n) (listeners s))
    as [Hall|(before & l & after & e & Hls & Hbefore & Hl)].
  - exists (Return tt), (listeners s).
    split; [now apply forEach_listeners_return|].
    split; [reflexivity|]. split; [reflexivity|].
    split; [reflexivity|discriminate].
  - exists (Throw e), (before ++ [l]). rewrite Hls.
    split; [now apply forEach_listener_throws|].
    split; [exists after; now rewrite <- app_assoc|].
    split; [discriminate|]. split.
    + intros Hall. rewrite Hall in Hl; [discriminate|].
      apply elem_of_app. right. left.
    + intros e' [= <-]. exists l. split; [|exact Hl].
      apply elem_of_app. right. left.
Qed.

(** *** The queue *)

(** One turn of the [forEach] of [processQueue]. *)
Lemma deliver_queued_frame (n : Notification) (s : state) :
  exists r called,
    deliver_queued n s
    = (r, set_delivered (delivered s ++ ((fun l => (l, n)) <$> called))
            (set_notifications (n :: notifications s) s)) /\
    called `prefix_of` listeners s /\
    (r = Return tt -> called = listeners s) /\
    (listeners_return s -> r = Return tt) /\
    (forall e, r = Throw e ->
               exists l, l ∈ listeners s /\ callbacks s l n = Some e).
Proof.
  unfold deliver_queued, bind, modify. cbn.
  destruct (notify_listeners_frame n
              (set_notifications (n :: notifications s) s))
    as (r & called & Hrun & Hprefix & Hall & Hret & Hthrow).
  exists r, called. split; [exact Hrun|]. split; [exact Hprefix|].
  split; [exact Hall|]. split; [|exact Hthrow].
  intros Hquiet. apply Hret. intros l Hl. now apply Hquiet.
Qed.

(** The [forEach] of [processQueue] when no callback throws: each queued
    notification is put in front of the list and handed to every listener,
    in queue order. *)
Lemma forEach_deliver_queued (q : list Notification) (s : state) :
  listeners_return s ->
  forEach deliver_queued q s
  = (Return tt,
     {| notifications := rev q ++ notifications s;
        settings := settings s; listeners := listeners s;
        queue := queue s; audio := audio s;
        stored_notifications := stored_notifications s;
        stored_settings := stored_settings s;
        delivered :=
          delivered s
          ++ mjoin ((fun n => (fun l => (l, n)) <$> listeners s) <$> q);
        sounds := sounds s;
        callbacks := callbacks s |}).
Proof.
  revert s. induction q as [|n q IH]; intros s Hquiet.
  - cbn. unfold ret. cbn. rewrite app_nil_r. now destruct s.
  - cbn [forEach]. unfold bind at 1.
    destruct (deliver_queued_frame n s)
      as (r & called & Hrun & _ & Hall & Hret & _).
    rewrite Hrun, (Hret Hquiet), (Hall (Hret Hquiet)).
    rewrite IH; [|exact Hquiet].
    cbn. rewrite <- !app_assoc. reflexivity.
Qed.

(** The same [forEach] in general: a number of queued notifications, all
    of them unless a callback throws, are put in front of the list, and
    every call made goes to a subscribed listener. *)
Lemma forEach_deliver_queued_frame (q : list Notification) :
  forall s,
  exists r k calls,
    forEach deliver_queued q s
    = (r, set_delivered (delivered s ++ calls)
            (set_notifications (rev (take k q) ++ notifications s) s)) /\
    (k <= length q)%nat /\
    (r = Return tt -> k = length q) /\
    (listeners_return s -> r = Return tt) /\
    Forall (fun c => fst c ∈ listeners s) calls /\
    (forall e, r = Throw e ->
               (0 < k)%nat /\
               exists l n, l ∈ listeners s /\ n ∈ q /\
                           callbacks s l n = Some e).
Proof.
  induction q as [|n q IH]; intros s.
  - exists (Return tt), 0%nat, []. cbn. unfold ret.
    split; [rewrite app_nil_r; now destruct s|].
    repeat split; auto; discriminate.
  - cbn [forEach]. unfold bind at 1.
    destruct (deliver_queued_frame n s)
      as (r & called & Hrun & Hprefix & Hall & Hret & Hthrow).
    rewrite Hrun.
    assert (Forall (fun c : listener * Notification => fst c ∈ listeners s)
                   ((fun l => (l, n)) <$> called)) as Hcalled.
    { apply Forall_fmap, Forall_forall. intros l Hl. cbn.
      destruct Hprefix as [rest ->]. apply elem_of_app. now left. }
    destruct r as [[]|e].
    + destruct (IH (set_delivered
                      (delivered s ++ ((fun l => (l, n)) <$> called))
                      (set_notifications (n :: notifications s) s)))
        as (r' & k & calls & Hrest & Hk & Hdone & Hret' & Hcalls & Hthrow').
      rewrite Hrest.
      exists r', (S k), (((fun l => (l, n)) <$> called) ++ calls).
      split.
      { cbn. unfold set_delivered, set_notifications. cbn.
        now rewrite <- !app_assoc. }
      split; [cbn; lia|].
      split; [intros Hr; cbn; now rewrite (Hdone Hr)|].
      split; [exact Hret'|].
      split; [apply Forall_app; split; [exact Hcalled|exact Hcalls]|].
      intros e He. split; [lia|].
      destruct (Hthrow' e He) as (_ & l & m & Hl & Hm & Hcb).
      exists l, m. split; [exact Hl|]. split; [now right|exact Hcb].
    + exists (Throw e), 1%nat, ((fun l => (l, n)) <$> called).
      split; [reflexivity|]. split; [cbn; lia|].
      split; [discriminate|].
      split; [intros Hquiet; now specialize (Hret Hquiet)|].
      split; [exact Hcalled|].
      intros e' He'. split; [lia|].
      destruct (Hthrow e' He') as (l & Hl & Hcb).
      exists l, n. split; [exact Hl|]. split; [left|exact Hcb].
Qed.

Lemma processQueue_flushes (s : state) :
  listeners_return s ->
  exists s',
    processQueue s = (Return tt, s') /\
    notifications s' = rev (queue s) ++ notifications s /\
    queue s' = [] /\
    delivered s'
    = delivered s
      ++ mjoin ((fun n => (fun l => (l, n)) <$> listeners s) <$> queue s) /\
    stored_notifications s' = Some (notifications s').
Proof.
  intros Hquiet. unfold processQueue. step_method.
  rewrite forEach_deliver_queued; [|exact Hquiet]. cbn.
  eexists. split; [reflexivity|]. cbn. repeat split.
Qed.

(** [processQueue] in general: the queue is emptied at once; a number of
    the queued notifications, all of them unless a callback throws, are
    put in front of the list; the list is persisted when the loop comes
    to its end. *)
Lemma processQueue_frame (s : state) :
  exists r s' k calls,
    processQueue s = (r, s') /\
    queue s' = [] /\
    (k <= length (queue s))%nat /\
    notifications s' = rev (take k (queue s)) ++ notifications s /\
    listeners s' = listeners s /\
    callbacks s' = callbacks s /\
    delivered s' = delivered s ++ calls /\
    Forall (fun c => fst c ∈ listeners s) calls /\
    (r = Return tt ->
     k = length (queue s) /\
     stored_notifications s' = Some (notifications s')) /\
    (forall e, r = Throw e ->
               (0 < k)%nat /\
               stored_notifications s' = stored_notifications s /\
               exists l n, l ∈ listeners s /\ n ∈ queue s /\
                           callbacks s l n = Some e).
Proof.
  unfold processQueue. unfold bind at 1. unfold gets at 1.
  unfold bind at 1. unfold modify at 1. unfold bind at 1.
  destruct (forEach_deliver_queued_frame (queue s) (set_queue [] s))
    as (r & k & calls & Hrun & Hk & Hdone & _ & Hcalls & Hthrow).
  rewrite Hrun. destruct r as [[]|e].
  - unfold saveData, modify. cbn.
    eexists _, _, k, calls. split; [reflexivity|]. cbn.
    repeat split; try assumption; try discriminate.
    now apply Hdone.
  - eexists _, _, k, calls. split; [reflexivity|]. cbn.
    split; [reflexivity|]. split; [exact Hk|]. split; [reflexivity|].
    split; [reflexivity|]. split; [reflexivity|]. split; [reflexivity|].
    split; [exact Hcalls|]. split; [discriminate|].
    intros e' He'. destruct (Hthrow e' He') as (Hpos & l & n & Hl & Hn & Hcb).
    split; [exact Hpos|]. split; [reflexivity|].
    exists l, n. repeat split; assumption.
Qed.

(** *** The delivery path of [addNotification] *)

(** The new notification goes in front, the list is cut back to its first
    thousand entries and persisted, a sound is played when asked for, and
    the listeners are called. *)
Lemma addNotification_delivery (now : Clock) (rnd : string)
  (n : NotificationInput) (s : state) :
  category_enabled (in_category n) s = true ->
  isQuietHours Number now s = false ->
  exists r called s',
    addNotification Number now rnd n s = (r, s') /\
    notifications s' = take 1000 (fullNotification now rnd n :: notifications s) /\
    queue s' = queue s /\ listeners s' = listeners s /\
    settings s' = settings s /\ callbacks s' = callbacks s /\
    stored_notifications s' = Some (notifications s') /\
    delivered s'
    = delivered s ++ ((fun l => (l, fullNotification now rnd n)) <$> called) /\
    sounds s'
    = (if sound_enabled (in_category n) s && audio s
       then S (sounds s) else sounds s) /\
    called `prefix_of` listeners s /\
    (r = Return (fresh_id now rnd) /\ called = listeners s /\
     (forall l, l ∈ listeners s ->
                callbacks s l (fullNotification now rnd n) = None) \/
     exists before l after e,
       listeners s = before ++ l :: after /\
       (forall l', l' ∈ before ->
                   callbacks s l' (fullNotification now rnd n) = None) /\
       callbacks s l (fullNotification now rnd n) = Some e /\
       r = Throw e /\ called = before ++ [l]) /\
    ((forall l, l ∈ listeners s ->
                callbacks s l (fullNotification now rnd n) = None) ->
     r = Return (fresh_id now rnd) /\ called = listeners s).
Proof.
  intros Hen Hq. unfold addNotification.
  unfold bind at 1. unfold gets at 1. rewrite Hen. cbn [negb].
  unfold bind at 1. unfold gets at 1. rewrite Hq.
  unfold bind at 1. unfold modify at 1.
  unfold bind at 1. unfold gets at 1.
  set (full := fullNotification now rnd n).
  set (s1 := set_notifications (full :: notifications s) s).
  unfold bind at 1.
  set (s2 := set_notifications (take 1000 (full :: notifications s)) s).
  assert ((if (1000 <? length (notifications s1))%nat
           then modify (fun s => set_notifications
                                   (take 1000 (notifications s)) s)
           else ret tt) s1 = (Return tt, s2)) as ->.
  { unfold s1, s2. cbn [notifications set_notifications].
    destruct (1000 <? length (full :: notifications s))%nat eqn:Hlen.
    - reflexivity.
    - unfold ret. f_equal. unfold set_notifications. f_equal.
      apply Nat.ltb_ge in Hlen. symmetry. now apply take_ge. }
  unfold bind at 1. unfold saveData at 1. unfold modify at 1.
  set (s3 := {| notifications := notifications s2 |}).
  unfold bind at 1. unfold gets at 1.
  change (sound_enabled (in_category n) s3)
    with (sound_enabled (in_category n) s).
  unfold bind at 1.
  set (s4 := if sound_enabled (in_category n) s && audio s
             then {| notifications := notifications s3;
                     settings := settings s3; listeners := listeners s3;
                     queue := queue s3; audio := audio s3;
                     stored_notifications := stored_notifications s3;
                     stored_settings := stored_settings s3;
                     delivered := delivered s3; sounds := S (sounds s3);
                     callbacks := callbacks s3 |}
             else s3).
  assert ((if sound_enabled (in_category n) s
           then playNotificationSound else ret tt) s3 = (Return tt, s4)) as ->.
  { unfold s4, playNotificationSound, modify, ret.
    destruct (sound_enabled (in_category n) s); [|reflexivity].
    change (audio s3) with (audio s). now destruct (audio s). }
  assert (notifications s4 = take 1000 (full :: notifications s) /\
          queue s4 = queue s /\ listeners s4 = listeners s /\
          settings s4 = settings s /\ callbacks s4 = callbacks s /\
          stored_notifications s4 = Some (notifications s4) /\
          delivered s4 = delivered s /\
          sounds s4 = (if sound_enabled (in_category n) s && audio s
                       then S (sounds s) else sounds s)) as Hs4.
  { unfold s4. destruct (sound_enabled (in_category n) s && audio s);
      repeat split. }
  destruct Hs4 as (Hn4 & Hq4 & Hl4 & Hst4 & Hcb4 & Hsto4 & Hd4 & Hso4).
  clearbody s4. clear s3 s2 s1.
  unfold bind at 1. unfold notify_listeners, bind, gets.
  rewrite Hl4.
  destruct (first_thrower (fun l => callbacks s l full) (listeners s))
    as [Hall|(before & l & after & e & Hls & Hbefore & Hl)].
  - rewrite forEach_listeners_return;
      [|intros l Hl; rewrite Hcb4; now apply Hall].
    unfold ret. exists (Return (fresh_id now rnd)), (listeners s).
    eexists. split; [reflexivity|]. cbn. rewrite Hd4.
    split; [exact Hn4|]. split; [exact Hq4|]. split; [exact Hl4|].
    split; [exact Hst4|]. split; [exact Hcb4|]. split; [exact Hsto4|].
    split; [reflexivity|]. split; [exact Hso4|]. split; [reflexivity|].
    split; [left; repeat split; exact Hall|]. now split.
  - rewrite Hls. rewrite (forEach_listener_throws full before l after e);
      [|intros l' Hl'; rewrite Hcb4; now apply Hbefore
       |rewrite Hcb4; exact Hl].
    exists (Throw e), (before ++ [l]). eexists. split; [reflexivity|]. cbn.
    rewrite Hd4.
    split; [exact Hn4|]. split; [exact Hq4|].
    split; [now rewrite Hl4, Hls|].
    split; [exact Hst4|]. split; [exact Hcb4|]. split; [exact Hsto4|].
    split; [reflexivity|]. split; [exact Hso4|].
    split; [exists after; now rewrite <- app_assoc|].
    split.
    + right. exists before, l, after, e. repeat split; assumption.
    + intros Hall. exfalso. rewrite Hall in Hl; [discriminate|].
      apply elem_of_app. right. left.
Qed.

(** [addNotification] keeps the list within the cap. *)
Lemma addNotification_keeps_cap (now : Clock) (rnd : string)
  (n : NotificationInput) (s : state) :
  (length (notifications s) <= 1000)%nat ->
  (length (notifications (snd (addNotification Number now rnd n s))) <= 1000)%nat.
Proof.
  intros Hcap.
  destruct (category_enabled (in_category n) s) eqn:Hen.
  - destruct (isQuietHours Number now s) eqn:Hq.
    + unfold addNotification. step_method. rewrite Hen. cbn. rewrite Hq. cbn.
      exact Hcap.
    + destruct (addNotification_delivery now rnd n s Hen Hq)
        as (r & called & s' & Hrun & Hn & _).
      rewrite Hrun. cbn [snd]. rewrite Hn, length_take. lia.
  - unfold addNotification. step_method. rewrite Hen. cbn. exact Hcap.
Qed.

(** No other public method takes a notification out of the queue. *)
Lemma queue_kept_by_other_methods (s : state) :
  (forall i, queue (snd (markAsRead i s)) = queue s) /\
  queue (snd (markAllAsRead s)) = queue s /\
  (forall i, queue (snd (deleteNotification i s)) = queue s) /\
  queue (snd (clearAll s)) = queue s /\
  (forall now u, queue (snd (updateSettings now u s)) = queue s) /\
  (forall l, queue (snd (subscribe l s)) = queue s) /\
  (forall now rnd n,
      exists more,
        queue (snd (addNotification Number now rnd n s)) = queue s ++ more).
Proof.
  repeat split.
  - intros i. unfold markAsRead. step_method.
    destruct (findIndex _ _) as [k|]; cbn; [|reflexivity].
    destruct (notifications s !! k) as [n|]; [destruct (read n)|];
      reflexivity.
  - intros i. unfold deleteNotification. step_method.
    now destruct (findIndex _ _).
  - intros now u. unfold updateSettings. step_method.
    now destruct (settings s).
  - intros l. unfold subscribe, modify. cbn. now destruct (bool_decide _).
  - intros now rnd n.
    destruct (category_enabled (in_category n) s) eqn:Hen.
    + destruct (isQuietHours Number now s) eqn:Hq.
      * exists [fullNotification now rnd n].
        unfold addNotification. step_method. rewrite Hen. cbn.
        now rewrite Hq.
      * destruct (addNotification_delivery now rnd n s Hen Hq)
          as (r & called & s' & Hrun & _ & Hqueue & _).
        exists []. rewrite app_nil_r, Hrun. exact Hqueue.
    + exists []. unfold addNotification. step_method. rewrite Hen.
      cbn. now rewrite app_nil_r.
Qed.


End NotificationServiceProperties.


(** C8 fails on [processQueue]: a thousand notifications are stored and one is
    queued (a state reached from a fresh service through the public methods),
    and after [processQueue] the list holds a thousand and one. *)
Theorem processQueue_exceeds_cap :
  length (NotificationService.notifications Samples.full_house) = 1000%nat /\
  length (NotificationService.queue Samples.full_house) = 1%nat /\
  exists s',
    NotificationService.processQueue Samples.full_house = (Return tt, s') /\
    length (NotificationService.notifications s') = 1001%nat.
Proof.
  split; [vm_compute; reflexivity|].
  split; [vm_compute; reflexivity|].
  destruct (processQueue_flushes Samples.full_house) as (s' & Hrun & Hn & _).
  { intros l n Hl. apply list_elem_of_In in Hl. vm_compute in Hl.
    destruct Hl. }
  exists s'. split; [exact Hrun|].
  rewrite Hn. vm_compute. reflexivity.
Qed.

(** ** The backup service *)

Section BackupServiceProperties.
Import BackupTypes BackupService BackupQueries.

Ltac step_method :=
  unfold try_catch, bind, gets, ret, throw, modify; cbn.

(** *** Writes to the storage *)

(** [saveData] either writes both entries or is ended by the exception of
    the write that the storage refuses. *)
Lemma saveData_run (s : state) :
  saveData s = match save_error s with
               | Some e => (Throw e, unsaved s)
               | None => (Return tt, saved s)
               end.
Proof.
  destruct s as [os bs cs ros sb sc rv st].
  unfold saveData, bind, setItem, save_error, unsaved, saved. cbn.
  destruct st as [|[e|] [|[e'|] st]]; reflexivity.
Qed.

Lemma save_error_accepting (s : state) : accepting s -> save_error s = None.
Proof.
  unfold accepting, save_error. intros H.
  destruct (storage s) as [|[e|] st]; [reflexivity| |].
  - now apply Forall_cons in H as [? _].
  - apply Forall_cons in H as [_ H].
    destruct st as [|[e|] st]; [reflexivity| |reflexivity].
    now apply Forall_cons in H as [? _].
Qed.

Lemma save_error_refused (s : state) (e : string) :
  save_error s = Some e -> Some e ∈ take 2 (storage s).
Proof.
  unfold save_error. destruct (storage s) as [|[e1|] st].
  - discriminate.
  - intros [= ->]. cbn. left.
  - destruct st as [|[e2|] st]; try discriminate.
    intros [= ->]. cbn. right. left.
Qed.

Lemma refused_not_accepting (s : state) (e : string) :
  save_error s = Some e -> ~ accepting s.
Proof.
  intros He Hs. rewrite (save_error_accepting s Hs) in He. discriminate.
Qed.

Lemma saved_accepting (s : state) : accepting s -> accepting (saved s).
Proof. unfold accepting, saved. cbn. apply Forall_drop. Qed.

Lemma accepting_same_storage (s s' : state) :
  storage s' = storage s -> accepting s -> accepting s'.
Proof. unfold accepting. now intros ->. Qed.

(** C5, as the code has it: when the list holds an entry with identifier
    [X], [deleteBackup X] hands the object URL of the first such entry to
    [URL.revokeObjectURL] (when it has one) and removes exactly that entry
    from the list; it then persists the list and returns success when
    the storage takes the writes, and returns the failure ['Erro ao
    excluir backup'], the entry being removed and the URL revoked all the
    same, when the storage refuses one.  When no entry has identifier [X]
    it returns the failure ['Backup não encontrado'] and the state is what
    it was. *)
Theorem deleteBackup_removes_by_id (s : state) (X : string) :
  ((exists l, l ∈ backups s /\ id (deref s l) = X) ->
     exists i l r s',
       backups s !! i = Some l /\ id (deref s l) = X /\
       (forall j l', (j < i)%nat -> backups s !! j = Some l' ->
                     id (deref s l') <> X) /\
       deleteBackup X s = (Return r, s') /\
       objects s' = objects s /\
       backups s' = delete i (backups s) /\
       revoked s' = revoked s
                    ++ match downloadUrl (deref s l) with
                       | Some u => if truthy u then [u] else []
                       | None => []
                       end /\
       configs s' = configs s /\
       (r = {| success := true; backupId := None; message := None |} /\
        stored_backups s' = Some (deref s <$> delete i (backups s)) /\
        stored_configs s' = Some (configs s)
        \/
        r = failure "Erro ao excluir backup" /\
        stored_configs s' = stored_configs s /\
        exists e, Some e ∈ take 2 (storage s)) /\
       (accepting s ->
        r = {| success := true; backupId := None; message := None |}) /\
       (forall e rest,
           storage s = Some e :: rest ->
           r = failure "Erro ao excluir backup" /\
           stored_backups s' = stored_backups s) /\
       (forall e rest,
           storage s = None :: Some e :: rest ->
           r = failure "Erro ao excluir backup" /\
           stored_backups s' = Some (deref s <$> delete i (backups s)))) /\
  ((forall l, l ∈ backups s -> id (deref s l) <> X) ->
     deleteBackup X s = (Return (failure "Backup não encontrado"), s)).
Proof.
  split.
  - intros (l0 & Hl0 & Hid0).
    destruct (findIndex_is_Some
                (fun l => String.eqb (id (deref s l)) X) (backups s) l0 Hl0)
      as [i Hi]; [now apply String.eqb_eq|].
    destruct (findIndex_Some _ _ _ Hi) as (l & Hl & Hid & Hfirst).
    set (urls := match downloadUrl (deref s l) with
                 | Some u => if truthy u then [u] else []
                 | None => []
                 end).
    set (s1 := set_backups (delete i (backups s))
                 (set_revoked (revoked s ++ urls) s)).
    assert (deleteBackup X s
            = match save_error s1 with
              | Some _ => (Return (failure "Erro ao excluir backup"),
                           unsaved s1)
              | None => (Return {| success := true; backupId := None;
                                   message := None |}, saved s1)
              end) as Hrun.
    { unfold deleteBackup, try_catch. unfold bind at 1. unfold gets at 1.
      rewrite Hi. unfold bind at 1. unfold gets at 1.
      rewrite (list_lookup_total_correct _ _ _ Hl).
      assert (forall A (K : M state A),
                 (run match downloadUrl (deref s l) with
                      | Some u => if truthy u then revokeObjectURL u
                                  else ret tt
                      | None => ret tt
                      end;
                  run modify (fun s => set_backups (delete i (backups s)) s);
                  K) s = K s1) as ->.
      { intros A K. unfold s1, urls, bind, revokeObjectURL, modify, ret.
        destruct (downloadUrl (deref s l)) as [u|]; [destruct (truthy u)|];
          cbn; try reflexivity;
          rewrite app_nil_r; now destruct s. }
      unfold bind. rewrite saveData_run.
      now destruct (save_error s1). }
    exists i, l.
    destruct (save_error s1) as [e|] eqn:Hsave.
    + exists (failure "Erro ao excluir backup"), (unsaved s1).
      split; [exact Hl|]. split; [now apply String.eqb_eq|].
      split.
      { intros j l' Hj Hl'. apply String.eqb_neq. now apply (Hfirst j). }
      split; [exact Hrun|].
      assert (storage s1 = storage s) as Hst by reflexivity.
      unfold unsaved. rewrite Hst.
      split; [now destruct (storage s) as [|[?|] [|? ?]]|].
      split; [now destruct (storage s) as [|[?|] [|? ?]]|].
      split; [now destruct (storage s) as [|[?|] [|? ?]]|].
      split; [now destruct (storage s) as [|[?|] [|? ?]]|].
      split.
      { right. split; [reflexivity|].
        split; [now destruct (storage s) as [|[?|] [|? ?]]|].
        exists e. rewrite <- Hst. now apply save_error_refused. }
      split.
      { intros Hacc. exfalso. apply (refused_not_accepting s1 e Hsave).
        now apply (accepting_same_storage s). }
      split.
      * intros e' rest Hs. rewrite Hs. now split.
      * intros e' rest Hs. rewrite Hs. now split.
    + exists {| success := true; backupId := None; message := None |},
             (saved s1).
      split; [exact Hl|]. split; [now apply String.eqb_eq|].
      split.
      { intros j l' Hj Hl'. apply String.eqb_neq. now apply (Hfirst j). }
      split; [exact Hrun|].
      do 4 (split; [reflexivity|]).
      split; [left; now repeat split|].
      split; [reflexivity|].
      assert (storage s1 = storage s) as Hst by reflexivity.
      unfold save_error in Hsave. rewrite Hst in Hsave.
      split.
      * intros e' rest Hs. rewrite Hs in Hsave. discriminate.
      * intros e' rest Hs. rewrite Hs in Hsave. discriminate.
  - intros Hnone. unfold deleteBackup. step_method.
    assert (findIndex (fun l => String.eqb (id (deref s l)) X) (backups s)
            = None) as ->; [|reflexivity].
    apply findIndex_None. intros l Hl. apply String.eqb_neq. now apply Hnone.
Qed.

Lemma deleteBackup_removes_by_id_witness :
  (exists s',
      deleteBackup "backup_1767268800000_abcdefghi" Samples.after_backup
      = (Return {| success := true; backupId := None; message := None |}, s')
      /\ backups s' = []
      /\ revoked s' = ["blob:http://localhost/0f6c"]
      /\ stored_backups s' = Some [])
  /\ deleteBackup "backup_0" Samples.after_backup
     = (Return (failure "Backup não encontrado"), Samples.after_backup).
Proof.
  destruct (deleteBackup_removes_by_id Samples.after_backup
              "backup_1767268800000_abcdefghi") as [Hfound _].
  destruct (deleteBackup_removes_by_id Samples.after_backup "backup_0")
    as [_ Hmissing].
  split.
  - assert (exists l, l ∈ backups Samples.after_backup
                      /\ id (deref Samples.after_backup l)
                         = "backup_1767268800000_abcdefghi") as Hex.
    { exists 0%nat. split; [|reflexivity].
      apply list_elem_of_In. vm_compute. auto. }
    destruct (Hfound Hex)
      as (i & l & r & s' & Hl & _ & _ & Hrun & _ & Hbs & Hrv & _ & Hcases
          & Hacc & _).
    destruct i as [|i]; [|discriminate Hl]. injection Hl as <-.
    assert (r = {| success := true; backupId := None; message := None |})
      as Hr by (apply Hacc; unfold accepting; vm_compute; constructor).
    exists s'. split; [rewrite <- Hr; exact Hrun|]. split; [exact Hbs|].
    split; [exact Hrv|].
    destruct Hcases as [(_ & Hsb & _)|[Hr' _]]; [exact Hsb|].
    rewrite Hr in Hr'. discriminate Hr'.
  - apply Hmissing. intros l Hl. apply list_elem_of_In in Hl.
    vm_compute in Hl. destruct Hl as [<-|[]]. vm_compute. discriminate.
Defined.

(** C5 as stated fails: the list holds the backup, the storage is full,
    and [deleteBackup] returns failure with the backup removed from the
    list and its URL revoked, the stored copy of the list being what it
    was. *)
Lemma deleteBackup_storage_full_counterexample :
  (exists l, l ∈ backups Samples.full_storage
             /\ id (deref Samples.full_storage l)
                = "backup_1767268800000_abcdefghi") /\
  exists s',
    deleteBackup "backup_1767268800000_abcdefghi" Samples.full_storage
    = (Return {| success := false; backupId := None;
                 message := Some "Erro ao excluir backup" |}, s') /\
    backups Samples.full_storage = [0%nat] /\
    backups s' = [] /\
    revoked s' = ["blob:http://localhost/0f6c"] /\
    stored_backups s' = stored_backups Samples.full_storage /\
    length (default [] (stored_backups s')) = 1%nat.
Proof.
  split.
  - exists 0%nat. split; [|reflexivity]. apply list_elem_of_In. vm_compute.
    auto.
  - eexists. split; [vm_compute; reflexivity|]. repeat split.
Qed.

Lemma alter_alloc {A} (f : A -> A) (os : list A) (b : A) :
  alter f (length os) (os ++ [b]) = os ++ [f b].
Proof. induction os as [|o os IH]; cbn; [reflexivity|]. now rewrite IH. Qed.

Lemma lookup_alloc {A} `{Inhabited A} (os : list A) (b : A) :
  (os ++ [b]) !!! length os = b.
Proof. now apply list_lookup_total_middle. Qed.

(** A [saveData] that is ended by an exception leaves the arrays as they
    are. *)
Lemma unsaved_arrays (s : state) :
  objects (unsaved s) = objects s /\ backups (unsaved s) = backups s /\
  configs (unsaved s) = configs s /\
  restoreOperations (unsaved s) = restoreOperations s /\
  revoked (unsaved s) = revoked s.
Proof. unfold unsaved. now destruct (storage s) as [|[?|] [|? ?]]. Qed.

Lemma lift_saveData {A} (K : M world A) (w : world) :
  (run lift saveData; K) w
  = match save_error (svc w) with
    | Some e => (Throw e, {| svc := unsaved (svc w); observed := observed w |})
    | None => K {| svc := saved (svc w); observed := observed w |}
    end.
Proof.
  unfold bind, lift. rewrite saveData_run.
  now destruct (save_error (svc w)).
Qed.

Lemma lift_saveData_last (w : world) :
  lift saveData w
  = match save_error (svc w) with
    | Some e => (Throw e, {| svc := unsaved (svc w); observed := observed w |})
    | None => (Return tt, {| svc := saved (svc w); observed := observed w |})
    end.
Proof.
  unfold lift. rewrite saveData_run. now destruct (save_error (svc w)).
Qed.

Lemma lift_modify {A} (f : state -> state) (K : M world A) (w : world) :
  (run lift (modify f); K) w
  = K {| svc := f (svc w); observed := observed w |}.
Proof. reflexivity. Qed.

(** *** The retention sweep *)

Lemma filterM_retain (c : Z) (ls : list loc) :
  forall s,
    filterM (retain c) ls s
    = (Return (List.filter (fun l => negb (createdAt (deref s l) <? c)%Z) ls),
       set_revoked
         (revoked s ++ omap (fun l => stale_url c (deref s l)) ls) s).
Proof.
  induction ls as [|l ls IH]; intros s; cbn [filterM List.filter omap].
  - unfold ret. rewrite app_nil_r. now destruct s.
  - unfold bind at 1. unfold retain at 1, stale_url.
    unfold bind, gets, ret, modify, revokeObjectURL, deref. cbn.
    destruct (createdAt (objects s !!! l) <? c)%Z; cbn.
    + destruct (downloadUrl (objects s !!! l)) as [u|];
        [destruct (truthy u)|]; cbn; rewrite IH; unfold set_revoked, deref;
        cbn; try reflexivity.
      now rewrite <- app_assoc.
    + now rewrite IH.
Qed.

(** The retention sweep filters the list, revoking the URLs of the
    backups that it drops, then calls [saveData]. *)
Lemma cleanupOldBackups_sweep (c : Z) (s : state) :
  cleanupOldBackups c s = saveData (swept c s).
Proof.
  unfold cleanupOldBackups. unfold bind at 1. unfold gets at 1.
  unfold bind at 1. rewrite filterM_retain. reflexivity.
Qed.

(** *** A run of [createBackup], phase by phase *)

Lemma tracking_holding (s : state) (nb : BackupItem) (w : world) :
  tracking s nb w -> holding s nb w.
Proof.
  intros ((b & Hobj & Hbs & _ & Hid) & (s1 & rest & Hobs & Hs1) & Hall & _).
  split; [|split; [|exact Hall]].
  - exists b. now repeat split.
  - intros s1' Hhead. rewrite Hobs in Hhead. now injection Hhead as <-.
Qed.

Lemma tracking_start (s : state) (nb : BackupItem) :
  status nb = running ->
  let s0 := set_backups (length (objects s) :: backups s)
              (set_objects (objects s ++ [nb]) s) in
  let w1 := {| svc := saved s0; observed := [saved s0] |} in
  (forall A (K : loc -> M world A),
      (do backup <- lift (unshift_new nb); run lift saveData; run await;
       K backup) {| svc := s; observed := [] |}
      = match save_error s with
        | Some e => (Throw e, {| svc := unsaved s0; observed := [] |})
        | None => K (length (objects s)) w1
        end)
  /\ tracking s nb w1
  /\ holding s nb {| svc := unsaved s0; observed := [] |}.
Proof.
  intros Hrun s0 w1. split; [|split].
  - intros A K. unfold bind at 1. unfold lift at 1, unshift_new.
    cbn [svc observed]. fold s0. rewrite lift_saveData. cbn [svc observed].
    change (save_error s0) with (save_error s).
    now destruct (save_error s).
  - unfold tracking. cbn [svc observed]. split; [|split; [|split]].
    + exists nb. now repeat split.
    + exists (saved s0), []. repeat split. unfold deref. cbn.
      apply lookup_alloc.
    + constructor; [|constructor]. unfold deref. cbn.
      now rewrite lookup_alloc.
    + intros Hacc. apply saved_accepting. exact Hacc.
  - unfold holding. cbn [svc observed].
    destruct (unsaved_arrays s0) as (-> & -> & _).
    split; [|split; [|constructor]].
    + exists nb. now repeat split.
    + discriminate.
Qed.

Lemma tracking_turn (s : state) (nb : BackupItem) (p : Z) (w : world) :
  tracking s nb w ->
  exists out w',
    progress_turn (length (objects s)) p w = (out, w') /\
    (out = Return tt /\ tracking s nb w' \/
     exists e, out = Throw e /\ ~ accepting s /\ holding s nb w').
Proof.
  intros ((b & Hobj & Hbs & Hst & Hid) & (s1 & rest & Hobs & Hs1) & Hall
          & Hacc).
  unfold progress_turn. rewrite lift_modify, lift_saveData.
  cbn [svc observed].
  set (sm := mutate (length (objects s)) (set_progress p) (svc w)).
  assert (objects sm = objects s ++ [set_progress p b]) as Hobjm.
  { unfold sm, mutate. cbn. now rewrite Hobj, alter_alloc. }
  assert (backups sm = length (objects s) :: backups s) as Hbsm
      by exact Hbs.
  assert (storage sm = storage (svc w)) as Hstm by reflexivity.
  clearbody sm.
  destruct (save_error sm) as [e|] eqn:Hsave.
  - do 2 eexists. split; [reflexivity|]. right. exists e.
    split; [reflexivity|]. split.
    + intros Hs. apply (refused_not_accepting sm e Hsave).
      apply (accepting_same_storage (svc w)); [exact Hstm|now apply Hacc].
    + unfold holding. cbn [svc observed].
      destruct (unsaved_arrays sm) as (-> & -> & _).
      split; [|split; [|exact Hall]].
      * exists (set_progress p b). now repeat split.
      * intros s1' Hhead. rewrite Hobs in Hhead. now injection Hhead as <-.
  - do 2 eexists. split; [reflexivity|]. left. split; [reflexivity|].
    unfold tracking. cbn [svc observed]. split; [|split; [|split]].
    + exists (set_progress p b). now repeat split.
    + rewrite Hobs. cbn. do 2 eexists. split; [reflexivity|]. exact Hs1.
    + apply Forall_app. split; [exact Hall|].
      constructor; [|constructor]. unfold deref. cbn [objects saved].
      now rewrite Hobjm, lookup_alloc.
    + intros Hs. apply saved_accepting.
      apply (accepting_same_storage (svc w)); [exact Hstm|now apply Hacc].
Qed.

Lemma tracking_loop (s : state) (nb : BackupItem) (fuel : nat) :
  forall (p : Z) (w : world),
    tracking s nb w ->
    exists out w',
      for_progress fuel p (progress_turn (length (objects s))) w = (out, w')
      /\ (out = Return tt /\ tracking s nb w' \/
          exists e, out = Throw e /\ ~ accepting s /\ holding s nb w').
Proof.
  induction fuel as [|fuel IH]; intros p w Hw; cbn [for_progress].
  - exists (Return tt), w. split; [reflexivity|]. now left.
  - destruct (p <=? 100)%Z.
    + destruct (tracking_turn s nb p w Hw)
        as (out & w1 & Hturn & [[-> Hw1]|(e & -> & Hs & Hw1)]).
      * destruct (IH (p + 20)%Z w1 Hw1) as (out & w2 & Hrest & Hcases).
        exists out, w2. split; [|exact Hcases].
        unfold bind. now rewrite Hturn.
      * exists (Throw e), w1. split; [unfold bind; now rewrite Hturn|].
        right. now exists e.
    + exists (Return tt), w. split; [reflexivity|]. now left.
Qed.

(** The last phase: the backup is completed and saved, and the retention
    sweep runs.  An exception can end it at either [saveData]. *)
Lemma tracking_finish (s : state) (nb : BackupItem) (w : world)
  (f : BackupItem -> BackupItem) (c : Z) (r : Result) :
  (forall b, id (f b) = id b) ->
  tracking s nb w ->
  exists out w',
    (run lift (modify (mutate (length (objects s)) f));
     run lift saveData;
     run lift (cleanupOldBackups c);
     ret r) w = (out, w')
    /\ observed w' = observed w
    /\ (exists b, status b = running
                  /\ (out = Return r /\
                      deref (svc w') (length (objects s)) = f b
                      \/
                      exists e, out = Throw e /\ ~ accepting s /\
                                (holding s nb w' \/
                                 deref (svc w') (length (objects s)) = f b))).
Proof.
  intros Hf ((b & Hobj & Hbs & Hst & Hid) & (s1 & rest & Hobs & Hs1) & Hall
             & Hacc).
  rewrite lift_modify, lift_saveData. cbn [svc observed].
  set (sm := mutate (length (objects s)) f (svc w)).
  assert (objects sm = objects s ++ [f b]) as Hobjm.
  { unfold sm, mutate. cbn. now rewrite Hobj, alter_alloc. }
  assert (backups sm = length (objects s) :: backups s) as Hbsm
      by exact Hbs.
  assert (storage sm = storage (svc w)) as Hstm by reflexivity.
  clearbody sm.
  assert (accepting s -> accepting sm) as Haccm.
  { intros Hs. apply (accepting_same_storage (svc w)); [exact Hstm|].
    now apply Hacc. }
  destruct (save_error sm) as [e|] eqn:Hsave.
  - do 2 eexists. split; [reflexivity|]. split; [reflexivity|].
    exists b. split; [exact Hst|]. right. exists e.
    split; [reflexivity|]. split.
    + intros Hs. exact (refused_not_accepting sm e Hsave (Haccm Hs)).
    + left. unfold holding. cbn [svc observed].
      destruct (unsaved_arrays sm) as (-> & -> & _).
      split; [|split; [|exact Hall]].
      * exists (f b). repeat split; try assumption. now rewrite Hf.
      * intros s1' Hhead. rewrite Hobs in Hhead. now injection Hhead as <-.
  - unfold bind at 1. unfold lift at 1. cbn [svc observed].
    rewrite cleanupOldBackups_sweep, saveData_run.
    set (sw := swept c (saved sm)).
    assert (objects sw = objects s ++ [f b]) as Hobjw by exact Hobjm.
    assert (storage sw = drop 2 (storage sm)) as Hstw by reflexivity.
    clearbody sw.
    destruct (save_error sw) as [e|] eqn:Hsweep.
    + do 2 eexists. split; [reflexivity|]. split; [reflexivity|].
      exists b. split; [exact Hst|]. right. exists e.
      split; [reflexivity|]. split.
      * intros Hs. apply (refused_not_accepting sw e Hsweep).
        unfold accepting. rewrite Hstw. apply Forall_drop.
        exact (Haccm Hs).
      * right. unfold deref. cbn [svc].
        destruct (unsaved_arrays sw) as (-> & _).
        rewrite Hobjw. apply lookup_alloc.
    + do 2 eexists. split; [reflexivity|]. split; [reflexivity|].
      exists b. split; [exact Hst|]. left. split; [reflexivity|].
      unfold deref. cbn [svc saved objects].
      rewrite Hobjw. apply lookup_alloc.
Qed.

(** The [catch] block of a run whose backup is at the front of the
    list. *)
Lemma on_error_held (s : state) (env : Env) (nb : BackupItem)
  (e : string) (w : world) :
  id nb = new_backupId env ->
  holding s nb w ->
  exists out w',
    on_error env e w = (out, w')
    /\ observed w' = observed w
    /\ status (deref (svc w') (length (objects s))) = failed
    /\ (out = Return (failure "Erro ao criar backup") \/
        exists e', out = Throw e' /\ ~ accepting (svc w))
    /\ (forall e' rest, storage (svc w) = Some e' :: rest -> out = Throw e').
Proof.
  intros Hnb ((b & Hobj & Hbs & Hid) & _ & _).
  unfold on_error. unfold bind at 1. unfold lift at 1, getBackup, gets.
  rewrite Hbs. cbn [List.find]. unfold deref at 1.
  rewrite Hobj, lookup_alloc, Hid, Hnb, String.eqb_refl.
  unfold bind at 1. rewrite lift_modify, lift_saveData_last.
  cbn [svc observed].
  set (sm := mutate (length (objects s)) (fail e) (svc w)).
  assert (objects sm = objects s ++ [fail e b]) as Hobjm.
  { unfold sm, mutate. cbn. now rewrite Hobj, alter_alloc. }
  assert (storage sm = storage (svc w)) as Hstm by reflexivity.
  clearbody sm.
  destruct (save_error sm) as [e'|] eqn:Hsave.
  - do 2 eexists. split; [reflexivity|]. split; [reflexivity|].
    split.
    + unfold deref. cbn [svc]. destruct (unsaved_arrays sm) as (-> & _).
      now rewrite Hobjm, lookup_alloc.
    + split.
      * right. exists e'. split; [reflexivity|]. intros Hw.
        apply (refused_not_accepting sm e' Hsave).
        now apply (accepting_same_storage (svc w)).
      * intros e2 rest Hs. unfold save_error in Hsave.
        rewrite Hstm, Hs in Hsave. now injection Hsave as ->.
  - do 2 eexists. split; [reflexivity|]. split; [reflexivity|].
    split; [|split; [now left|]].
    + unfold deref. cbn [svc saved objects].
      now rewrite Hobjm, lookup_alloc.
    + intros e2 rest Hs. unfold save_error in Hsave.
      rewrite Hstm, Hs in Hsave. discriminate.
Qed.

(** The [catch] block in any state: the backup that it finds, if any, is
    marked [failed]; the others are left as they are. *)
Lemma on_error_frame (env : Env) (e : string) (w : world) (l : loc) :
  exists out w',
    on_error env e w = (out, w')
    /\ observed w' = observed w
    /\ (status (deref (svc w') l) = failed \/
        deref (svc w') l = deref (svc w) l)
    /\ (out = Return (failure "Erro ao criar backup") \/
        exists e', out = Throw e' /\ ~ accepting (svc w)).
Proof.
  unfold on_error. unfold bind at 1. unfold lift at 1, getBackup, gets.
  destruct (List.find _ (backups (svc w))) as [l2|].
  - unfold bind at 1. rewrite lift_modify, lift_saveData_last.
    cbn [svc observed].
    set (sm := mutate l2 (fail e) (svc w)).
    assert (status (deref sm l) = failed \/ deref sm l = deref (svc w) l)
      as Hl.
    { unfold sm, mutate, deref. cbn [objects set_objects].
      rewrite list_lookup_total_alter.
      destruct (decide _); [now left|now right]. }
    assert (storage sm = storage (svc w)) as Hstm by reflexivity.
    clearbody sm.
    destruct (save_error sm) as [e'|] eqn:Hsave.
    + do 2 eexists. split; [reflexivity|]. split; [reflexivity|].
      split.
      * unfold deref in *. cbn [svc].
        destruct (unsaved_arrays sm) as (-> & _). exact Hl.
      * right. exists e'. split; [reflexivity|]. intros Hw.
        apply (refused_not_accepting sm e' Hsave).
        now apply (accepting_same_storage (svc w)).
    + do 2 eexists. split; [reflexivity|]. split; [reflexivity|].
      split; [exact Hl|now left].
  - do 2 eexists. split; [reflexivity|]. split; [reflexivity|].
    split; [now right|now left].
Qed.

Lemma fmap_constant {A B} (f : A -> B) (c : B) (l : list A) :
  Forall (fun x => f x = c) l -> f <$> l = replicate (length l) c.
Proof.
  induction 1 as [|x l Hx _ IH]; cbn; [reflexivity|]. now rewrite Hx, IH.
Qed.

(** A run of [createBackup] from a state [s].  The statuses that the new
    backup shows at the suspensions are [running]; the first state that
    is observed shows the backup at the front of the list, as it was
    created.  The call returns success with the backup [completed], or
    returns failure, or, when the storage refuses a write in the [try]
    block and another in the [catch] block, is ended by the exception of
    the latter. *)
Lemma createBackup_run
  (env : Env) (type_ : BackupType) (description_ : option string) (s : state) :
  let l := length (objects s) in
  exists out w' final,
    createBackup env type_ description_ {| svc := s; observed := [] |}
    = (out, w') /\
    (forall s1, head (observed w') = Some s1 ->
                backups s1 = l :: backups s /\
                deref s1 l = new_backup env type_ description_) /\
    Forall (fun st => status (deref st l) = running) (observed w') /\
    status (deref (svc w') l) = final /\
    (out = Return {| success := true; backupId := Some (new_backupId env);
                     message := None |} /\ final = completed
     \/
     out = Return (failure "Erro ao criar backup") /\
     (final = failed \/ final = completed /\ ~ accepting s)
     \/
     exists e, out = Throw e /\ ~ accepting s /\
               (final = failed \/ final = completed)) /\
    (accepting s -> observed w' <> []).
Proof.
  intros l. subst l.
  set (nb := new_backup env type_ description_).
  destruct (tracking_start s nb eq_refl) as (Hstart & Hw1 & Hheld).
  unfold createBackup, try_catch. fold nb. rewrite Hstart. clear Hstart.
  assert (forall e (w : world),
             holding s nb w ->
             (accepting s -> accepting (svc w) /\ observed w <> []) ->
             exists out w' final,
               on_error env e w = (out, w') /\
               (forall s1, head (observed w') = Some s1 ->
                           backups s1 = length (objects s) :: backups s /\
                           deref s1 (length (objects s)) = nb) /\
               Forall (fun st => status (deref st (length (objects s)))
                                 = running) (observed w') /\
               status (deref (svc w') (length (objects s))) = final /\
               (out = Return {| success := true;
                                backupId := Some (new_backupId env);
                                message := None |} /\ final = completed
                \/
                out = Return (failure "Erro ao criar backup") /\
                (final = failed \/ final = completed /\ ~ accepting s)
                \/
                exists e', out = Throw e' /\ ~ accepting s /\
                           (final = failed \/ final = completed)) /\
               (accepting s -> observed w' <> [])) as Hcatch.
  { intros e w Hw Hacc.
    destruct (on_error_held s env nb e w eq_refl Hw)
      as (out & w' & Hrun & Hobs & Hfinal & Hout & _).
    destruct Hw as (_ & Hhead & Hall).
    exists out, w', failed. split; [exact Hrun|]. rewrite Hobs.
    split; [exact Hhead|]. split; [exact Hall|]. split; [exact Hfinal|].
    split.
    - destruct Hout as [->|(e' & -> & Hne)].
      + right. left. split; [reflexivity|now left].
      + right. right. exists e'. split; [reflexivity|].
        split; [|now left]. intros Hs. apply Hne. now apply Hacc.
    - intros Hs. now apply Hacc. }
  destruct (save_error s) as [e1|] eqn:Hsave1.
  { apply Hcatch; [exact Hheld|]. intros Hs.
    now destruct (refused_not_accepting s e1 Hsave1). }
  set (w1 := {| svc := _; observed := _ |}) in *.
  assert (observed w1 <> []) as Hseen1 by discriminate.
  assert (forall w, tracking s nb w -> observed w <> []) as Hseen.
  { intros w (_ & (s1 & rest & -> & _) & _). discriminate. }
  clearbody w1.
  destruct (collect_error env) as [e|].
  { unfold bind at 1. unfold throw at 1.
    apply Hcatch; [now apply tracking_holding|].
    intros Hs. split; [now apply Hw1|exact Hseen1]. }
  unfold bind at 1. unfold ret at 1. unfold bind at 1.
  destruct (tracking_loop s nb 7 0 w1 Hw1)
    as (out2 & w2 & -> & [[-> Hw2]|(e & -> & Hs & Hw2)]).
  2:{ apply Hcatch; [exact Hw2|]. intros Hs'. contradiction. }
  unfold bind at 1.
  destruct (json env) as [text|e].
  2:{ apply Hcatch; [now apply tracking_holding|].
      intros Hs. split; [now apply Hw2|now apply Hseen]. }
  destruct (tracking_finish s nb w2
              (complete (Z.of_nat (String.length text)) (now_done env)
                        (object_url env)) (cutoff env)
              {| success := true; backupId := Some (new_backupId env);
                 message := None |} (fun b => eq_refl) Hw2)
    as (out3 & w3 & -> & Hobs3 & b & Hb
        & [[-> Hdone]|(e & -> & Hs & [Hheld3|Hdone])]).
  - exists (Return {| success := true; backupId := Some (new_backupId env);
                      message := None |}), w3, completed.
    split; [reflexivity|]. rewrite Hobs3.
    destruct (tracking_holding s nb w2 Hw2) as (_ & Hhead & Hall).
    split; [exact Hhead|]. split; [exact Hall|].
    split; [now rewrite Hdone|]. split; [now left|].
    intros _. now apply Hseen.
  - apply Hcatch; [exact Hheld3|]. intros Hs'. contradiction.
  - destruct (on_error_frame env e w3 (length (objects s)))
      as (out & w' & Hrun & Hobs & Hfinal & Hout).
    assert (status (deref (svc w') (length (objects s))) = failed \/
            status (deref (svc w') (length (objects s))) = completed)
      as Hstatus.
    { destruct Hfinal as [Hfinal|Hfinal]; [now left|right].
      now rewrite Hfinal, Hdone. }
    exists out, w', (status (deref (svc w') (length (objects s)))).
    split; [exact Hrun|]. rewrite Hobs, Hobs3.
    destruct (tracking_holding s nb w2 Hw2) as (_ & Hhead & Hall).
    split; [exact Hhead|]. split; [exact Hall|]. split; [reflexivity|].
    split.
    + destruct Hout as [->|(e' & -> & _)].
      * right. left. split; [reflexivity|].
        destruct Hstatus as [->| ->]; [now left|right; now split].
      * right. right. exists e'. now repeat split.
    + intros _. now apply Hseen.
Qed.




End BackupServiceProperties.

(** *** The methods that answer with a result object *)

Section BackupServiceResults.
Import BackupTypes BackupService BackupQueries.

(** [deleteBackup] when the identifier is found at index [i]. *)
Lemma deleteBackup_found (s : state) (X : string) (i : nat) (l : loc) :
  findIndex (fun l => String.eqb (id (deref s l)) X) (backups s) = Some i ->
  backups s !! i = Some l ->
  deleteBackup X s
  = let s1 :=
      set_backups (delete i (backups s))
        (set_revoked
           (revoked s ++ match downloadUrl (deref s l) with
                         | Some u => if truthy u then [u] else []
                         | None => []
                         end) s) in
    match save_error s1 with
    | Some _ => (Return (failure "Erro ao excluir backup"), unsaved s1)
    | None => (Return {| success := true; backupId := None;
                         message := None |}, saved s1)
    end.
Proof.
  intros Hi Hl. cbn zeta.
  unfold deleteBackup, try_catch. unfold bind at 1. unfold gets at 1.
  rewrite Hi. unfold bind at 1. unfold gets at 1.
  rewrite (list_lookup_total_correct _ _ _ Hl).
  match goal with
  | |- context [save_error ?x] => set (s1 := x)
  end.
  assert (forall A (K : M state A),
             (run match downloadUrl (deref s l) with
                  | Some u => if truthy u then revokeObjectURL u
                              else ret tt
                  | None => ret tt
                  end;
              run modify (fun s => set_backups (delete i (backups s)) s);
              K) s = K s1) as ->.
  { intros A K. unfold s1, bind, revokeObjectURL, modify, ret.
    destruct (downloadUrl (deref s l)) as [u|]; [destruct (truthy u)|];
      cbn; try reflexivity;
      rewrite app_nil_r; now destruct s. }
  unfold bind. rewrite saveData_run.
  now destruct (save_error s1).
Qed.

Lemma find_findIndex {A} (p : A -> bool) (l : list A) (x : A) :
  List.find p l = Some x -> exists i, findIndex p l = Some i.
Proof.
  intros H. apply find_some in H as [Hin Hp].
  apply (findIndex_is_Some p l x); [|exact Hp]. now apply list_elem_of_In.
Qed.

Lemma deleteBackup_returns (id_ : string) (s : state) :
  exists r s',
    deleteBackup id_ s = (Return r, s') /\
    (forall e rest l,
        storage s = Some e :: rest ->
        getBackup id_ s = (Return (Some l), s) ->
        r = failure "Erro ao excluir backup").
Proof.
  destruct (findIndex (fun l => String.eqb (id (deref s l)) id_) (backups s))
    as [i|] eqn:Hi.
  - destruct (findIndex_Some _ _ _ Hi) as (l & Hl & _).
    rewrite (deleteBackup_found s id_ i l Hi Hl). cbn zeta.
    match goal with
    | |- context [save_error ?x] => set (s1 := x)
    end.
    assert (storage s1 = storage s) as Hst by reflexivity. clearbody s1.
    destruct (save_error s1) as [e|] eqn:Hsave.
    + do 2 eexists. split; [reflexivity|]. reflexivity.
    + do 2 eexists. split; [reflexivity|]. intros e rest l' Hs _.
      unfold save_error in Hsave. rewrite Hst, Hs in Hsave. discriminate.
  - exists (failure "Backup não encontrado"), s. split.
    + unfold deleteBackup, try_catch, bind, gets. now rewrite Hi.
    + intros e rest l _ Hfind. unfold getBackup, gets in Hfind.
      injection Hfind as Hfind.
      destruct (find_findIndex _ _ _ Hfind) as [i Hi']. congruence.
Qed.

Lemma downloadBackup_returns (dom_error : option string) (id_ : string)
  (s : state) :
  exists r,
    downloadBackup dom_error id_ s = (Return r, s) /\
    (forall e l,
        dom_error = Some e ->
        getBackup id_ s = (Return (Some l), s) ->
        truthy_opt (downloadUrl (deref s l)) = true ->
        r = failure "Erro ao baixar backup").
Proof.
  unfold downloadBackup, try_catch, getBackup, bind, gets, ret, throw.
  destruct (List.find _ (backups s)) as [l0|] eqn:Hfind.
  - destruct (truthy_opt (downloadUrl (deref s l0))) eqn:Hurl; cbn [negb].
    + destruct dom_error as [e0|].
      * eexists. split; [reflexivity|]. reflexivity.
      * eexists. split; [reflexivity|]. intros e l He. discriminate He.
    + eexists. split; [reflexivity|]. intros e l _ [= <-] Ht. congruence.
  - eexists. split; [reflexivity|]. intros e l _ Hf. discriminate Hf.
Qed.

Lemma restoreBackup_returns (env : RestoreEnv) (backupId_ : string)
  (s : state) :
  exists r s',
    restoreBackup env backupId_ s = (Return r, s') /\
    (forall e l,
        fetched env = Throw e ->
        getBackup backupId_ s = (Return (Some l), s) ->
        status (deref s l) = completed ->
        truthy_opt (downloadUrl (deref s l)) = true ->
        r = {| restore_success := false; operationId := None;
               restore_message := Some "Erro ao restaurar backup" |}).
Proof.
  unfold restoreBackup, try_catch, getBackup, mutate_operation.
  unfold bind, gets, modify, ret.
  destruct (List.find _ (backups s)) as [l0|] eqn:Hfind;
    cbn [fmap option_fmap option_map].
  - destruct (status (deref s l0)) eqn:Hstatus;
      try (do 2 eexists; split; [reflexivity|];
           intros e l _ [= <-] Hst; congruence).
    destruct (truthy_opt (downloadUrl (deref s l0))) eqn:Hurl.
    + destruct (fetched env) as [data|e0] eqn:Hfetch.
      * do 2 eexists. split; [reflexivity|]. intros e l He. discriminate He.
      * cbn. rewrite String.eqb_refl.
        do 2 eexists. split; [reflexivity|]. reflexivity.
    + do 2 eexists. split; [reflexivity|].
      intros e l _ [= <-] _ Ht. congruence.
  - do 2 eexists. split; [reflexivity|].
    intros e l _ Hf. discriminate Hf.
Qed.

Section Calendar.

Variable parseInt : option string -> option Z.
Variable setHours : Z -> option Z -> option Z -> Date.
Variable next_day : Z -> Date.

Lemma createBackupConfig_returns (env : ConfigEnv) (c : ConfigInput)
  (s : state) :
  exists r s',
    createBackupConfig parseInt setHours next_day env c s = (Return r, s') /\
    configs s' = new_config parseInt setHours next_day env c :: configs s /\
    (accepting s ->
     r = {| config_success := true; configId := Some (new_configId env);
            config_message := None |} /\
     stored_configs s' = Some (configs s')) /\
    (forall e rest,
        storage s = Some e :: rest ->
        r = {| config_success := false; configId := None;
               config_message
               := Some "Erro ao criar configuração de backup" |} /\
        stored_configs s' = stored_configs s).
Proof.
  unfold createBackupConfig, try_catch. unfold bind at 1. unfold modify at 1.
  unfold bind. rewrite saveData_run.
  set (s1 := set_configs _ s).
  assert (storage s1 = storage s) as Hst by reflexivity.
  destruct (save_error s1) as [e|] eqn:Hsave.
  - unfold ret. do 2 eexists. split; [reflexivity|].
    destruct (unsaved_arrays s1) as (_ & _ & -> & _).
    split; [reflexivity|]. split.
    + intros Hs. destruct (refused_not_accepting s1 e Hsave).
      now apply (accepting_same_storage s).
    + intros e' rest Hs. split; [reflexivity|].
      unfold unsaved. rewrite Hst, Hs. reflexivity.
  - unfold ret. do 2 eexists. split; [reflexivity|].
    split; [reflexivity|]. split; [now split|].
    intros e rest Hs. unfold save_error in Hsave. rewrite Hst, Hs in Hsave.
    discriminate.
Qed.

End Calendar.

Lemma updateBackupConfig_returns (now : Z) (id_ : string)
  (updates : ConfigUpdates) (s : state) :
  exists r s',
    updateBackupConfig now id_ updates s = (Return r, s') /\
    (forall e rest c,
        storage s = Some e :: rest ->
        c ∈ configs s -> Config.id c = id_ ->
        r = failure "Erro ao atualizar configuração").
Proof.
  unfold updateBackupConfig, try_catch. unfold bind at 1. unfold gets at 1.
  destruct (findIndex _ (configs s)) as [i|] eqn:Hi.
  - unfold bind at 1. unfold modify at 1. unfold bind.
    rewrite saveData_run.
    set (s1 := set_configs _ s).
    assert (storage s1 = storage s) as Hst by reflexivity. clearbody s1.
    destruct (save_error s1) as [e|] eqn:Hsave.
    + unfold ret. do 2 eexists. split; [reflexivity|]. reflexivity.
    + unfold ret. do 2 eexists. split; [reflexivity|].
      intros e rest c Hs _ _. unfold save_error in Hsave.
      rewrite Hst, Hs in Hsave. discriminate.
  - unfold ret. do 2 eexists. split; [reflexivity|].
    intros e rest c _ Hc Hid. rewrite findIndex_None in Hi.
    specialize (Hi c Hc). cbn in Hi. apply String.eqb_neq in Hi.
    contradiction.
Qed.

Lemma deleteBackupConfig_returns (id_ : string) (s : state) :
  exists r s',
    deleteBackupConfig id_ s = (Return r, s') /\
    (forall e rest c,
        storage s = Some e :: rest ->
        c ∈ configs s -> Config.id c = id_ ->
        r = failure "Erro ao excluir configuração").
Proof.
  unfold deleteBackupConfig, try_catch. unfold bind at 1. unfold gets at 1.
  destruct (findIndex _ (configs s)) as [i|] eqn:Hi.
  - unfold bind at 1. unfold modify at 1. unfold bind.
    rewrite saveData_run.
    set (s1 := set_configs _ s).
    assert (storage s1 = storage s) as Hst by reflexivity. clearbody s1.
    destruct (save_error s1) as [e|] eqn:Hsave.
    + unfold ret. do 2 eexists. split; [reflexivity|]. reflexivity.
    + unfold ret. do 2 eexists. split; [reflexivity|].
      intros e rest c Hs _ _. unfold save_error in Hsave.
      rewrite Hst, Hs in Hsave. discriminate.
  - unfold ret. do 2 eexists. split; [reflexivity|].
    intros e rest c _ Hc Hid. rewrite findIndex_None in Hi.
    specialize (Hi c Hc). cbn in Hi. apply String.eqb_neq in Hi.
    contradiction.
Qed.

(** When the storage refuses the write of the [try] block and the write
    of the [catch] block, [createBackup] is ended by the exception of the
    latter: the promise is rejected, with the backup in the list,
    [failed]. *)
Lemma createBackup_rejects (env : Env) (type_ : BackupType)
  (description_ : option string) (s : state) (e1 e2 : string)
  (rest : list (option string)) :
  storage s = Some e1 :: Some e2 :: rest ->
  exists w',
    createBackup env type_ description_ {| svc := s; observed := [] |}
    = (Throw e2, w') /\
    observed w' = [] /\
    status (deref (svc w') (length (objects s))) = failed.
Proof.
  intros Hs.
  set (nb := new_backup env type_ description_).
  destruct (tracking_start s nb eq_refl) as (Hstart & _ & Hheld).
  unfold createBackup, try_catch. fold nb. rewrite Hstart.
  assert (save_error s = Some e1) as ->
      by (unfold save_error; now rewrite Hs).
  destruct (on_error_held s env nb e1 _ eq_refl Hheld)
    as (out & w' & Hrun & Hobs & Hfinal & _ & Hthrow).
  rewrite Hrun. exists w'.
  rewrite (Hthrow e2 rest); [now repeat split|].
  cbn [svc]. unfold unsaved.
  change (storage (set_backups (length (objects s) :: backups s)
                     (set_objects (objects s ++ [nb]) s)))
    with (storage s).
  now rewrite Hs.
Qed.

Lemma createBackup_returns (env : Env) (type_ : BackupType)
  (description_ : option string) (s : state) :
  exists out w',
    createBackup env type_ description_ {| svc := s; observed := [] |}
    = (out, w') /\
    (accepting s -> exists r, out = Return r) /\
    (forall e, out = Throw e -> ~ accepting s) /\
    (forall e1 e2 rest,
        storage s = Some e1 :: Some e2 :: rest -> out = Throw e2).
Proof.
  destruct (createBackup_run env type_ description_ s)
    as (out & w' & final & Hrun & _ & _ & _ & Hcases & _).
  exists out, w'. split; [exact Hrun|]. split; [|split].
  - intros Hs.
    destruct Hcases as [[-> _]|[[-> _]|(e & _ & Hne & _)]]; eauto.
    contradiction.
  - intros e ->.
    destruct Hcases as [[Hout _]|[[Hout _]|(e' & _ & Hne & _)]];
      [discriminate Hout|discriminate Hout|exact Hne].
  - intros e1 e2 rest Hs.
    destruct (createBackup_rejects env type_ description_ s e1 e2 rest Hs)
      as (w2 & Hrun2 & _).
    rewrite Hrun in Hrun2. now injection Hrun2 as ->.
Qed.

End BackupServiceResults.

(** ** Error handling across the services *)

Section ErrorHandling.
Import UserTypes.

Ltac returns :=
  unfold try_catch, bind, gets, ret, throw, modify; cbn;
  repeat (match goal with
          | |- context [if ?b then _ else _] => destruct b
          | |- context [match ?x with _ => _ end] => destruct x
          end; cbn);
  eauto.

(** A listener that throws on the first queued notification ends
    [processQueue]. *)
Lemma processQueue_listener_throws (s : NotificationService.state)
  (n : NotificationTypes.Notification)
  (rest : list NotificationTypes.Notification)
  (before : list NotificationService.listener)
  (l : NotificationService.listener)
  (after : list NotificationService.listener) (e : string) :
  NotificationService.queue s = n :: rest ->
  NotificationService.listeners s = before ++ l :: after ->
  (forall l', l' ∈ before -> NotificationService.callbacks s l' n = None) ->
  NotificationService.callbacks s l n = Some e ->
  fst (NotificationService.processQueue s) = Throw e.
Proof.
  intros Hq Hls Hbefore Hl. unfold NotificationService.processQueue.
  unfold bind at 1. unfold gets at 1. rewrite Hq.
  unfold bind at 1. unfold modify at 1. unfold bind at 1.
  cbn [forEach]. unfold bind at 1.
  unfold NotificationService.deliver_queued. unfold bind at 1.
  unfold modify at 1.
  unfold NotificationService.notify_listeners. unfold bind at 1.
  unfold gets at 1.
  cbn [NotificationService.listeners NotificationService.set_notifications
       NotificationService.set_queue].
  rewrite Hls, (forEach_listener_throws n before l after e);
    [reflexivity|exact Hbefore|exact Hl].
Qed.




End ErrorHandling.

(** ** The analytics service *)

Section AnalyticsServiceProperties.
Import AnalyticsService.

Lemma not_positive (x : float) :
  PrimFloat.leb x 0%float = true -> PrimFloat.ltb 0%float x = false.
Proof.
  rewrite leb_spec, ltb_spec.
  change (Prim2SF 0%float) with (S754_zero false).
  destruct (Prim2SF x) as [sg|sg| |sg m e]; try destruct sg; cbn; congruence.
Qed.

(** C6: with [previous] equal to zero, [calculatePercentChange] returns 100
    when [current > 0] and 0 when [current <= 0]; with [previous] different
    from zero it returns [((current - previous) / previous) * 100]; in
    particular [calculatePercentChange(10, 0) = 100] and
    [calculatePercentChange(0, 0) = 0]. *)
Theorem calculatePercentChange_cases (current previous : float) :
  (PrimFloat.eqb previous 0%float = true ->
   PrimFloat.ltb 0%float current = true ->
     calculatePercentChange current previous = 100%float) /\
  (PrimFloat.eqb previous 0%float = true ->
   PrimFloat.leb current 0%float = true ->
     calculatePercentChange current previous = 0%float) /\
  (PrimFloat.eqb previous 0%float = false ->
     calculatePercentChange current previous
     = PrimFloat.mul
         (PrimFloat.div (PrimFloat.sub current previous) previous)
         100%float) /\
  calculatePercentChange 10%float 0%float = 100%float /\
  calculatePercentChange 0%float 0%float = 0%float.
Proof.
  unfold calculatePercentChange. repeat split.
  - intros -> ->. reflexivity.
  - intros -> H. now rewrite (not_positive current H).
  - intros ->. reflexivity.
Qed.

Lemma calculatePercentChange_cases_witness :
  calculatePercentChange 25%float 0%float = 100%float /\
  calculatePercentChange (-3)%float 0%float = 0%float /\
  calculatePercentChange 150%float 100%float = 50%float.
Proof.
  split; [|split].
  - apply (calculatePercentChange_cases 25%float 0%float); reflexivity.
  - apply (calculatePercentChange_cases (-3)%float 0%float); reflexivity.
  - destruct (calculatePercentChange_cases 150%float 100%float)
      as (_ & _ & H & _).
    rewrite H; reflexivity.
Defined.

End AnalyticsServiceProperties.

(** ** More on the user service *)

Section UserServiceSessions.
Import UserTypes UserService UserSessions.

Ltac step_method :=
  unfold try_catch, bind, gets, ret, throw, modify; cbn.

Lemma deref_mutate (l l' : loc) (f : User -> User) (s : state) :
  deref (mutate l f s) l'
  = if decide (l = l') then
      (if decide (l < length (objects s))%nat then f (deref s l') else deref s l')
    else deref s l'.
Proof.
  unfold deref, mutate. cbn. rewrite list_lookup_total_alter.
  repeat case_decide; subst; try reflexivity; tauto.
Qed.

(** A mutation that keeps a field keeps it at every reference. *)
Lemma field_mutate {B} (g : User -> B) (l l' : loc) (f : User -> User)
  (s : state) :
  (forall u, g (f u) = g u) ->
  g (deref (mutate l f s) l') = g (deref s l').
Proof.
  intros Hf. rewrite deref_mutate.
  destruct (decide (l = l')); [|reflexivity].
  destruct (decide (l < length (objects s))%nat); [apply Hf|reflexivity].
Qed.

Lemma apply_update_keeps_email (now : Z) (d : UpdateUserRequest) (u : User) :
  email (apply_update now d u) = email u.
Proof.
  unfold apply_update.
  destruct (upd_name d) as [n|]; [destruct (truthy n)|];
    destruct (upd_role d); destruct (upd_isActive d);
    destruct (upd_permissions d); reflexivity.
Qed.

Lemma apply_update_keeps_id (now : Z) (d : UpdateUserRequest) (u : User) :
  id (apply_update now d u) = id u.
Proof.
  unfold apply_update.
  destruct (upd_name d) as [n|]; [destruct (truthy n)|];
    destruct (upd_role d); destruct (upd_isActive d);
    destruct (upd_permissions d); reflexivity.
Qed.

(** Who holds [canManageUsers]: the administrators, and nobody else. *)
Lemma canManageUsers_is_admin (r : UserRole) :
  ROLE_PERMISSIONS r canManageUsers = true <-> r = admin.
Proof. destruct r; cbn; split; congruence. Qed.

Lemma hasPermission_canManageUsers (s : state) :
  hasPermission canManageUsers s = true <->
  exists l, currentUser s = Some l /\ role (deref s l) = admin.
Proof.
  unfold hasPermission. destruct (currentUser s) as [l|].
  - rewrite orb_false_r, canManageUsers_is_admin. split.
    + intros H. now exists l.
    + now intros (l' & [= <-] & H).
  - split; [discriminate|]. now intros (l & [=] & _).
Qed.
End UserServiceSessions.

Section UserServiceInvariants.
Import UserTypes UserService UserSessions.

Ltac step_method :=
  unfold try_catch, bind, gets, ret, throw, modify; cbn.

Lemma emails_mutate (l : loc) (f : User -> User) (s : state) :
  (forall u, email (f u) = email u) ->
  emails (mutate l f s) = emails s.
Proof.
  intros Hf. unfold emails. cbn [users mutate].
  apply list_fmap_ext. intros i l' _.
  now apply (field_mutate email).
Qed.

Lemma roles_mutate (l : loc) (f : User -> User) (s : state) :
  (forall u, role (f u) = role u) ->
  no_admin s -> no_admin (mutate l f s).
Proof.
  intros Hf Hno. unfold no_admin. cbn [users mutate].
  eapply Forall_impl; [exact Hno|]. cbn. intros l' Hl'.
  now rewrite (field_mutate role).
Qed.

(** An object allocated at the end of the table leaves the earlier ones
    where they were. *)
Lemma deref_after_push (u : User) (s : state) (l : loc) :
  (l < length (objects s))%nat ->
  deref (snd (push_new u s)) l = deref s l.
Proof.
  intros Hl. unfold deref, push_new. cbn.
  now apply lookup_total_app_l.
Qed.

Lemma deref_pushed (u : User) (s : state) :
  deref (snd (push_new u s)) (length (objects s)) = u.
Proof. unfold deref, push_new. cbn. now apply list_lookup_total_middle. Qed.

Lemma emails_after_push (u : User) (s : state) :
  wf s -> emails (snd (push_new u s)) = emails s ++ [email u].
Proof.
  intros [Hrefs _]. unfold emails.
  change (users (snd (push_new u s))) with (users s ++ [length (objects s)]).
  rewrite fmap_app. cbn [fmap list_fmap]. f_equal.
  - apply Forall_fmap_ext_1. eapply Forall_impl; [exact Hrefs|].
    intros l Hl. exact (f_equal email (deref_after_push u s l Hl)).
  - exact (f_equal (fun x => [email x]) (deref_pushed u s)).
Qed.

(** Without [canManageUsers] the three gated methods change nothing. *)
Lemma denied_changes_nothing (s : state) :
  hasPermission canManageUsers s = false ->
  (forall now d, createUser now d s = (Return (failure access_denied), s)) /\
  (forall now i d, updateUser now i d s = (Return (failure access_denied), s)) /\
  (forall i, deleteUser i s = (Return (failure access_denied), s)).
Proof.
  intros H. unfold createUser, updateUser, deleteUser. step_method.
  rewrite H. cbn. repeat split.
Qed.

Lemma login_cases (now : Z) (e p : string) (s : state) :
  (exists msg, login now e p s = (Return (failure msg), s)) \/
  (exists l,
      List.find (fun l => String.eqb (email (deref s l)) e
                          && isActive (deref s l)) (users s) = Some l /\
      login now e p s
      = (Return {| success := true; user := Some l; message := None |},
         set_currentUser (Some l) (mutate l (set_lastLogin now) s))).
Proof.
  unfold login. step_method.
  destruct (List.find _ (users s)) as [l|]; cbn; [|eauto].
  repeat (match goal with
          | |- context [if ?b then _ else _] => destruct b
          end; cbn);
    try (left; eexists; reflexivity).
  right. exists l. now split.
Qed.

Lemma updateProfile_cases (now : Z) (n a : option string) (s : state) :
  (exists msg, updateProfile now n a s = (Return (failure msg), s)) \/
  (exists l (f : User -> User),
      l ∈ users s /\
      (forall u, email (f u) = email u) /\
      (forall u, role (f u) = role u) /\
      updateProfile now n a s
      = (Return {| success := true; user := Some l; message := None |},
         set_currentUser (Some l) (mutate l f s))).
Proof.
  unfold updateProfile. step_method.
  destruct (currentUser s) as [c|]; cbn; [|eauto].
  destruct (findIndex _ (users s)) as [i|] eqn:Hi; cbn; [|eauto].
  right. eexists _, _. split; [exact (findIndex_lookup_total _ _ _ Hi)|].
  split; [|split; [|reflexivity]]; intros u;
    destruct n as [n|]; [destruct (truthy n)| |destruct (truthy n)|];
    destruct a as [a|]; try destruct (truthy a); reflexivity.
Qed.

(** The methods that only read. *)
Lemma readers_keep_state (s : state) :
  snd (getAllUsers s) = s /\
  (forall now i, snd (getUserActivity now i s) = s) /\
  (forall a b, snd (changePassword a b s) = s).
Proof.
  split; [|split].
  - unfold getAllUsers, bind, gets, throw.
    now destruct (negb (hasPermission canManageUsers s)).
  - intros now i. unfold getUserActivity, bind, gets, throw, ret.
    now destruct (negb (hasPermission canViewLogs s)).
  - intros a b. unfold changePassword. step_method.
    destruct (currentUser s); cbn; [|reflexivity].
    repeat (match goal with
            | |- context [if ?b then _ else _] => destruct b
            end; cbn); reflexivity.
Qed.

(** What each call keeps: valid references and pairwise distinct emails. *)
Lemma exec_keeps_distinct_emails (c : call) (s : state) :
  wf s -> NoDup (emails s) -> NoDup (emails (exec c s)).
Proof.
  intros Hwf Hnd. destruct c; cbn [exec].
  - destruct (login_cases now email_ password s) as [[msg ->]|(l & _ & ->)];
      cbn [snd]; [exact Hnd|].
    unfold emails. cbn [users set_currentUser].
    change (NoDup (emails (mutate l (set_lastLogin now) s))).
    now rewrite emails_mutate.
  - exact Hnd.
  - now rewrite (proj1 (readers_keep_state s)).
  - unfold createUser. step_method.
    destruct (hasPermission canManageUsers s); cbn; [|exact Hnd].
    destruct (existsb _ (users s)) eqn:Hfree; cbn; [exact Hnd|].
    change (NoDup (emails (snd (push_new
              (newUser now userData (length (users s))) s)))).
    rewrite emails_after_push; [|exact Hwf].
    apply NoDup_app. split; [exact Hnd|]. split; [|apply NoDup_singleton].
    intros e He Hnew. apply list_elem_of_singleton in Hnew. subst e.
    apply list_elem_of_fmap in He as (l & Hl & Hin).
    rewrite existsb_false_elem_of in Hfree.
    specialize (Hfree l Hin). apply String.eqb_neq in Hfree.
    now apply Hfree.
  - unfold updateUser. step_method.
    destruct (hasPermission canManageUsers s); cbn; [|exact Hnd].
    destruct (findIndex _ (users s)); cbn; [|exact Hnd].
    change (NoDup (emails (mutate (users s !!! n)
                             (apply_update now updateData) s))).
    rewrite emails_mutate; [exact Hnd|]. apply apply_update_keeps_email.
  - unfold deleteUser. step_method.
    destruct (hasPermission canManageUsers s); cbn; [|exact Hnd].
    destruct (match currentUser s with Some _ => _ | None => _ end); cbn;
      [exact Hnd|].
    destruct (findIndex _ (users s)) as [i|]; cbn; [|exact Hnd].
    unfold emails. cbn. rewrite list_fmap_delete.
    exact (sublist_NoDup _ _ Hnd (sublist_delete _ _)).
  - now rewrite (proj1 (proj2 (readers_keep_state s))).
  - destruct (updateProfile_cases now new_name new_avatar s)
      as [[msg ->]|(l & f & _ & Hf & _ & ->)]; cbn [snd]; [exact Hnd|].
    change (NoDup (emails (mutate l f s))). now rewrite emails_mutate.
  - now rewrite (proj2 (proj2 (readers_keep_state s))).
Qed.

Lemma exec_keeps_wf (c : call) (s : state) : wf s -> wf (exec c s).
Proof.
  intros Hwf. destruct (wf_preserved s Hwf)
    as (Hlogin & Hlogout & Hcreate & Hupdate & Hdelete & Hprofile).
  destruct c; cbn [exec]; auto.
  - now rewrite (proj1 (readers_keep_state s)).
  - now rewrite (proj1 (proj2 (readers_keep_state s))).
  - now rewrite (proj2 (proj2 (readers_keep_state s))).
Qed.

(** X1: over any sequence of calls of the public methods, started at
    construction, every reference of the service points at an object, the
    signed-in user (if any) is one of the users of the array, and no two
    users of the array have the same email. *)
Theorem session_keeps_references_and_emails (boot : Z) (cs : list call) :
  wf (session cs (initial boot)) /\
  NoDup (emails (session cs (initial boot))).
Proof.
  assert (wf (initial boot) /\ NoDup (emails (initial boot))) as Hinit.
  { split; [apply wf_initial|]. cbn. apply NoDup_cons. split.
    - intros H. apply list_elem_of_singleton in H. discriminate.
    - apply NoDup_singleton. }
  revert Hinit. generalize (initial boot).
  induction cs as [|c cs IH]; intros s [Hwf Hnd]; cbn; [now split|].
  apply IH. split; [now apply exec_keeps_wf|].
  now apply exec_keeps_distinct_emails.
Qed.

End UserServiceInvariants.

Section UserServiceBehaviour.
Import UserTypes UserService UserSessions.

Ltac step_method :=
  unfold try_catch, bind, gets, ret, throw, modify; cbn.

Lemma findIndex_app_last {A} (p : A -> bool) (l : list A) (y : A) :
  (forall x, x ∈ l -> p x = false) -> p y = true ->
  findIndex p (l ++ [y]) = Some (length l).
Proof.
  intros Hl Hy. induction l as [|a l IH]; cbn.
  - now rewrite Hy.
  - rewrite (Hl a (list_elem_of_here a l)), IH; [reflexivity|].
    intros x Hx. apply Hl. now apply list_elem_of_further.
Qed.

Lemma findIndex_app_first {A} (p : A -> bool) (l l' : list A) (i : nat) :
  findIndex p l = Some i -> findIndex p (l ++ l') = Some i.
Proof.
  revert i. induction l as [|a l IH]; intros i; cbn; [discriminate|].
  destruct (p a); [trivial|].
  destruct (findIndex p l) as [k|]; [|discriminate].
  now rewrite (IH k eq_refl).
Qed.

Lemma findIndex_ext {A} (p q : A -> bool) (l : list A) :
  (forall x, x ∈ l -> p x = q x) -> findIndex p l = findIndex q l.
Proof.
  intros H. induction l as [|a l IH]; cbn; [reflexivity|].
  rewrite (H a (list_elem_of_here a l)), IH; [reflexivity|].
  intros x Hx. apply H. now apply list_elem_of_further.
Qed.

Lemma findIndex_in_range {A} (p : A -> bool) (l : list A) (i : nat) :
  findIndex p l = Some i -> (i < length l)%nat.
Proof.
  intros H. destruct (findIndex_Some _ _ _ H) as (x & Hx & _).
  now apply lookup_lt_Some in Hx.
Qed.

Lemma delete_app_last {A} (l : list A) (y : A) :
  delete (length l) (l ++ [y]) = l.
Proof. induction l as [|a l IH]; cbn; [reflexivity|]. f_equal. exact IH. Qed.

Lemma delete_app_first {A} (l l' : list A) (i : nat) :
  (i < length l)%nat -> delete i (l ++ l') = delete i l ++ l'.
Proof.
  revert i. induction l as [|a l IH]; intros [|i] Hi; cbn in *; try lia;
    [reflexivity|]. f_equal. apply IH. lia.
Qed.

Lemma find_first_match {A} (p : A -> bool) (l : list A) (x : A) :
  x ∈ l -> p x = true ->
  exists y, List.find p l = Some y /\ y ∈ l /\ p y = true.
Proof.
  intros Hx Hp. destruct (List.find p l) as [y|] eqn:Hfind.
  - destruct (find_some _ _ Hfind) as [Hin Hy].
    exists y. repeat split; [now apply list_elem_of_In|exact Hy].
  - apply list_elem_of_In in Hx.
    rewrite (find_none _ _ Hfind x Hx) in Hp. discriminate.
Qed.

Lemma apply_update_role (now : Z) (d : UpdateUserRequest) (u : User) :
  role (apply_update now d u) = default (role u) (upd_role d).
Proof.
  unfold apply_update.
  destruct (upd_name d) as [n|]; [destruct (truthy n)|];
    destruct (upd_role d); destruct (upd_isActive d);
    destruct (upd_permissions d); reflexivity.
Qed.

(** With [canManageUsers]: what [updateUser] does to the state. *)
Lemma updateUser_cases (now : Z) (i : string) (d : UpdateUserRequest)
  (s : state) :
  hasPermission canManageUsers s = true ->
  ((forall l, l ∈ users s -> id (deref s l) <> i) /\
   updateUser now i d s = (Return (failure "Usuário não encontrado"), s)) \/
  (exists l,
      l ∈ users s /\ id (deref s l) = i /\
      first_with_id s i l /\
      updateUser now i d s
      = (Return {| success := true; user := Some l; message := None |},
         mutate l (apply_update now d) s)).
Proof.
  intros Hperm. unfold updateUser. step_method. rewrite Hperm. cbn.
  destruct (findIndex _ (users s)) as [k|] eqn:Hk; cbn.
  - right. destruct (findIndex_Some _ _ _ Hk) as (l & Hl & Hid & Hfirst).
    rewrite (list_lookup_total_correct _ _ _ Hl).
    apply String.eqb_eq in Hid.
    exists l. split; [apply list_elem_of_lookup; eauto|].
    split; [exact Hid|]. split; [|reflexivity].
    exists k. split; [exact Hl|]. split; [exact Hid|].
    intros j l' Hj Hl'. apply String.eqb_neq. now apply (Hfirst j).
  - left. split; [|reflexivity].
    intros l Hl. apply String.eqb_neq.
    now apply (proj1 (findIndex_None _ _) Hk).
Qed.

(** X2: once no user of the array is an administrator, that stays so over
    any sequence of calls, and in every state that follows the three
    management methods answer access denied and [getAllUsers] throws. *)
Theorem lockout_is_permanent (s : state) (cs : list call) :
  wf s -> no_admin s ->
  let s' := session cs s in
  wf s' /\ no_admin s' /\
  (forall now d, createUser now d s' = (Return (failure access_denied), s')) /\
  (forall now i d,
      updateUser now i d s' = (Return (failure access_denied), s')) /\
  (forall i, deleteUser i s' = (Return (failure access_denied), s')) /\
  getAllUsers s' = (Throw access_denied, s').
Proof.
  assert (forall t, wf t -> no_admin t ->
                    hasPermission canManageUsers t = false) as Hdenied.
  { intros t [_ Hcur] Hno.
    destruct (hasPermission canManageUsers t) eqn:Hp; [|reflexivity].
    apply hasPermission_canManageUsers in Hp as (l & Hl & Hrole).
    unfold no_admin in Hno. rewrite Forall_forall in Hno.
    now destruct (Hno l (Hcur l Hl)). }
  assert (forall c t, wf t -> no_admin t -> no_admin (exec c t)) as Hstep.
  { intros c t Hwf Hno.
    destruct (denied_changes_nothing t (Hdenied t Hwf Hno))
      as (Hcreate & Hupdate & Hdelete).
    destruct c; cbn [exec].
    - destruct (login_cases now email_ password t) as [[msg ->]|(l & _ & ->)];
        cbn [snd]; [exact Hno|].
      now apply (roles_mutate l (set_lastLogin now) t).
    - exact Hno.
    - now rewrite (proj1 (readers_keep_state t)).
    - now rewrite Hcreate.
    - now rewrite Hupdate.
    - now rewrite Hdelete.
    - now rewrite (proj1 (proj2 (readers_keep_state t))).
    - destruct (updateProfile_cases now new_name new_avatar t)
        as [[msg ->]|(l & f & _ & _ & Hf & ->)]; cbn [snd]; [exact Hno|].
      now apply (roles_mutate l f t).
    - now rewrite (proj2 (proj2 (readers_keep_state t))). }
  intros Hwf Hno s'. subst s'.
  assert (wf (session cs s) /\ no_admin (session cs s)) as [Hwf' Hno'].
  { revert s Hwf Hno. induction cs as [|c cs IH]; intros s Hwf Hno; cbn;
      [now split|].
    apply IH; [now apply exec_keeps_wf|now apply Hstep]. }
  pose proof (Hdenied _ Hwf' Hno') as Hp.
  destruct (denied_changes_nothing _ Hp) as (Hcreate & Hupdate & Hdelete).
  repeat split; auto; try apply Hwf'.
  unfold getAllUsers, bind, gets, throw. now rewrite Hp.
Qed.

Lemma lockout_is_permanent_witness :
  createUser 1767268800009 Samples.new_seller
    (session [ Logout;
               Login 1767268800005 "manager@agenciacheck.com" "abc" ]
             MoreSamples.demoted)
  = (Return (failure access_denied),
     session [ Logout;
               Login 1767268800005 "manager@agenciacheck.com" "abc" ]
             MoreSamples.demoted).
Proof.
  apply (lockout_is_permanent MoreSamples.demoted
           [ Logout; Login 1767268800005 "manager@agenciacheck.com" "abc" ]).
  - split.
    + repeat constructor.
    + intros l [= <-]. apply list_elem_of_In. vm_compute. auto.
  - repeat constructor; vm_compute; discriminate.
Defined.

(** X3: a management method succeeds only for an administrator: when
    [createUser], [updateUser] or [deleteUser] returns success, or
    [getAllUsers] returns the array, the signed-in user has the role
    [admin]. *)
Theorem only_an_admin_manages_users (s : state) :
  (forall now d r s',
      createUser now d s = (Return r, s') -> success r = true ->
      exists l, currentUser s = Some l /\ role (deref s l) = admin) /\
  (forall now i d r s',
      updateUser now i d s = (Return r, s') -> success r = true ->
      exists l, currentUser s = Some l /\ role (deref s l) = admin) /\
  (forall i r s',
      deleteUser i s = (Return r, s') -> success r = true ->
      exists l, currentUser s = Some l /\ role (deref s l) = admin) /\
  (forall us s',
      getAllUsers s = (Return us, s') ->
      exists l, currentUser s = Some l /\ role (deref s l) = admin).
Proof.
  destruct (hasPermission canManageUsers s) eqn:Hp.
  - apply hasPermission_canManageUsers in Hp. repeat split; intros; exact Hp.
  - destruct (denied_changes_nothing s Hp) as (Hcreate & Hupdate & Hdelete).
    repeat split.
    + intros now d r s' Hrun. rewrite Hcreate in Hrun.
      injection Hrun as <- <-. discriminate.
    + intros now i d r s' Hrun. rewrite Hupdate in Hrun.
      injection Hrun as <- <-. discriminate.
    + intros i r s' Hrun. rewrite Hdelete in Hrun.
      injection Hrun as <- <-. discriminate.
    + intros us s'. unfold getAllUsers, bind, gets, throw. rewrite Hp.
      discriminate.
Qed.

Lemma only_an_admin_manages_users_witness :
  exists l, currentUser Samples.admin_session = Some l
            /\ role (deref Samples.admin_session l) = admin.
Proof.
  destruct (only_an_admin_manages_users Samples.admin_session) as [H _].
  eapply (H 9 Samples.new_seller); [vm_compute; reflexivity|reflexivity].
Defined.

(** X4: [login] always returns a result; when the result is a failure the
    state is what it was, so whoever was signed in stays signed in; and an
    email that no active user of the array has is answered with the
    user-not-found message. *)
Theorem failed_login_changes_nothing (now : Z) (e p : string) (s : state) :
  (exists r s', login now e p s = (Return r, s')
                /\ (success r = false -> s' = s)) /\
  ((forall l, l ∈ users s -> email (deref s l) = e ->
              isActive (deref s l) = false) ->
   login now e p s
   = (Return (failure "Usuário não encontrado ou inativo"), s)).
Proof.
  split.
  - destruct (login_cases now e p s) as [[msg ->]|(l & _ & ->)].
    + do 2 eexists. split; [reflexivity|trivial].
    + do 2 eexists. split; [reflexivity|discriminate].
  - intros Hnone. unfold login. step_method.
    destruct (List.find _ (users s)) as [l|] eqn:Hfind; [|reflexivity].
    destruct (find_some _ _ Hfind) as [Hin Hmatch].
    apply andb_prop in Hmatch as [He Ha].
    apply String.eqb_eq in He. apply list_elem_of_In in Hin.
    rewrite (Hnone l Hin He) in Ha. discriminate.
Qed.

Lemma failed_login_changes_nothing_witness :
  login 5 "nobody@agenciacheck.com" "secret" Samples.admin_session
  = (Return (failure "Usuário não encontrado ou inativo"),
     Samples.admin_session).
Proof.
  apply (failed_login_changes_nothing 5 "nobody@agenciacheck.com" "secret"
           Samples.admin_session).
  intros l Hl. apply list_elem_of_In in Hl. vm_compute in Hl.
  destruct Hl as [<-|[<-|[]]]; vm_compute; discriminate.
Defined.

(** X5: passwords of the other accounts are not checked, only measured:
    for an email other than the administrator's that an active user of
    the array has, [login] succeeds with any password of three UTF-16
    code units or more, signing in the first active user with that
    email, and answers ['Senha inválida'], changing nothing, with a
    shorter one. *)
Theorem login_accepts_any_password (now : Z) (e p : string) (s : state)
  (l : loc) :
  l ∈ users s -> email (deref s l) = e -> isActive (deref s l) = true ->
  e <> admin_email ->
  exists l0,
    List.find (fun l => String.eqb (email (deref s l)) e
                        && isActive (deref s l)) (users s) = Some l0 /\
    l0 ∈ users s /\ email (deref s l0) = e /\ isActive (deref s l0) = true /\
    ((3 <= js_length p)%nat ->
     login now e p s
     = (Return {| success := true; user := Some l0; message := None |},
        set_currentUser (Some l0) (mutate l0 (set_lastLogin now) s)) /\
     currentUser (snd (login now e p s)) = Some l0 /\
     users (snd (login now e p s)) = users s /\
     objects (snd (login now e p s))
     = alter (fun u => {| id := id u; email := email u; name := name u;
                          role := role u; avatar := avatar u;
                          isActive := isActive u; lastLogin := Some now;
                          createdAt := createdAt u; updatedAt := updatedAt u;
                          permissions := permissions u |})
             l0 (objects s)) /\
    ((js_length p < 3)%nat ->
     login now e p s = (Return (failure "Senha inválida"), s)).
Proof.
  intros Hl He Ha Hne.
  destruct (find_first_match
              (fun l => String.eqb (email (deref s l)) e && isActive (deref s l))
              (users s) l Hl) as (l0 & Hfind & Hin & Hmatch).
  { rewrite Ha, andb_true_r. now apply String.eqb_eq. }
  apply andb_prop in Hmatch as [He0 Ha0]. apply String.eqb_eq in He0.
  exists l0. split; [exact Hfind|]. split; [exact Hin|].
  split; [exact He0|]. split; [exact Ha0|]. split.
  - intros Hlen.
    assert (login now e p s
            = (Return {| success := true; user := Some l0; message := None |},
               set_currentUser (Some l0) (mutate l0 (set_lastLogin now) s)))
      as ->; [|now repeat split].
    unfold login. unfold try_catch, bind, gets, ret, modify.
    rewrite Hfind, He0. apply String.eqb_neq in Hne. rewrite Hne.
    cbn [andb negb].
    apply Nat.ltb_ge in Hlen. rewrite Hlen. reflexivity.
  - intros Hlen. unfold login. unfold try_catch, bind, gets, ret, modify.
    rewrite Hfind, He0. apply String.eqb_neq in Hne. rewrite Hne.
    cbn [andb negb].
    apply Nat.ltb_lt in Hlen. rewrite Hlen. reflexivity.
Qed.

Lemma login_accepts_any_password_witness :
  login 7 "manager@agenciacheck.com" "xyz" (initial 0)
  = (Return {| success := true; user := Some 1%nat; message := None |},
     set_currentUser (Some 1%nat) (mutate 1%nat (set_lastLogin 7) (initial 0)))
  /\ login 7 "manager@agenciacheck.com" MoreSamples.two_characters (initial 0)
     = (Return (failure "Senha inválida"), initial 0).
Proof.
  destruct (login_accepts_any_password 7 "manager@agenciacheck.com" "xyz"
              (initial 0) 1%nat) as (l0 & Hfind & _ & _ & _ & Hlong & _).
  { apply list_elem_of_In. cbn. auto. }
  { reflexivity. }
  { reflexivity. }
  { discriminate. }
  destruct (login_accepts_any_password 7 "manager@agenciacheck.com"
              MoreSamples.two_characters (initial 0) 1%nat)
    as (l1 & _ & _ & _ & _ & _ & Hshort).
  { apply list_elem_of_In. cbn. auto. }
  { reflexivity. }
  { reflexivity. }
  { discriminate. }
  injection Hfind as <-. split.
  - apply Hlong. vm_compute. lia.
  - apply Hshort. vm_compute. lia.
Defined.

End UserServiceBehaviour.

Section UserServiceUpdates.
Import UserTypes UserService UserSessions.

Ltac step_method :=
  unfold try_catch, bind, gets, ret, throw, modify; cbn.

Lemma hasPermission_mutate (l : loc) (f : User -> User) (s : state)
  (p : Permission) :
  (forall u, role (f u) = role u) ->
  hasPermission p (mutate l f s) = hasPermission p s.
Proof.
  intros Hf. unfold hasPermission. cbn [currentUser mutate].
  destruct (currentUser s) as [c|]; [|reflexivity].
  now rewrite (field_mutate role).
Qed.

(** Two users that are each the first of the array with an identifier
    are one user. *)
Lemma first_with_id_unique (s : state) (i : string) (l l' : loc) :
  first_with_id s i l -> first_with_id s i l' -> l = l'.
Proof.
  intros (k & Hk & Hid & Hfirst) (k' & Hk' & Hid' & Hfirst').
  destruct (Nat.lt_trichotomy k k') as [Hlt|[->|Hlt]].
  - now destruct (Hfirst' k l Hlt Hk).
  - congruence.
  - now destruct (Hfirst k' l' Hlt Hk').
Qed.

(** X6: the signed-in user and the user in the array are one object.  When
    an administrator passes their own identifier to [updateUser] with a new
    role and is the first user of the array with that identifier, every
    later permission check is answered from the new role, so a role
    without [canManageUsers] locks them out at once.  When another user
    comes first in the array with that identifier, that user is changed
    instead and every permission check is answered as before. *)
Theorem updateUser_on_own_account_changes_permissions
  (now : Z) (d : UpdateUserRequest) (r : UserRole) (s : state) (l : loc) :
  wf s -> currentUser s = Some l ->
  hasPermission canManageUsers s = true ->
  upd_role d = Some r ->
  (first_with_id s (id (deref s l)) l ->
   forall p,
     hasPermission p (snd (updateUser now (id (deref s l)) d s))
     = ROLE_PERMISSIONS r p) /\
  (forall l0, first_with_id s (id (deref s l)) l0 -> l0 <> l ->
   fst (updateUser now (id (deref s l)) d s)
   = Return {| success := true; user := Some l0; message := None |} /\
   forall p,
     hasPermission p (snd (updateUser now (id (deref s l)) d s))
     = hasPermission p s).
Proof.
  intros [Hrefs Hcur] Hl Hperm Hrole.
  destruct (updateUser_cases now (id (deref s l)) d s Hperm)
    as [[Hnone _]|(l1 & Hl1 & Hid1 & Hfirst1 & Hrun)].
  { now destruct (Hnone l (Hcur l Hl)). }
  rewrite Hrun. cbn [fst snd]. split.
  - intros Hfirst p.
    rewrite (first_with_id_unique s _ l1 l Hfirst1 Hfirst).
    unfold hasPermission. cbn [currentUser mutate]. rewrite Hl.
    rewrite deref_mutate. destruct (decide (l = l)); [|congruence].
    rewrite Forall_forall in Hrefs.
    destruct (decide (l < length (objects s))%nat) as [|Hout].
    + now rewrite apply_update_role, Hrole, orb_false_r.
    + now destruct (Hout (Hrefs l (Hcur l Hl))).
  - intros l0 Hfirst0 Hne.
    rewrite (first_with_id_unique s _ l1 l0 Hfirst1 Hfirst0).
    split; [reflexivity|]. intros p.
    unfold hasPermission. cbn [currentUser mutate]. rewrite Hl.
    rewrite deref_mutate. now destruct (decide (l0 = l)).
Qed.

Lemma updateUser_on_own_account_changes_permissions_witness :
  hasPermission canManageUsers
    (snd (updateUser 3 "1" MoreSamples.to_manager Samples.admin_session))
  = false.
Proof.
  apply (updateUser_on_own_account_changes_permissions 3
           MoreSamples.to_manager manager Samples.admin_session 0%nat).
  - split.
    + repeat constructor.
    + intros l [= <-]. apply list_elem_of_In. vm_compute. auto.
  - reflexivity.
  - reflexivity.
  - reflexivity.
  - exists 0%nat. split; [reflexivity|]. split; [reflexivity|].
    intros j l' Hj. lia.
Defined.

(** X7: with [canManageUsers], [updateUser] on an identifier that no user
    of the array has fails and changes nothing; otherwise it succeeds on
    the first user of the array with that identifier and changes that one
    object only: the array and the signed-in reference stay, every other
    object stays, and the object keeps its identifier, email and creation
    date and gets the new modification date. *)
Theorem updateUser_changes_one_user (now : Z) (i : string)
  (d : UpdateUserRequest) (s : state) :
  wf s -> hasPermission canManageUsers s = true ->
  ((forall l, l ∈ users s -> id (deref s l) <> i) ->
   updateUser now i d s = (Return (failure "Usuário não encontrado"), s)) /\
  ((exists l, l ∈ users s /\ id (deref s l) = i) ->
   exists l s',
     first_with_id s i l /\
     updateUser now i d s
     = (Return {| success := true; user := Some l; message := None |}, s') /\
     users s' = users s /\ currentUser s' = currentUser s /\
     (forall l', l' <> l -> deref s' l' = deref s l') /\
     id (deref s' l) = i /\
     email (deref s' l) = email (deref s l) /\
     createdAt (deref s' l) = createdAt (deref s l) /\
     updatedAt (deref s' l) = now).
Proof.
  intros [Hrefs _] Hperm.
  destruct (updateUser_cases now i d s Hperm)
    as [[Hnone ->]|(l & Hl & Hid & Hfirst & ->)].
  - split; [reflexivity|]. intros (l & Hl & Hid). now destruct (Hnone l Hl).
  - split; [intros Hnone; now destruct (Hnone l Hl)|]. intros _.
    exists l, (mutate l (apply_update now d) s).
    rewrite Forall_forall in Hrefs. specialize (Hrefs l Hl).
    repeat split; try assumption.
    + intros l' Hne. rewrite deref_mutate.
      destruct (decide (l = l')); [congruence|reflexivity].
    + rewrite (field_mutate id); [exact Hid|]. apply apply_update_keeps_id.
    + apply (field_mutate email). apply apply_update_keeps_email.
    + apply (field_mutate createdAt). intros u. unfold apply_update.
      destruct (upd_name d) as [n|]; [destruct (truthy n)|];
        destruct (upd_role d); destruct (upd_isActive d);
        destruct (upd_permissions d); reflexivity.
    + rewrite deref_mutate. destruct (decide (l = l)); [|congruence].
      destruct (decide (l < length (objects s))%nat); [reflexivity|lia].
Qed.

Lemma updateUser_changes_one_user_witness :
  updateUser 3 "9" MoreSamples.to_manager Samples.admin_session
  = (Return (failure "Usuário não encontrado"), Samples.admin_session)
  /\ exists l s',
       updateUser 3 "2" MoreSamples.custom_permissions Samples.admin_session
       = (Return {| success := true; user := Some l; message := None |}, s')
       /\ users s' = users Samples.admin_session.
Proof.
  assert (wf Samples.admin_session) as Hwf.
  { split.
    - repeat constructor.
    - intros l [= <-]. apply list_elem_of_In. vm_compute. auto. }
  split.
  - apply (updateUser_changes_one_user 3 "9" MoreSamples.to_manager
             Samples.admin_session Hwf eq_refl).
    intros l Hl. apply list_elem_of_In in Hl. vm_compute in Hl.
    destruct Hl as [<-|[<-|[]]]; vm_compute; discriminate.
  - destruct (updateUser_changes_one_user 3 "2" MoreSamples.custom_permissions
                Samples.admin_session Hwf eq_refl) as [_ H].
    destruct H as (l & s' & _ & Hrun & Husers & _).
    + exists 1%nat. split; [|reflexivity]. apply list_elem_of_In.
      vm_compute. auto.
    + exists l, s'. now split.
Defined.

(** X8: the [permissions] list of a user plays no part in permission
    checks: an [updateUser] that gives no role, whatever list of permissions
    it gives, leaves every answer of [hasPermission] as it was. *)
Theorem custom_permissions_grant_nothing (now : Z) (i : string)
  (d : UpdateUserRequest) (s : state) :
  upd_role d = None ->
  forall p, hasPermission p (snd (updateUser now i d s)) = hasPermission p s.
Proof.
  intros Hrole p.
  destruct (hasPermission canManageUsers s) eqn:Hperm.
  - destruct (updateUser_cases now i d s Hperm)
      as [[_ ->]|(l & _ & _ & _ & ->)]; [reflexivity|].
    cbn [snd]. apply hasPermission_mutate.
    intros u. now rewrite apply_update_role, Hrole.
  - now rewrite (proj1 (proj2 (denied_changes_nothing s Hperm))).
Qed.

Lemma custom_permissions_grant_nothing_witness :
  hasPermission canManageUsers
    (snd (login 9 "manager@agenciacheck.com" "abc"
            (snd (updateUser 3 "2" MoreSamples.custom_permissions
                    Samples.admin_session))))
  = false
  /\ forall p,
       hasPermission p
         (snd (updateUser 3 "2" MoreSamples.custom_permissions
                 Samples.admin_session))
       = hasPermission p Samples.admin_session.
Proof.
  split; [vm_compute; reflexivity|].
  apply (custom_permissions_grant_nothing 3 "2" MoreSamples.custom_permissions
           Samples.admin_session). reflexivity.
Defined.

(** With [canManageUsers] and a free email: the state after [createUser]. *)
Lemma createUser_appends (now : Z) (d : CreateUserRequest) (s : state) :
  hasPermission canManageUsers s = true ->
  (forall l, l ∈ users s -> email (deref s l) <> req_email d) ->
  createUser now d s
  = (Return {| success := true; user := Some (length (objects s));
               message := None |},
     snd (push_new (newUser now d (length (users s))) s)).
Proof.
  intros Hperm Hfree. unfold createUser. step_method. rewrite Hperm. cbn.
  assert (existsb (fun l0 => String.eqb (email (deref s l0)) (req_email d))
                  (users s) = false) as ->; [|reflexivity].
  apply existsb_false_elem_of. intros x Hx.
  apply String.eqb_neq. now apply Hfree.
Qed.

Lemma hasPermission_after_push (u : User) (s : state) (p : Permission) :
  wf s -> hasPermission p (snd (push_new u s)) = hasPermission p s.
Proof.
  intros [Hrefs Hcur]. unfold hasPermission.
  change (currentUser (snd (push_new u s))) with (currentUser s).
  destruct (currentUser s) as [c|] eqn:Hc; [|reflexivity].
  rewrite Forall_forall in Hrefs.
  now rewrite (deref_after_push u s c (Hrefs c (Hcur c eq_refl))).
Qed.

(** With [canManageUsers] and another identifier than one's own:
    [deleteUser] takes out the first user with the identifier. *)
Lemma deleteUser_at (userId : string) (s : state) (i : nat) :
  hasPermission canManageUsers s = true ->
  (forall c, currentUser s = Some c -> id (deref s c) <> userId) ->
  findIndex (fun l => String.eqb (id (deref s l)) userId) (users s) = Some i ->
  deleteUser userId s
  = (Return {| success := true; user := None; message := None |},
     splice1 i s).
Proof.
  intros Hperm Hown Hi. unfold deleteUser. step_method. rewrite Hperm. cbn.
  destruct (currentUser s) as [c|] eqn:Hc.
  - pose proof (Hown c eq_refl) as Hne. apply String.eqb_neq in Hne.
    rewrite Hne. cbn. now rewrite Hi.
  - cbn. now rewrite Hi.
Qed.

(** With [canManageUsers] and one's own identifier: refused. *)
Lemma deleteUser_own (userId : string) (s : state) (c : loc) :
  hasPermission canManageUsers s = true ->
  currentUser s = Some c -> id (deref s c) = userId ->
  deleteUser userId s = (Return (failure cannot_delete_self), s).
Proof.
  intros Hperm Hc Hid. unfold deleteUser. step_method. rewrite Hperm. cbn.
  rewrite Hc, Hid, String.eqb_refl. reflexivity.
Qed.

(** X9: creating a user and deleting it again by the identifier it was
    given restores the array, provided no user of the array had that
    identifier before. *)
Theorem createUser_then_deleteUser_restores (now : Z) (d : CreateUserRequest)
  (s : state) :
  wf s -> hasPermission canManageUsers s = true ->
  (forall l, l ∈ users s -> email (deref s l) <> req_email d) ->
  (forall l, l ∈ users s ->
             id (deref s l) <> pretty (length (users s) + 1)%nat) ->
  exists l s1 s2,
    createUser now d s
    = (Return {| success := true; user := Some l; message := None |}, s1) /\
    id (deref s1 l) = pretty (length (users s) + 1)%nat /\
    deleteUser (pretty (length (users s) + 1)%nat) s1
    = (Return {| success := true; user := None; message := None |}, s2) /\
    users s2 = users s /\ currentUser s2 = currentUser s.
Proof.
  intros Hwf Hperm Hfree Hnew. pose proof Hwf as [Hrefs Hcur].
  rewrite Forall_forall in Hrefs.
  set (u := newUser now d (length (users s))).
  exists (length (objects s)), (snd (push_new u s)).
  eexists. split; [now apply createUser_appends|].
  split; [now rewrite deref_pushed|].
  split; [apply (deleteUser_at _ _ (length (users s)))|].
  - now rewrite (hasPermission_after_push u s canManageUsers Hwf).
  - intros c Hc. change (currentUser s = Some c) in Hc.
    rewrite (deref_after_push u s c (Hrefs c (Hcur c Hc))).
    apply Hnew. now apply Hcur.
  - change (users (snd (push_new u s)))
      with (users s ++ [length (objects s)]).
    apply findIndex_app_last.
    + intros l Hl. rewrite (deref_after_push u s l (Hrefs l Hl)).
      apply String.eqb_neq. now apply Hnew.
    + rewrite deref_pushed. apply String.eqb_refl.
  - split; [|reflexivity]. cbn. apply delete_app_last.
Qed.

Lemma createUser_then_deleteUser_restores_witness :
  exists l s1 s2,
    createUser 9 Samples.new_seller Samples.admin_session
    = (Return {| success := true; user := Some l; message := None |}, s1) /\
    deleteUser "3" s1
    = (Return {| success := true; user := None; message := None |}, s2) /\
    users s2 = users Samples.admin_session.
Proof.
  destruct (createUser_then_deleteUser_restores 9 Samples.new_seller
              Samples.admin_session)
    as (l & s1 & s2 & Hcreate & _ & Hdelete & Husers & _).
  - split.
    + repeat constructor.
    + intros l [= <-]. apply list_elem_of_In. vm_compute. auto.
  - reflexivity.
  - intros l Hl. apply list_elem_of_In in Hl. vm_compute in Hl.
    destruct Hl as [<-|[<-|[]]]; vm_compute; discriminate.
  - intros l Hl. apply list_elem_of_In in Hl. vm_compute in Hl.
    destruct Hl as [<-|[<-|[]]]; vm_compute; discriminate.
  - exists l, s1, s2. repeat split; assumption.
Defined.

(** X10: identifiers are handed out from the length of the array and can
    repeat.  When a user of the array already has the identifier that
    [createUser] hands out, a [deleteUser] by that identifier right after
    the creation removes the first, earlier user with it and keeps the new
    one; unless the signed-in user holds that identifier: then the
    deletion is refused as a deletion of one's own account and nobody is
    removed. *)
Theorem deleteUser_after_reused_id_removes_older_user (now : Z)
  (d : CreateUserRequest) (s : state) (old : loc) :
  wf s -> hasPermission canManageUsers s = true ->
  (forall l, l ∈ users s -> email (deref s l) <> req_email d) ->
  old ∈ users s ->
  id (deref s old) = pretty (length (users s) + 1)%nat ->
  exists l s1,
    createUser now d s
    = (Return {| success := true; user := Some l; message := None |}, s1) /\
    id (deref s1 l) = pretty (length (users s) + 1)%nat /\
    users s1 = users s ++ [l] /\
    (l ∉ users s) /\
    ((forall c, currentUser s = Some c ->
                id (deref s c) <> pretty (length (users s) + 1)%nat) ->
     exists s2 i first,
       deleteUser (pretty (length (users s) + 1)%nat) s1
       = (Return {| success := true; user := None; message := None |}, s2) /\
       users s !! i = Some first /\
       id (deref s first) = pretty (length (users s) + 1)%nat /\
       (forall j l', (j < i)%nat -> users s !! j = Some l' ->
                     id (deref s l') <> pretty (length (users s) + 1)%nat) /\
       users s2 = delete i (users s) ++ [l]) /\
    ((exists c, currentUser s = Some c /\
                id (deref s c) = pretty (length (users s) + 1)%nat) ->
     deleteUser (pretty (length (users s) + 1)%nat) s1
     = (Return (failure cannot_delete_self), s1)).
Proof.
  intros Hwf Hperm Hfree Hold Hid. pose proof Hwf as [Hrefs Hcur].
  rewrite Forall_forall in Hrefs.
  set (u := newUser now d (length (users s))).
  exists (length (objects s)), (snd (push_new u s)).
  split; [now apply createUser_appends|].
  split; [now rewrite deref_pushed|].
  split; [reflexivity|].
  assert (length (objects s) ∉ users s) as Hfresh.
  { intros Hin. specialize (Hrefs _ Hin). lia. }
  split; [exact Hfresh|].
  assert (hasPermission canManageUsers (snd (push_new u s)) = true) as Hperm1
    by now rewrite (hasPermission_after_push u s canManageUsers Hwf).
  split.
  - intros Hother.
    destruct (findIndex_is_Some
                (fun l => String.eqb (id (deref s l))
                                     (pretty (length (users s) + 1)%nat))
                (users s) old Hold) as [i Hi]; [now apply String.eqb_eq|].
    destruct (findIndex_Some _ _ _ Hi) as (first & Hfirst & Hidf & Hbefore).
    eexists. exists i, first.
    split; [apply (deleteUser_at _ _ i)|].
    + exact Hperm1.
    + intros c Hc. change (currentUser s = Some c) in Hc.
      rewrite (deref_after_push u s c (Hrefs c (Hcur c Hc))).
      now apply Hother.
    + change (users (snd (push_new u s)))
        with (users s ++ [length (objects s)]).
      apply findIndex_app_first. rewrite <- Hi.
      apply findIndex_ext. intros l Hl.
      now rewrite (deref_after_push u s l (Hrefs l Hl)).
    + pose proof (findIndex_in_range _ _ _ Hi) as Hlt.
      split; [exact Hfirst|]. split; [now apply String.eqb_eq|].
      split.
      * intros j l' Hj Hl'. apply String.eqb_neq. now apply (Hbefore j).
      * cbn. now apply delete_app_first.
  - intros (c & Hc & Hidc).
    apply (deleteUser_own _ _ c); [exact Hperm1|exact Hc|].
    now rewrite (deref_after_push u s c (Hrefs c (Hcur c Hc))).
Qed.

Lemma deleteUser_after_reused_id_removes_older_user_witness :
  exists l s1 s2 i,
    createUser 9 MoreSamples.another_seller MoreSamples.after_turnover
    = (Return {| success := true; user := Some l; message := None |}, s1) /\
    deleteUser "3" s1
    = (Return {| success := true; user := None; message := None |}, s2) /\
    users s2 = delete i (users MoreSamples.after_turnover) ++ [l].
Proof.
  destruct (deleteUser_after_reused_id_removes_older_user 9
              MoreSamples.another_seller MoreSamples.after_turnover 2%nat)
    as (l & s1 & Hcreate & _ & _ & _ & Hdelete & _).
  - split.
    + repeat constructor.
    + intros l [= <-]. apply list_elem_of_In. vm_compute. auto.
  - reflexivity.
  - intros l Hl. apply list_elem_of_In in Hl. vm_compute in Hl.
    destruct Hl as [<-|[<-|[]]]; vm_compute; discriminate.
  - apply list_elem_of_In. vm_compute. auto.
  - reflexivity.
  - destruct Hdelete as (s2 & i & first & Hrun & _ & _ & _ & Husers).
    + intros c [= <-]. vm_compute. discriminate.
    + exists l, s1, s2, i. repeat split; assumption.
Defined.

End UserServiceUpdates.

(** ** More on the notification service *)

Section NotificationServiceBehaviour.
Import NotificationTypes NotificationService NotificationSessions.

Variable Number : string -> float.

Ltac step_method :=
  unfold try_catch, bind, gets, ret, throw, modify; cbn.

(** What [markAsRead] does: nothing, or the flag of one unread entry. *)
Lemma markAsRead_cases (i : string) (s : state) :
  markAsRead i s = (Return false, s) \/
  (exists k n,
      notifications s !! k = Some n /\ id n = i /\ read n = false /\
      (forall j m, (j < k)%nat -> notifications s !! j = Some m -> id m <> i) /\
      markAsRead i s
      = (Return true,
         snd (saveData
                (set_notifications
                   (alter (set_read true) k (notifications s)) s)))).
Proof.
  unfold markAsRead. step_method.
  destruct (findIndex _ (notifications s)) as [k|] eqn:Hk; cbn; [|now left].
  destruct (findIndex_Some _ _ _ Hk) as (n & Hn & Hid & Hfirst).
  rewrite Hn. destruct (read n) eqn:Hread; cbn; [now left|].
  right. exists k, n. split; [exact Hn|].
  split; [now apply String.eqb_eq|]. split; [exact Hread|].
  split; [|reflexivity].
  intros j m Hj Hm. apply String.eqb_neq. now apply (Hfirst j).
Qed.

Lemma deleteNotification_cases (i : string) (s : state) :
  ((forall n, n ∈ notifications s -> id n <> i) /\
   deleteNotification i s = (Return false, s)) \/
  (exists k n,
      notifications s !! k = Some n /\ id n = i /\
      (forall j m, (j < k)%nat -> notifications s !! j = Some m -> id m <> i) /\
      deleteNotification i s
      = (Return true,
         snd (saveData
                (set_notifications (delete k (notifications s)) s)))).
Proof.
  unfold deleteNotification. step_method.
  destruct (findIndex _ (notifications s)) as [k|] eqn:Hk; cbn.
  - right. destruct (findIndex_Some _ _ _ Hk) as (n & Hn & Hid & Hfirst).
    exists k, n. split; [exact Hn|]. split; [now apply String.eqb_eq|].
    split; [|reflexivity].
    intros j m Hj Hm. apply String.eqb_neq. now apply (Hfirst j).
  - left. split; [|reflexivity]. intros n Hn. apply String.eqb_neq.
    now apply (proj1 (findIndex_None _ _) Hk).
Qed.

Lemma unread_after_alter (l : list Notification) (k : nat) (n : Notification) :
  l !! k = Some n -> read n = false ->
  S (length (List.filter (fun n => negb (read n))
                         (alter (set_read true) k l)))
  = length (List.filter (fun n => negb (read n)) l).
Proof.
  revert k. induction l as [|a l IH]; intros [|k] Hk Hread; cbn in *;
    try discriminate.
  - injection Hk as ->. now rewrite Hread.
  - destruct (negb (read a)); cbn; now rewrite <- (IH k Hk Hread).
Qed.

(** What [markAsRead] answers is decided by the first notification with
    the identifier. *)
Lemma markAsRead_first (i : string) (s : state) (k : nat) (n : Notification) :
  notifications s !! k = Some n -> id n = i ->
  (forall j m, (j < k)%nat -> notifications s !! j = Some m -> id m <> i) ->
  markAsRead i s
  = if read n then (Return false, s)
    else (Return true,
          snd (saveData
                 (set_notifications
                    (alter (set_read true) k (notifications s)) s))).
Proof.
  intros Hn Hid Hfirst.
  assert (findIndex (fun m => String.eqb (id m) i) (notifications s) = Some k)
    as Hk.
  { destruct (findIndex (fun m => String.eqb (id m) i) (notifications s))
      as [k'|] eqn:Hk'.
    - destruct (findIndex_Some _ _ _ Hk') as (n' & Hn' & Hid' & Hfirst').
      apply String.eqb_eq in Hid'.
      destruct (Nat.lt_trichotomy k k') as [Hlt|[->|Hlt]]; [|reflexivity|].
      + specialize (Hfirst' k n Hlt Hn). cbn in Hfirst'.
        apply String.eqb_neq in Hfirst'. contradiction.
      + now destruct (Hfirst k' n' Hlt Hn').
    - rewrite findIndex_None in Hk'.
      specialize (Hk' n (proj2 (list_elem_of_lookup _ _) (ex_intro _ k Hn))).
      cbn in Hk'. apply String.eqb_neq in Hk'. contradiction. }
  unfold markAsRead. step_method. rewrite Hk. cbn. rewrite Hn.
  now destruct (read n).
Qed.



(** Calls to listeners go to subscribed listeners only. *)
Lemma calls_to_others (l : listener) (ls : list listener)
  (calls d : list (listener * Notification)) :
  Forall (fun c => fst c ∈ ls) calls -> l ∉ ls ->
  List.filter (fun c => Nat.eqb (fst c) l) (d ++ calls)
  = List.filter (fun c => Nat.eqb (fst c) l) d.
Proof.
  intros Hcalls Hl. rewrite List.filter_app.
  match goal with
  | |- _ ++ ?x = _ => assert (x = []) as ->; [|apply app_nil_r]
  end.
  induction Hcalls as [|[a n] calls Ha _ IH]; cbn; [reflexivity|].
  cbn in Ha. destruct (Nat.eqb_spec a l) as [->|]; [contradiction|].
  exact IH.
Qed.

Lemma calls_of_prefix (n : Notification) (called ls : list listener) :
  called `prefix_of` ls ->
  Forall (fun c : listener * Notification => fst c ∈ ls)
         ((fun l => (l, n)) <$> called).
Proof.
  intros [rest ->]. apply Forall_fmap, Forall_forall. intros l Hl. cbn.
  apply elem_of_app. now left.
Qed.

(** The calls that one round makes to a listener of a duplicate-free
    list. *)
Lemma calls_to_round (l : listener) (ls : list listener) (n : Notification) :
  NoDup ls -> l ∈ ls ->
  snd <$> List.filter (fun c : listener * Notification => Nat.eqb (fst c) l)
                      ((fun l => (l, n)) <$> ls)
  = [n].
Proof.
  intros Hnd Hl. induction Hnd as [|a ls Ha Hnd IH]; [inversion Hl|].
  cbn. apply elem_of_cons in Hl as [->|Hl].
  - rewrite Nat.eqb_refl. cbn. f_equal.
    rewrite <- (app_nil_l (_ <$> ls)).
    rewrite (calls_to_others a ls _ []);
      [reflexivity| |exact Ha].
    apply (calls_of_prefix n ls ls). reflexivity.
  - destruct (Nat.eqb_spec a l) as [->|]; [contradiction|]. now apply IH.
Qed.


End NotificationServiceBehaviour.

Section NotificationServiceSessions.
Import NotificationTypes NotificationService NotificationSessions.

Variable Number : string -> float.

Ltac step_method :=
  unfold try_catch, bind, gets, ret, throw, modify; cbn.

Lemma filter_absent (l : nat) (ls : list nat) :
  l ∉ ls -> List.filter (fun l' => negb (Nat.eqb l' l)) ls = ls.
Proof.
  induction ls as [|a ls IH]; intros Hl; cbn; [reflexivity|].
  apply not_elem_of_cons in Hl as [Hne Hl].
  destruct (Nat.eqb_spec a l); [congruence|]. cbn. now rewrite IH.
Qed.

Lemma filter_removes (l : listener) (ls : list listener) :
  l ∉ List.filter (fun l' => negb (Nat.eqb l' l)) ls.
Proof.
  intros H. apply list_elem_of_In, filter_In in H as [_ H].
  now rewrite Nat.eqb_refl in H.
Qed.

(** The calls that a method makes go to listeners subscribed at the
    time. *)
Lemma exec_calls_subscribed_only (c : call) (l : listener) (s : state) :
  l ∉ listeners s -> calls_to l (exec Number c s) = calls_to l s.
Proof.
  intros Hl. destruct c; cbn [exec].
  - destruct (category_enabled (in_category n) s) eqn:Hen.
    + destruct (isQuietHours Number now s) eqn:Hq.
      * unfold addNotification. step_method. rewrite Hen. cbn.
        now rewrite Hq.
      * destruct (addNotification_delivery Number now rnd n s Hen Hq)
          as (r & called & s' & -> & _ & _ & _ & _ & _ & _ & Hd & _
              & Hprefix & _).
        unfold calls_to. cbn [snd]. rewrite Hd.
        rewrite (calls_to_others l (listeners s)); [reflexivity| |exact Hl].
        now apply calls_of_prefix.
    + unfold addNotification. step_method. now rewrite Hen.
  - destruct (markAsRead_cases notificationId s)
      as [->|(k & n & _ & _ & _ & _ & ->)]; reflexivity.
  - reflexivity.
  - destruct (deleteNotification_cases notificationId s)
      as [[_ ->]|(k & n & _ & _ & _ & ->)]; reflexivity.
  - reflexivity.
  - unfold subscribe, modify. cbn. now destruct (bool_decide _).
  - reflexivity.
  - unfold updateSettings. step_method. now destruct (settings s).
  - destruct (processQueue_frame s)
      as (r & s' & k & calls & -> & _ & _ & _ & _ & _ & Hd & Hcalls & _).
    unfold calls_to. cbn [snd]. rewrite Hd.
    now rewrite (calls_to_others l (listeners s)).
Qed.

(** No method but [subscribe] and [unsubscribe] touches the set of
    listeners. *)
Lemma exec_listeners (c : call) (s : state) :
  listeners (exec Number c s)
  = match c with
    | Subscribe l =>
        if bool_decide (l ∈ listeners s) then listeners s
        else listeners s ++ [l]
    | Unsubscribe l =>
        List.filter (fun l' => negb (Nat.eqb l' l)) (listeners s)
    | _ => listeners s
    end.
Proof.
  destruct c; cbn [exec].
  - destruct (category_enabled (in_category n) s) eqn:Hen.
    + destruct (isQuietHours Number now s) eqn:Hq.
      * unfold addNotification. step_method. rewrite Hen. cbn.
        now rewrite Hq.
      * destruct (addNotification_delivery Number now rnd n s Hen Hq)
          as (r & called & s' & Hrun & _ & _ & Hls & _).
        rewrite Hrun. exact Hls.
    + unfold addNotification. step_method. now rewrite Hen.
  - destruct (markAsRead_cases notificationId s)
      as [->|(k & n & _ & _ & _ & _ & ->)]; reflexivity.
  - reflexivity.
  - destruct (deleteNotification_cases notificationId s)
      as [[_ ->]|(k & n & _ & _ & _ & ->)]; reflexivity.
  - reflexivity.
  - unfold subscribe, modify. cbn. now destruct (bool_decide _).
  - reflexivity.
  - unfold updateSettings. step_method. now destruct (settings s).
  - destruct (processQueue_frame s)
      as (r & s' & k & calls & Hrun & _ & _ & _ & Hls & _).
    rewrite Hrun. exact Hls.
Qed.

Lemma session_calls_unsubscribed (l : listener) (cs : list call) (s : state) :
  Subscribe l ∉ cs -> l ∉ listeners s ->
  (l ∉ listeners (session Number cs s)) /\
  calls_to l (session Number cs s) = calls_to l s.
Proof.
  revert s. induction cs as [|c cs IH]; intros s Hcs Hl; cbn; [easy|].
  apply not_elem_of_cons in Hcs as [Hc Hcs].
  destruct (IH (exec Number c s) Hcs) as [Hl' Hcalls].
  - rewrite exec_listeners. destruct c; try exact Hl.
    + case_bool_decide; [exact Hl|]. intros Hin.
      apply elem_of_app in Hin as [Hin|Hin]; [contradiction|].
      apply list_elem_of_singleton in Hin. congruence.
    + intros Hin. apply list_elem_of_In, filter_In in Hin as [Hin _].
      now apply list_elem_of_In in Hin.
  - split; [exact Hl'|].
    fold (session Number cs (exec Number c s)). rewrite Hcalls.
    now apply exec_calls_subscribed_only.
Qed.

(** X14: the listeners form a set kept in subscription order: subscribing
    twice is subscribing once, unsubscribing a listener that was just
    subscribed restores the state, and after [unsubscribe] the listener is
    called by no later method, in any sequence of calls that does not
    subscribe it again. *)
Theorem unsubscribed_listener_is_never_called (l : listener) (s : state)
  (cs : list call) :
  Subscribe l ∉ cs ->
  snd (subscribe l (snd (subscribe l s))) = snd (subscribe l s) /\
  (l ∉ listeners s -> snd (unsubscribe l (snd (subscribe l s))) = s) /\
  (l ∉ listeners (session Number cs (snd (unsubscribe l s)))) /\
  calls_to l (session Number cs (snd (unsubscribe l s))) = calls_to l s.
Proof.
  intros Hcs. split; [|split].
  - unfold subscribe, modify. cbn.
    destruct (bool_decide (l ∈ listeners s)) eqn:Hin; cbn.
    + now rewrite Hin.
    + assert (bool_decide (l ∈ listeners s ++ [l]) = true) as ->;
        [|reflexivity].
      apply bool_decide_eq_true. apply elem_of_app. right.
      now apply list_elem_of_singleton.
  - intros Hl. unfold subscribe, unsubscribe, modify. cbn.
    assert (bool_decide (l ∈ listeners s) = false) as ->
      by now apply bool_decide_eq_false.
    cbn. rewrite List.filter_app. cbn. rewrite Nat.eqb_refl. cbn.
    unfold listener in *.
    rewrite app_nil_r, (filter_absent l _ Hl). now destruct s.
  - apply (session_calls_unsubscribed l cs (snd (unsubscribe l s)) Hcs).
    apply filter_removes.
Qed.


(** Every method but [processQueue] keeps the list within the cap. *)
Lemma exec_keeps_cap (c : call) (s : state) :
  is_flush c = false ->
  (length (notifications s) <= 1000)%nat ->
  (length (notifications (exec Number c s)) <= 1000)%nat.
Proof.
  intros Hc Hcap. destruct c; cbn [exec]; try discriminate.
  - now apply addNotification_keeps_cap.
  - destruct (markAsRead_cases notificationId s)
      as [->|(k & n & _ & _ & _ & _ & ->)]; [exact Hcap|].
    cbn. now rewrite length_alter.
  - cbn. now rewrite length_fmap.
  - destruct (deleteNotification_cases notificationId s)
      as [[_ ->]|(k & n & Hn & _ & _ & ->)]; [exact Hcap|].
    cbn. pose proof (length_delete (notifications s) k (mk_is_Some _ _ Hn)).
    lia.
  - cbn. lia.
  - unfold subscribe, modify. cbn. now destruct (bool_decide _).
  - exact Hcap.
  - unfold updateSettings. step_method. now destruct (settings s).
Qed.


End NotificationServiceSessions.



Lemma unsubscribed_listener_is_never_called_witness :
  NotificationSessions.calls_to 7%nat
    (NotificationSessions.session Samples.Number
       [ NotificationSessions.AddNotification Samples.noon "abcdefghi"
           (Samples.alert 1);
         NotificationSessions.Subscribe 8%nat;
         NotificationSessions.ProcessQueue ]
       (snd (NotificationService.unsubscribe 7%nat
               (snd (NotificationService.subscribe 7%nat
                       (NotificationService.initial 1767225600000 true))))))
  = [].
Proof.
  refine (proj2 (proj2 (proj2
    (unsubscribed_listener_is_never_called Samples.Number 7%nat
       (snd (NotificationService.subscribe 7%nat
               (NotificationService.initial 1767225600000 true)))
       [ NotificationSessions.AddNotification Samples.noon "abcdefghi"
           (Samples.alert 1);
         NotificationSessions.Subscribe 8%nat;
         NotificationSessions.ProcessQueue ] _)))).
  intros H. repeat (apply elem_of_cons in H as [H|H]; [discriminate|]).
  inversion H.
Defined.




(** ** Quiet hours *)

Section QuietHoursWindow.
Import NotificationTypes NotificationService.

Variable Number : string -> float.

(** Minutes of the day are small integers, on which the arithmetic and
    the comparisons of [number] are exact. *)
Lemma minutes_exact (h m : Z) :
  (0 <= h < 24)%Z -> (0 <= m < 60)%Z ->
  PrimFloat.add (PrimFloat.mul (float_of_Z h) 60%float) (float_of_Z m)
  = float_of_Z (60 * h + m).
Proof.
  intros Hh Hm.
  assert (forallb (fun h =>
            forallb (fun m =>
              PrimFloat.Leibniz.eqb
                (PrimFloat.add (PrimFloat.mul (float_of_Z h) 60%float)
                               (float_of_Z m))
                (float_of_Z (60 * h + m)))
              (seqZ 0 60)) (seqZ 0 24) = true) as Hall
    by (vm_compute; reflexivity).
  rewrite forallb_forall in Hall.
  assert (In h (seqZ 0 24)) as Hin by (apply list_elem_of_In, elem_of_seqZ; lia).
  specialize (Hall h Hin). rewrite forallb_forall in Hall.
  apply FloatAxioms.Leibniz.eqb_spec, Hall.
  apply list_elem_of_In, elem_of_seqZ. lia.
Qed.

Lemma leb_exact (a b : Z) :
  (0 <= a < 1440)%Z -> (0 <= b < 1440)%Z ->
  PrimFloat.leb (float_of_Z a) (float_of_Z b) = (a <=? b)%Z.
Proof.
  intros Ha Hb.
  assert (let table := (fun z => (z, float_of_Z z)) <$> seqZ 0 1440 in
          forallb (fun p =>
            forallb (fun q =>
              Bool.eqb (PrimFloat.leb (snd p) (snd q)) (fst p <=? fst q)%Z)
              table) table = true) as Hall
    by (vm_compute; reflexivity).
  cbv zeta in Hall. rewrite forallb_forall in Hall.
  assert (forall z, (0 <= z < 1440)%Z ->
            In (z, float_of_Z z)
               ((fun z => (z, float_of_Z z)) <$> seqZ 0 1440)) as Hin.
  { intros z Hz. apply list_elem_of_In, list_elem_of_fmap.
    exists z. split; [reflexivity|]. apply elem_of_seqZ. lia. }
  specialize (Hall _ (Hin a Ha)). rewrite forallb_forall in Hall.
  exact (Bool.eqb_prop _ _ (Hall _ (Hin b Hb))).
Qed.

Lemma minutes_of_day_exact (t a b : string) (rest : list string) (h m : Z) :
  split_colon t = a :: b :: rest ->
  Number a = float_of_Z h -> Number b = float_of_Z m ->
  (0 <= h < 24)%Z -> (0 <= m < 60)%Z ->
  minutes_of_day Number t = float_of_Z (60 * h + m).
Proof.
  intros Hsplit Ha Hb Hh Hm. unfold minutes_of_day. rewrite Hsplit. cbn.
  rewrite Ha, Hb. now apply minutes_exact.
Qed.

(** X17: with quiet hours enabled and a start and an end that read as an
    hour and a minute of the day, [isQuietHours] holds from the start
    minute to the end minute, both included; a window whose start is
    later than its end runs over midnight. *)
Theorem isQuietHours_window (now : Clock) (s : state)
  (st : NotificationSettings) (a b c d : string) (ra rc : list string)
  (sh sm eh em : Z) :
  settings s = Some st -> qh_enabled (quietHours st) = true ->
  split_colon (qh_start (quietHours st)) = a :: b :: ra ->
  split_colon (qh_end (quietHours st)) = c :: d :: rc ->
  Number a = float_of_Z sh -> Number b = float_of_Z sm ->
  Number c = float_of_Z eh -> Number d = float_of_Z em ->
  (0 <= sh < 24)%Z -> (0 <= sm < 60)%Z ->
  (0 <= eh < 24)%Z -> (0 <= em < 60)%Z ->
  (0 <= hours now < 24)%Z -> (0 <= minutes now < 60)%Z ->
  let current := (60 * hours now + minutes now)%Z in
  let start := (60 * sh + sm)%Z in
  let finish := (60 * eh + em)%Z in
  isQuietHours Number now s
  = if (start <=? finish)%Z
    then (start <=? current)%Z && (current <=? finish)%Z
    else (start <=? current)%Z || (current <=? finish)%Z.
Proof.
  intros Hs Hen Hstart Hend Ha Hb Hc Hd Hsh Hsm Heh Hem Hh Hm
         current start finish.
  unfold isQuietHours. rewrite Hs, Hen. cbn [negb].
  rewrite (minutes_of_day_exact _ a b ra sh sm Hstart Ha Hb Hsh Hsm).
  rewrite (minutes_of_day_exact _ c d rc eh em Hend Hc Hd Heh Hem).
  rewrite (minutes_exact _ _ Hh Hm).
  fold current start finish.
  rewrite !leb_exact by (subst current start finish; lia).
  reflexivity.
Qed.

End QuietHoursWindow.

Lemma isQuietHours_window_witness :
  NotificationService.isQuietHours Samples.Number
    (QuietSamples.at_time 23 30) QuietSamples.overnight = true
  /\ NotificationService.isQuietHours Samples.Number
       (QuietSamples.at_time 8 0) QuietSamples.overnight = true
  /\ NotificationService.isQuietHours Samples.Number
       (QuietSamples.at_time 8 1) QuietSamples.overnight = false.
Proof.
  assert (forall h m, (0 <= h < 24)%Z -> (0 <= m < 60)%Z ->
            NotificationService.isQuietHours Samples.Number
              (QuietSamples.at_time h m) QuietSamples.overnight
            = ((1320 <=? 60 * h + m)%Z || (60 * h + m <=? 480)%Z)) as H.
  { intros h m Hh Hm.
    eapply (isQuietHours_window Samples.Number (QuietSamples.at_time h m)
              QuietSamples.overnight _ "22" "00" "08" "00" [] [] 22 0 8 0);
      try reflexivity; try (cbn; lia); assumption. }
  repeat split; rewrite H by lia; reflexivity.
Defined.

(** ** Listing and counting notifications *)

Section NotificationQueriesProperties.
Import NotificationTypes NotificationService NotificationQueries.

Lemma insert_newest_first_perm (x : Notification) (l : list Notification) :
  insert_newest_first x l ≡ₚ x :: l.
Proof.
  induction l as [|y l IH]; cbn; [reflexivity|].
  destruct (timestamp y <=? timestamp x)%Z; [reflexivity|].
  rewrite IH. apply Permutation_swap.
Qed.

Lemma sort_newest_first_perm (l : list Notification) :
  sort_newest_first l ≡ₚ l.
Proof.
  induction l as [|x l IH]; cbn; [reflexivity|].
  now rewrite insert_newest_first_perm, IH.
Qed.

Lemma insert_newest_first_sorted (x : Notification) (l : list Notification) :
  StronglySorted (fun a b => (timestamp b <= timestamp a)%Z) l ->
  StronglySorted (fun a b => (timestamp b <= timestamp a)%Z)
                 (insert_newest_first x l).
Proof.
  induction 1 as [|y l Hl IH Hy]; cbn.
  - repeat constructor.
  - destruct (timestamp y <=? timestamp x)%Z eqn:Hle.
    + apply Z.leb_le in Hle. constructor; [now constructor|].
      constructor; [exact Hle|].
      eapply Forall_impl; [exact Hy|]. cbn. intros z Hz. lia.
    + apply Z.leb_gt in Hle. constructor; [exact IH|].
      rewrite insert_newest_first_perm. constructor; [lia|exact Hy].
Qed.

Lemma sort_newest_first_sorted (l : list Notification) :
  StronglySorted (fun a b => (timestamp b <= timestamp a)%Z)
                 (sort_newest_first l).
Proof.
  induction l as [|x l IH]; cbn; [constructor|].
  now apply insert_newest_first_sorted.
Qed.

(** Notifications of one instant keep their order. *)
Lemma insert_newest_first_stable (t : Z) (x : Notification)
  (l : list Notification) :
  List.filter (fun n => (timestamp n =? t)%Z) (insert_newest_first x l)
  = List.filter (fun n => (timestamp n =? t)%Z) (x :: l).
Proof.
  induction l as [|y l IH]; [reflexivity|]. cbn [insert_newest_first].
  destruct (timestamp y <=? timestamp x)%Z eqn:Hle; [reflexivity|].
  apply Z.leb_gt in Hle. cbn [List.filter] in *. rewrite IH.
  destruct (timestamp x =? t)%Z eqn:Hx; [|reflexivity].
  apply Z.eqb_eq in Hx.
  destruct (timestamp y =? t)%Z eqn:Hy; [|reflexivity].
  apply Z.eqb_eq in Hy. lia.
Qed.

Lemma sort_newest_first_stable (t : Z) (l : list Notification) :
  List.filter (fun n => (timestamp n =? t)%Z) (sort_newest_first l)
  = List.filter (fun n => (timestamp n =? t)%Z) l.
Proof.
  induction l as [|x l IH]; [reflexivity|]. cbn [sort_newest_first foldr].
  rewrite insert_newest_first_stable. cbn [List.filter].
  fold (sort_newest_first l). now rewrite IH.
Qed.

(** X18: [getNotifications] without a limit returns the stored
    notifications, each exactly once, newest first, those of one instant in
    their stored order; a limit of zero is no limit; a positive limit keeps
    that many of the newest (all of them when there are fewer). *)
Theorem getNotifications_newest_first (s : state) :
  getNotifications None s ≡ₚ notifications s /\
  StronglySorted (fun a b => (timestamp b <= timestamp a)%Z)
                 (getNotifications None s) /\
  (forall t,
      List.filter (fun n => (timestamp n =? t)%Z) (getNotifications None s)
      = List.filter (fun n => (timestamp n =? t)%Z) (notifications s)) /\
  getNotifications (Some 0) s = getNotifications None s /\
  (forall n, (0 < n)%Z ->
     getNotifications (Some n) s
     = take (Z.to_nat n) (getNotifications None s) /\
     length (getNotifications (Some n) s)
     = Nat.min (Z.to_nat n) (length (notifications s))).
Proof.
  unfold getNotifications. split; [apply sort_newest_first_perm|].
  split; [apply sort_newest_first_sorted|].
  split; [intros t; apply sort_newest_first_stable|].
  split; [reflexivity|].
  intros n Hn. unfold slice_to.
  destruct (n =? 0)%Z eqn:H0; [apply Z.eqb_eq in H0; lia|].
  destruct (n <? 0)%Z eqn:Hneg; [apply Z.ltb_lt in Hneg; lia|].
  split; [reflexivity|].
  now rewrite length_take, (Permutation_length (sort_newest_first_perm _)).
Qed.

Lemma getNotifications_newest_first_witness :
  length (getNotifications (Some 5) Samples.full_house) = 5%nat.
Proof.
  destruct (getNotifications_newest_first Samples.full_house)
    as (_ & _ & _ & _ & H).
  destruct (H 5%Z) as [_ ->]; [lia|]. vm_compute. reflexivity.
Defined.

Lemma bump_sum {K} (eqb : K -> K -> bool) (k : K) (acc : list (K * nat)) :
  sum_list (snd <$> bump eqb k acc) = S (sum_list (snd <$> acc)).
Proof.
  induction acc as [|[k' n] acc IH]; cbn; [reflexivity|].
  destruct (eqb k' k); cbn; [reflexivity|]. rewrite IH. lia.
Qed.

Lemma tally_sum {K A} (eqb : K -> K -> bool) (key : A -> K) (l : list A)
  (acc : list (K * nat)) :
  sum_list (snd <$> fold_left (fun acc x => bump eqb (key x) acc) l acc)
  = (length l + sum_list (snd <$> acc))%nat.
Proof.
  revert acc. induction l as [|x l IH]; intros acc; cbn; [reflexivity|].
  rewrite IH, bump_sum. lia.
Qed.

(** The count kept for a key. *)
Lemma bump_lookup {K} (eqb : K -> K -> bool) (k c : K) (acc : list (K * nat)) :
  (forall a b, eqb a b = true <-> a = b) ->
  default 0%nat (snd <$> List.find (fun e => eqb (fst e) c) (bump eqb k acc))
  = ((if eqb k c then 1 else 0)
     + default 0%nat (snd <$> List.find (fun e => eqb (fst e) c) acc))%nat.
Proof.
  intros Heq. induction acc as [|[k' n] acc IH]; cbn.
  - now destruct (eqb k c).
  - destruct (eqb k' k) eqn:Hk; cbn.
    + apply Heq in Hk as ->. now destruct (eqb k c).
    + destruct (eqb k' c) eqn:Hc; cbn; [|exact IH].
      apply Heq in Hc as ->.
      destruct (eqb k c) eqn:Hkc; [|reflexivity].
      apply Heq in Hkc as ->.
      assert (eqb c c = true) as Hcc by now apply Heq. congruence.
Qed.

Lemma tally_lookup {K A} (eqb : K -> K -> bool) (key : A -> K) (c : K)
  (l : list A) (acc : list (K * nat)) :
  (forall a b, eqb a b = true <-> a = b) ->
  default 0%nat
    (snd <$> List.find (fun e => eqb (fst e) c)
               (fold_left (fun acc x => bump eqb (key x) acc) l acc))
  = (length (List.filter (fun x => eqb (key x) c) l)
     + default 0%nat (snd <$> List.find (fun e => eqb (fst e) c) acc))%nat.
Proof.
  intros Heq. revert acc. induction l as [|x l IH]; intros acc; cbn;
    [reflexivity|].
  rewrite IH, (bump_lookup eqb (key x) c acc Heq).
  destruct (eqb (key x) c); cbn; lia.
Qed.

Lemma category_eqb_eq (a b : NotificationCategory) :
  category_eqb a b = true <-> a = b.
Proof. destruct a, b; cbn; split; congruence. Qed.

Lemma type_eqb_eq (a b : NotificationType) :
  type_eqb a b = true <-> a = b.
Proof. destruct a, b; cbn; split; congruence. Qed.

(** X19: the figures of [getStats] add up: the counts by category sum to
    the total, and so do the counts by type; the count kept for a category
    (or a type) is the number of stored notifications of that category
    (type); the unread and last-24-hours figures never exceed the total. *)
Theorem getStats_counts_add_up (now : Z) (s : state) :
  let st := getStats now s in
  total st = length (notifications s) /\
  sum_list (snd <$> byCategory st) = total st /\
  sum_list (snd <$> byType st) = total st /\
  (forall c,
      default 0%nat
        (snd <$> List.find (fun e => category_eqb (fst e) c) (byCategory st))
      = length (List.filter (fun n => category_eqb (category n) c)
                            (notifications s))) /\
  (forall t,
      default 0%nat
        (snd <$> List.find (fun e => type_eqb (fst e) t) (byType st))
      = length (List.filter (fun n => type_eqb (type n) t)
                            (notifications s))) /\
  (unread st <= total st)%nat /\
  (last24Hours st <= total st)%nat.
Proof.
  cbn. split; [reflexivity|].
  split; [rewrite tally_sum; cbn; lia|].
  split; [rewrite tally_sum; cbn; lia|].
  split.
  { intros c. rewrite (tally_lookup category_eqb category c _ []
                         category_eqb_eq). cbn. lia. }
  split.
  { intros t. rewrite (tally_lookup type_eqb type t _ [] type_eqb_eq).
    cbn. lia. }
  split; [unfold getUnreadNotifications|]; apply List.filter_length_le.
Qed.

End NotificationQueriesProperties.

(** ** The retention sweep and the course of a backup *)

Section BackupRuns.
Import BackupTypes BackupService BackupQueries.

(** X20: the retention sweep keeps, in their order, exactly the backups
    created at the cutoff or later; it hands the object URL of every backup
    it drops to [URL.revokeObjectURL], in list order, and touches no
    object.  It then persists the list that is left and returns, when
    the storage takes the writes; when the storage refuses one, the sweep
    is ended by that exception, the list being swept all the same. *)
Theorem cleanupOldBackups_retention (c : Z) (s : state) :
  exists out s',
    cleanupOldBackups c s = (out, s') /\
    objects s' = objects s /\
    backups s'
    = List.filter (fun l => negb (createdAt (deref s l) <? c)%Z) (backups s) /\
    (forall l, l ∈ backups s' <->
               l ∈ backups s /\ (c <= createdAt (deref s l))%Z) /\
    revoked s'
    = revoked s ++ omap (fun l => stale_url c (deref s l)) (backups s) /\
    (accepting s ->
     out = Return tt /\
     stored_backups s' = Some (deref s' <$> backups s')) /\
    (out = Return tt /\ stored_backups s' = Some (deref s' <$> backups s')
     \/ exists e, out = Throw e /\ Some e ∈ take 2 (storage s)).
Proof.
  rewrite cleanupOldBackups_sweep, saveData_run.
  assert (forall l,
             l ∈ List.filter
                   (fun l => negb (createdAt (deref s l) <? c)%Z) (backups s)
             <-> l ∈ backups s /\ (c <= createdAt (deref s l))%Z) as Hkept.
  { intros l. rewrite list_elem_of_In, filter_In, <- list_elem_of_In.
    now rewrite negb_true_iff, Z.ltb_ge. }
  destruct (save_error (swept c s)) as [e|] eqn:Hsave.
  - exists (Throw e), (unsaved (swept c s)).
    destruct (unsaved_arrays (swept c s)) as (-> & -> & _ & _ & ->).
    split; [reflexivity|]. split; [reflexivity|]. split; [reflexivity|].
    split; [exact Hkept|]. split; [reflexivity|]. split.
    + intros Hs. destruct (refused_not_accepting _ e Hsave).
      now apply (accepting_same_storage s).
    + right. exists e. split; [reflexivity|].
      now apply (save_error_refused (swept c s)).
  - exists (Return tt), (saved (swept c s)).
    split; [reflexivity|]. split; [reflexivity|]. split; [reflexivity|].
    split; [exact Hkept|]. split; [reflexivity|].
    split; [now split|left; now split].
Qed.

Lemma cleanupOldBackups_retention_witness :
  exists s',
    cleanupOldBackups 1767268800001 Samples.after_backup = (Return tt, s') /\
    backups s' = [] /\
    revoked s' = ["blob:http://localhost/0f6c"] /\
    stored_backups s' = Some [].
Proof.
  destruct (cleanupOldBackups_retention 1767268800001 Samples.after_backup)
    as (out & s' & Hrun & _ & Hbs & _ & Hrv & Hacc & _).
  destruct Hacc as [-> Hsb]; [unfold accepting; vm_compute; constructor|].
  exists s'. split; [exact Hrun|]. rewrite Hsb, Hbs, Hrv.
  repeat split.
Defined.

(** *** The progress of a run *)

Lemma at_progress_turn (s : state) (nb : BackupItem) (q p : Z)
  (seen : list Z) (w : world) :
  at_progress s nb q seen w ->
  exists w',
    progress_turn (length (objects s)) p w = (Return tt, w')
    /\ at_progress s nb p (seen ++ [p]) w'.
Proof.
  intros (Hobj & Hbs & Hrv & Hacc & Hseen).
  unfold progress_turn. rewrite lift_modify, lift_saveData.
  cbn [svc observed].
  set (sm := mutate (length (objects s)) (set_progress p) (svc w)).
  assert (objects sm = objects s ++ [set_progress p nb]) as Hobjm.
  { unfold sm, mutate. cbn. now rewrite Hobj, alter_alloc. }
  assert (backups sm = length (objects s) :: backups s) as Hbsm
      by exact Hbs.
  assert (revoked sm = revoked s) as Hrvm by exact Hrv.
  assert (accepting sm) as Haccm by exact Hacc.
  clearbody sm. rewrite (save_error_accepting sm Haccm).
  eexists. split; [reflexivity|].
  split; [exact Hobjm|]. split; [exact Hbsm|]. split; [exact Hrvm|].
  split; [now apply saved_accepting|].
  cbn [svc observed]. rewrite fmap_app, Hseen. cbn [fmap list_fmap].
  unfold deref. cbn [objects saved]. now rewrite Hobjm, lookup_alloc.
Qed.

Lemma for_progress_turns {S} (body : Z -> M S unit) :
  for_progress 7 0 body
  = (run body 0; run body 20; run body 40; run body 60; run body 80;
     run body 100; ret tt).
Proof. reflexivity. Qed.

Lemma at_progress_loop (s : state) (nb : BackupItem) (w : world) :
  at_progress s nb 0 [0] w ->
  exists w',
    for_progress 7 0 (progress_turn (length (objects s))) w = (Return tt, w')
    /\ at_progress s nb 100 [0; 0; 20; 40; 60; 80; 100] w'.
Proof.
  intros H0. rewrite for_progress_turns.
  destruct (at_progress_turn s nb 0 0 _ w H0) as (w1 & E1 & H1).
  destruct (at_progress_turn s nb 0 20 _ w1 H1) as (w2 & E2 & H2).
  destruct (at_progress_turn s nb 20 40 _ w2 H2) as (w3 & E3 & H3).
  destruct (at_progress_turn s nb 40 60 _ w3 H3) as (w4 & E4 & H4).
  destruct (at_progress_turn s nb 60 80 _ w4 H4) as (w5 & E5 & H5).
  destruct (at_progress_turn s nb 80 100 _ w5 H5) as (w6 & E6 & H6).
  exists w6. split; [|exact H6].
  unfold bind. now rewrite E1, E2, E3, E4, E5, E6.
Qed.

Lemma at_progress_start (env : Env) (type_ : BackupType)
  (description_ : option string) (s : state) :
  accepting s ->
  let nb := new_backup env type_ description_ in
  let s0 := set_backups (length (objects s) :: backups s)
              (set_objects (objects s ++ [nb]) s) in
  at_progress s nb 0 [0] {| svc := saved s0; observed := [saved s0] |}.
Proof.
  intros Hs nb s0. repeat split; cbn [svc observed].
  - now apply saved_accepting.
  - cbn. unfold deref. cbn. now rewrite lookup_alloc.
Qed.

(** The [catch] block at a known progress. *)
Lemma at_progress_on_error (env : Env) (type_ : BackupType)
  (description_ : option string) (s : state) (e : string) (p : Z)
  (seen : list Z) (w : world) :
  let nb := new_backup env type_ description_ in
  let l := length (objects s) in
  at_progress s nb p seen w ->
  exists w',
    on_error env e w = (Return (failure "Erro ao criar backup"), w') /\
    deref (svc w') l = fail e (set_progress p nb) /\
    backups (svc w') = l :: backups s /\
    revoked (svc w') = revoked s /\
    stored_backups (svc w') = Some (deref (svc w') <$> backups (svc w')) /\
    progress_trace l w' = seen ++ [p].
Proof.
  intros nb l (Hobj & Hbs & Hrv & Hacc & Hseen). subst l.
  unfold on_error. unfold bind at 1. unfold lift at 1, getBackup, gets.
  rewrite Hbs. cbn [List.find]. unfold deref at 1.
  rewrite Hobj, lookup_alloc. cbn [id set_progress nb new_backup].
  rewrite String.eqb_refl.
  unfold bind at 1. rewrite lift_modify, lift_saveData_last.
  cbn [svc observed].
  set (sm := mutate (length (objects s)) (fail e) (svc w)).
  assert (objects sm = objects s ++ [fail e (set_progress p nb)]) as Hobjm.
  { unfold sm, mutate. cbn. now rewrite Hobj, alter_alloc. }
  assert (backups sm = length (objects s) :: backups s) as Hbsm
      by exact Hbs.
  assert (revoked sm = revoked s) as Hrvm by exact Hrv.
  assert (accepting sm) as Haccm by exact Hacc.
  clearbody sm. rewrite (save_error_accepting sm Haccm).
  unfold ret. eexists. split; [reflexivity|]. cbn [svc observed].
  split; [unfold deref; cbn [objects saved]; now rewrite Hobjm, lookup_alloc|].
  split; [exact Hbsm|]. split; [exact Hrvm|]. split; [reflexivity|].
  unfold progress_trace. cbn [svc observed]. rewrite fmap_app, Hseen.
  cbn [fmap list_fmap]. unfold deref. cbn [objects saved].
  now rewrite Hobjm, lookup_alloc.
Qed.

(** X21: when the storage takes every write and the data is collected
    and serialised, [createBackup] returns success with the new
    identifier after seven suspensions, at which the backup shows the
    progress 0, 0, 20, 40, 60, 80 and 100; the backup then is [completed]
    with the size of the text, the completion time and the object URL;
    the retention sweep has run over the list with the new backup at its
    front, and the list is persisted as it is left.  When the clock at
    entry is not before the cutoff, [getBackup] with the returned
    identifier finds the new backup. *)
Theorem createBackup_completes (env : Env) (type_ : BackupType)
  (description_ : option string) (s : state) (text : string) :
  accepting s ->
  collect_error env = None ->
  json env = Return text ->
  let l := length (objects s) in
  exists w',
    createBackup env type_ description_ {| svc := s; observed := [] |}
    = (Return {| success := true; backupId := Some (new_backupId env);
                 message := None |}, w') /\
    deref (svc w') l
    = complete (Z.of_nat (String.length text)) (now_done env)
               (object_url env) (new_backup env type_ description_) /\
    (id (deref (svc w') l) = new_backupId env /\
     type (deref (svc w') l) = type_ /\
     status (deref (svc w') l) = completed /\
     createdAt (deref (svc w') l) = now_start env /\
     completedAt (deref (svc w') l) = Some (now_done env) /\
     size (deref (svc w') l) = Z.of_nat (String.length text) /\
     downloadUrl (deref (svc w') l) = Some (object_url env) /\
     errorMessage (deref (svc w') l) = None /\
     progress (deref (svc w') l) = 100 /\
     description (deref (svc w') l) = description_) /\
    progress_trace l w' = [0; 0; 20; 40; 60; 80; 100; 100] /\
    backups (svc w')
    = List.filter
        (fun l' => negb (createdAt (deref (svc w') l') <? cutoff env)%Z)
        (l :: backups s) /\
    stored_backups (svc w') = Some (deref (svc w') <$> backups (svc w')) /\
    ((cutoff env <= now_start env)%Z ->
     getBackup (new_backupId env) (svc w') = (Return (Some l), svc w')).
Proof.
  intros Hs Hcollect Hjson l. subst l.
  set (nb := new_backup env type_ description_).
  destruct (tracking_start s nb eq_refl) as (Hstart & _ & _).
  pose proof (at_progress_start env type_ description_ s Hs) as H1.
  unfold createBackup, try_catch. fold nb. rewrite Hstart. clear Hstart.
  rewrite (save_error_accepting s Hs).
  cbn zeta in H1. fold nb in H1.
  set (w1 := {| svc := _; observed := _ |}) in *. clearbody w1.
  rewrite Hcollect. unfold bind at 1. unfold ret at 1. unfold bind at 1.
  destruct (at_progress_loop s nb w1 H1)
    as (w2 & -> & (Hobj & Hbs & Hrv & Hacc & Hseen)).
  unfold bind at 1. rewrite Hjson.
  rewrite lift_modify, lift_saveData. cbn [svc observed].
  set (sm := mutate (length (objects s)) _ (svc w2)).
  assert (objects sm
          = objects s
            ++ [complete (Z.of_nat (String.length text)) (now_done env)
                         (object_url env) nb]) as Hobjm.
  { unfold sm, mutate. cbn. now rewrite Hobj, alter_alloc. }
  assert (backups sm = length (objects s) :: backups s) as Hbsm
      by exact Hbs.
  assert (accepting sm) as Haccm by exact Hacc.
  clearbody sm. rewrite (save_error_accepting sm Haccm).
  unfold bind at 1. unfold lift at 1. cbn [svc observed].
  rewrite cleanupOldBackups_sweep, saveData_run.
  rewrite (save_error_accepting (swept (cutoff env) (saved sm))).
  2:{ unfold accepting. cbn. apply Forall_drop. exact Haccm. }
  unfold ret. eexists. split; [reflexivity|]. cbn [svc observed].
  assert (forall x, deref (saved (swept (cutoff env) (saved sm))) x
                    = deref sm x) as Hsame by reflexivity.
  assert (deref sm (length (objects s))
          = complete (Z.of_nat (String.length text)) (now_done env)
                     (object_url env) nb) as Hnew.
  { unfold deref. now rewrite Hobjm, lookup_alloc. }
  split; [now rewrite Hsame|].
  split; [rewrite Hsame, Hnew; now repeat split|].
  split.
  { unfold progress_trace. cbn [svc observed].
    rewrite fmap_app, Hseen. cbn [fmap list_fmap app].
    now rewrite Hsame, Hnew. }
  assert (backups (saved (swept (cutoff env) (saved sm)))
          = List.filter
              (fun l' => negb (createdAt (deref sm l') <? cutoff env)%Z)
              (length (objects s) :: backups s)) as Hkept.
  { cbn. now rewrite Hbsm. }
  split; [exact Hkept|]. split; [reflexivity|].
  intros Hfresh. unfold getBackup, gets. f_equal. f_equal.
  rewrite Hkept. cbn [List.filter]. rewrite Hnew.
  cbn [createdAt complete nb new_backup].
  assert ((now_start env <? cutoff env)%Z = false) as -> by now apply Z.ltb_ge.
  cbn [negb List.find]. rewrite Hsame, Hnew.
  cbn [id complete nb new_backup]. now rewrite String.eqb_refl.
Qed.

(** X22: when the storage takes every write and collecting the data
    throws, or serialising it does, the call returns the failure ['Erro ao
    criar backup'] and the backup stays at the front of the list,
    [failed], with the message of the error and the progress it had
    reached (0 after one suspension, or 100 after seven); the list is
    persisted, and the retention sweep has not run: no backup is dropped
    and no URL is revoked. *)
Theorem createBackup_failure_keeps_backup (env : Env) (type_ : BackupType)
  (description_ : option string) (s : state) (e : string) :
  accepting s ->
  collect_error env = Some e \/
  (collect_error env = None /\ json env = Throw e) ->
  let l := length (objects s) in
  let p := match collect_error env with Some _ => 0 | None => 100 end in
  exists w',
    createBackup env type_ description_ {| svc := s; observed := [] |}
    = (Return (failure "Erro ao criar backup"), w') /\
    deref (svc w') l
    = fail e (set_progress p (new_backup env type_ description_)) /\
    (id (deref (svc w') l) = new_backupId env /\
     status (deref (svc w') l) = failed /\
     errorMessage (deref (svc w') l) = Some e /\
     progress (deref (svc w') l) = p /\
     createdAt (deref (svc w') l) = now_start env /\
     completedAt (deref (svc w') l) = None /\
     size (deref (svc w') l) = 0 /\
     downloadUrl (deref (svc w') l) = None) /\
    backups (svc w') = l :: backups s /\
    revoked (svc w') = revoked s /\
    stored_backups (svc w') = Some (deref (svc w') <$> backups (svc w')) /\
    progress_trace l w'
    = match collect_error env with
      | Some _ => [0; 0]
      | None => [0; 0; 20; 40; 60; 80; 100; 100]
      end.
Proof.
  intros Hs Hcase l p. subst l p.
  set (nb := new_backup env type_ description_).
  destruct (tracking_start s nb eq_refl) as (Hstart & _ & _).
  pose proof (at_progress_start env type_ description_ s Hs) as H1.
  unfold createBackup, try_catch. fold nb. rewrite Hstart. clear Hstart.
  rewrite (save_error_accepting s Hs).
  cbn zeta in H1. fold nb in H1.
  set (w1 := {| svc := _; observed := _ |}) in *. clearbody w1.
  destruct Hcase as [Hcollect|[Hcollect Hjson]]; rewrite Hcollect.
  - unfold bind at 1. unfold throw at 1.
    destruct (at_progress_on_error env type_ description_ s e 0 [0] w1 H1)
      as (w' & -> & Hnew & Hbs & Hrv & Hsb & Htrace).
    exists w'. split; [reflexivity|]. split; [exact Hnew|].
    split; [rewrite Hnew; now repeat split|]. repeat split; assumption.
  - unfold bind at 1. unfold ret at 1. unfold bind at 1.
    destruct (at_progress_loop s nb w1 H1) as (w2 & -> & H2).
    unfold bind at 1. rewrite Hjson.
    destruct (at_progress_on_error env type_ description_ s e 100 _ w2 H2)
      as (w' & -> & Hnew & Hbs & Hrv & Hsb & Htrace).
    exists w'. split; [reflexivity|]. split; [exact Hnew|].
    split; [rewrite Hnew; now repeat split|]. repeat split; assumption.
Qed.

(** *** The last successful backup *)

Lemma insert_backup_perm (s : state) (x : loc) (l : list loc) :
  insert_newest_first s x l ≡ₚ x :: l.
Proof.
  induction l as [|y l IH]; cbn; [reflexivity|].
  destruct (createdAt (deref s y) <=? createdAt (deref s x))%Z;
    [reflexivity|].
  rewrite IH. apply Permutation_swap.
Qed.

Lemma sort_backups_perm (s : state) (l : list loc) :
  sort_newest_first s l ≡ₚ l.
Proof.
  induction l as [|x l IH]; cbn; [reflexivity|].
  now rewrite insert_backup_perm, IH.
Qed.

Lemma insert_backup_sorted (s : state) (x : loc) (l : list loc) :
  StronglySorted
    (fun a b => (createdAt (deref s b) <= createdAt (deref s a))%Z) l ->
  StronglySorted
    (fun a b => (createdAt (deref s b) <= createdAt (deref s a))%Z)
    (insert_newest_first s x l).
Proof.
  induction 1 as [|y l Hl IH Hy]; cbn.
  - repeat constructor.
  - destruct (createdAt (deref s y) <=? createdAt (deref s x))%Z eqn:Hle.
    + apply Z.leb_le in Hle. constructor; [now constructor|].
      constructor; [exact Hle|].
      eapply Forall_impl; [exact Hy|]. cbn. intros z Hz. lia.
    + apply Z.leb_gt in Hle. constructor; [exact IH|].
      rewrite insert_backup_perm. constructor; [lia|exact Hy].
Qed.

Lemma sort_backups_sorted (s : state) (l : list loc) :
  StronglySorted
    (fun a b => (createdAt (deref s b) <= createdAt (deref s a))%Z)
    (sort_newest_first s l).
Proof.
  induction l as [|x l IH]; cbn; [constructor|].
  now apply insert_backup_sorted.
Qed.

(** X23: [getLastSuccessfulBackup] returns [null] exactly when no backup
    of the list is [completed]; otherwise it returns a completed backup of
    the list that no completed backup of the list is newer than. *)
Theorem getLastSuccessfulBackup_newest_completed (s : state) :
  match getLastSuccessfulBackup s with
  | Some l =>
      l ∈ backups s /\ status (deref s l) = completed /\
      forall l', l' ∈ backups s -> status (deref s l') = completed ->
                 (createdAt (deref s l') <= createdAt (deref s l))%Z
  | None =>
      forall l, l ∈ backups s -> status (deref s l) <> completed
  end.
Proof.
  unfold getLastSuccessfulBackup.
  set (done := List.filter (fun l => is_completed (deref s l)) (backups s)).
  assert (forall l, l ∈ done <->
                    l ∈ backups s /\ status (deref s l) = completed) as Hdone.
  { intros l. unfold done. rewrite list_elem_of_In, filter_In,
      <- list_elem_of_In. unfold is_completed.
    destruct (status (deref s l)); intuition congruence. }
  pose proof (sort_backups_perm s done) as Hperm.
  pose proof (sort_backups_sorted s done) as Hsorted.
  destruct (sort_newest_first s done) as [|l rest]; cbn.
  - intros l Hl Hst.
    assert (l ∈ done) as Hin by now apply Hdone.
    rewrite <- Hperm in Hin. inversion Hin.
  - assert (l ∈ done) as Hl by (rewrite <- Hperm; left).
    apply Hdone in Hl as [Hl Hst]. split; [exact Hl|]. split; [exact Hst|].
    intros l' Hl' Hst'.
    assert (l' ∈ l :: rest) as Hin by (rewrite Hperm; now apply Hdone).
    apply StronglySorted_inv in Hsorted as [_ Hall].
    apply elem_of_cons in Hin as [->|Hin]; [lia|].
    rewrite Forall_forall in Hall. now apply Hall.
Qed.

End BackupRuns.

Lemma createBackup_completes_witness :
  exists w',
    BackupService.createBackup Samples.plain_run BackupTypes.full None
      Samples.fresh_world
    = (Return {| BackupService.success := true;
                 BackupService.backupId
                 := Some "backup_1767268800000_abcdefghi";
                 BackupService.message := None |}, w') /\
    BackupQueries.progress_trace 0%nat w'
    = [0; 0; 20; 40; 60; 80; 100; 100] /\
    BackupService.getBackup "backup_1767268800000_abcdefghi"
      (BackupService.svc w')
    = (Return (Some 0%nat), BackupService.svc w').
Proof.
  destruct (createBackup_completes Samples.plain_run BackupTypes.full None
              BackupService.initial "{}" (Forall_nil_2 _) eq_refl eq_refl)
    as (w' & Hrun & _ & _ & Htrace & _ & _ & Hfind).
  exists w'. split; [exact Hrun|]. split; [exact Htrace|].
  apply Hfind. vm_compute. discriminate.
Defined.

Lemma createBackup_failure_keeps_backup_witness :
  exists w',
    BackupService.createBackup BackupQueries.failing_run BackupTypes.full
      None Samples.fresh_world
    = (Return (BackupService.failure "Erro ao criar backup"), w') /\
    BackupService.backups (BackupService.svc w') = [0%nat] /\
    BackupQueries.progress_trace 0%nat w' = [0; 0].
Proof.
  destruct (createBackup_failure_keeps_backup BackupQueries.failing_run
              BackupTypes.full None BackupService.initial
              "store unavailable" (Forall_nil_2 _) (or_introl eq_refl))
    as (w' & Hrun & _ & _ & Hbs & _ & _ & Htrace).
  exists w'. split; [exact Hrun|]. split; [exact Hbs|exact Htrace].
Defined.

(** ** Analytics: the two periods and the cache *)

Section AnalyticsPeriodsProperties.
Import AnalyticsPeriods.

Variable parse : string -> option Z.

Lemma filter_length_split {A} (p q r : A -> bool) (l : list A) :
  (forall x, Nat.b2n (p x) + Nat.b2n (q x) = Nat.b2n (r x) + Nat.b2n (p x && q x))%nat ->
  (length (List.filter p l) + length (List.filter q l)
   = length (List.filter r l) + length (List.filter (fun x => p x && q x) l))%nat.
Proof.
  intros H. induction l as [|x l IH]; cbn; [reflexivity|].
  specialize (H x).
  destruct (p x), (q x), (r x); cbn in *; lia.
Qed.

(** X24: the period before [start, end] is [start - (end - start), start],
    both ends included: a sale dated exactly [start] is counted in the
    current period and in the previous one, and it is the only kind that
    is; so the orders of the two periods add up to the orders of the whole
    span plus the orders dated [start].  A sale with an invalid date is in
    neither period. *)
Theorem previous_period_shares_start (now : Z) (sales : list Sale)
  (r : DateRange) :
  (start r <= end_ r)%Z ->
  let current := filterSalesByDateRange parse now sales r in
  let previous := getPreviousPeriodSales parse now sales r in
  (forall sale,
      sale ∈ previous <->
      sale ∈ sales /\
      exists t, saleDate parse now sale = Some t /\
                (2 * start r - end_ r <= t <= start r)%Z) /\
  (forall sale,
      sale ∈ current /\ sale ∈ previous <->
      sale ∈ sales /\ saleDate parse now sale = Some (start r)) /\
  (length current + length previous
   = length (filterSalesByDateRange parse now sales
               {| start := 2 * start r - end_ r; end_ := end_ r |})
     + length (List.filter
                 (fun sale =>
                    bool_decide (saleDate parse now sale = Some (start r)))
                 sales))%nat /\
  (forall sale, saleDate parse now sale = None ->
                (sale ∉ current) /\ (sale ∉ previous)).
Proof.
  intros Hr current previous. subst current previous.
  unfold getPreviousPeriodSales, filterSalesByDateRange. cbn zeta.
  assert (forall (rg : DateRange) sale,
             sale ∈ List.filter (fun sale => within rg (saleDate parse now sale))
                                sales
             <-> sale ∈ sales /\
                 exists t, saleDate parse now sale = Some t /\
                           (start rg <= t <= end_ rg)%Z) as Hin.
  { intros rg sale. rewrite list_elem_of_In, filter_In, <- list_elem_of_In.
    unfold within. destruct (saleDate parse now sale) as [t|].
    - rewrite andb_true_iff, Z.leb_le, Z.leb_le. split.
      + intros [? ?]. split; [assumption|]. exists t. now split.
      + intros [? (t' & [= <-] & ?)]. now split.
    - split; [intros [_ [=]]|intros [_ (t' & [=] & _)]]. }
  split; [|split; [|split]].
  - intros sale. rewrite Hin. cbn [start end_].
    split; intros [? (t & ? & ?)]; (split; [assumption|]); exists t;
      (split; [assumption|lia]).
  - intros sale. rewrite !Hin. cbn [start end_]. split.
    + intros [[Hs (t & Ht & ?)] [_ (t' & Ht' & ?)]]. split; [exact Hs|].
      rewrite Ht in Ht'. injection Ht' as <-. rewrite Ht. f_equal. lia.
    + intros [Hs Ht]. split; (split; [exact Hs|]); exists (start r);
        (split; [exact Ht|lia]).
  - rewrite (filter_length_split _ _
               (fun sale =>
                  within {| start := 2 * start r - end_ r; end_ := end_ r |}
                         (saleDate parse now sale))).
    + f_equal. f_equal. apply filter_ext. intros sale. unfold within.
      cbn [start end_]. destruct (saleDate parse now sale) as [t|].
      * case_bool_decide as Ht.
        -- injection Ht as ->. apply andb_true_iff. split;
             apply andb_true_iff; split; apply Z.leb_le; lia.
        -- apply andb_false_iff.
           destruct (Z.eq_dec t (start r)) as [->|Hne]; [congruence|].
           destruct (Z.lt_ge_cases t (start r)).
           ++ left. apply andb_false_iff. left. apply Z.leb_gt. lia.
           ++ right. apply andb_false_iff. right. apply Z.leb_gt. lia.
      * now case_bool_decide.
    + intros sale. unfold within. cbn [start end_].
      destruct (saleDate parse now sale) as [t|]; [|reflexivity].
      destruct (Z.leb_spec (start r) t), (Z.leb_spec t (end_ r)),
        (Z.leb_spec (start r - (end_ r - start r)) t),
        (Z.leb_spec t (start r)),
        (Z.leb_spec (2 * start r - end_ r) t); cbn; lia.
  - intros sale Hnone. rewrite !Hin, Hnone.
    split; intros [_ (t & [=] & _)].
Qed.

End AnalyticsPeriodsProperties.

Lemma previous_period_shares_start_witness :
  AnalyticsPeriods.on_new_year
    ∈ AnalyticsPeriods.filterSalesByDateRange AnalyticsPeriods.sample_dates
        0 [AnalyticsPeriods.on_new_year] AnalyticsPeriods.january
  /\ AnalyticsPeriods.on_new_year
       ∈ AnalyticsPeriods.getPreviousPeriodSales
           AnalyticsPeriods.sample_dates 0 [AnalyticsPeriods.on_new_year]
           AnalyticsPeriods.january.
Proof.
  apply (previous_period_shares_start AnalyticsPeriods.sample_dates 0
           [AnalyticsPeriods.on_new_year] AnalyticsPeriods.january).
  - vm_compute. discriminate.
  - split; [apply list_elem_of_singleton; reflexivity|].
    vm_compute. reflexivity.
Defined.

Section AnalyticsCacheProperties.
Import AnalyticsCache.

Context {D : Type}.

(** X25: a result computed on a miss is stored under its key with the time
    of the store; a later call with the key returns that stored result, not
    what it would compute now, as long as less than five minutes have passed
    since the store, and leaves the cache alone; from five minutes on it
    computes again and replaces the entry.  Entries under other keys are
    neither read nor changed, and no entry is ever removed. *)
Theorem cached_result_is_reused (cache : state D) (key : string)
  (first second : D) (t0 t1 t2 t3 : Z) :
  let stored := <[key := {| data := first; timestamp := t1 |}]> cache in
  (getCachedData t0 key cache = (Return None, cache) ->
   cached_or_computed t0 t1 key first cache = (Return first, stored)) /\
  ((t2 - t1 < CACHE_DURATION)%Z ->
   cached_or_computed t2 t3 key second stored = (Return first, stored)) /\
  ((CACHE_DURATION <= t2 - t1)%Z ->
   cached_or_computed t2 t3 key second stored
   = (Return second,
      <[key := {| data := second; timestamp := t3 |}]> cache)) /\
  (forall key' t,
      key' <> key ->
      fst (getCachedData t key' stored) = fst (getCachedData t key' cache)) /\
  (forall key' d t t',
      is_Some (cache !! key') ->
      is_Some (snd (cached_or_computed t t' key d cache) !! key')).
Proof.
  intros stored. subst stored.
  unfold cached_or_computed, getCachedData, setCachedData, bind, gets, ret,
    modify, state in *.
  split; [|split; [|split; [|split]]].
  - intros Hmiss. injection Hmiss as Hmiss.
    destruct (cache !! key) as [e|]; [|reflexivity].
    destruct (t0 - timestamp e <? CACHE_DURATION)%Z; [discriminate|].
    reflexivity.
  - intros Hfresh. rewrite lookup_insert_eq. cbn [timestamp data].
    apply Z.ltb_lt in Hfresh. now rewrite Hfresh.
  - intros Hold. rewrite lookup_insert_eq. cbn [timestamp data].
    apply Z.ltb_ge in Hold. rewrite Hold. now rewrite insert_insert_eq.
  - intros key' t Hne. cbn [fst]. now rewrite lookup_insert_ne.
  - intros key' d t t' Hsome.
    destruct (cache !! key) as [e|] eqn:He.
    + destruct (t - timestamp e <? CACHE_DURATION)%Z; cbn [snd];
        [exact Hsome|].
      destruct (decide (key' = key)) as [->|Hne].
      * rewrite lookup_insert_eq. eauto.
      * now rewrite lookup_insert_ne.
    + cbn [snd]. destruct (decide (key' = key)) as [->|Hne].
      * rewrite lookup_insert_eq. eauto.
      * now rewrite lookup_insert_ne.
Qed.

End AnalyticsCacheProperties.

Lemma cached_result_is_reused_witness :
  AnalyticsCache.cached_or_computed 1767225600000 1767225600001
    "sales_{}" 7%Z
    (<["sales_{}" := {| AnalyticsCache.data := 3%Z;
                        AnalyticsCache.timestamp := 1767225500000 |}]> ∅)
  = (Return 3%Z,
     <["sales_{}" := {| AnalyticsCache.data := 3%Z;
                        AnalyticsCache.timestamp := 1767225500000 |}]> ∅).
Proof.
  apply (cached_result_is_reused (D := Z) ∅ "sales_{}" 3%Z 7%Z 0
           1767225500000 1767225600000 1767225600001).
  vm_compute. reflexivity.
Defined.

(** ** The user store and the protected routes *)

Section UserStoreProperties.
Import UserTypes UserStore.

Ltac step_store :=
  unfold try_catch, bind, gets, ret, throw, modify, set, in_service;
  cbn -[UserService.login UserService.getAllUsers UserService.createUser
        UserService.updateUser UserService.deleteUser
        UserService.updateProfile UserService.changePassword].

(** The management methods of the service leave the signed-in user
    alone. *)
Lemma managers_keep_currentUser (s : UserService.state) :
  (forall now d,
      UserService.currentUser (snd (UserService.createUser now d s))
      = UserService.currentUser s) /\
  (forall now i d,
      UserService.currentUser (snd (UserService.updateUser now i d s))
      = UserService.currentUser s) /\
  (forall i,
      UserService.currentUser (snd (UserService.deleteUser i s))
      = UserService.currentUser s).
Proof.
  split; [|split]; intros;
    unfold UserService.createUser, UserService.updateUser,
      UserService.deleteUser, UserService.push_new;
    unfold try_catch, bind, gets, ret, throw, modify; cbn;
    repeat (match goal with
            | |- context [if ?b then _ else _] => destruct b
            | |- context [match ?o with Some _ => _ | None => _ end] =>
                destruct o
            end; cbn); reflexivity.
Qed.

Lemma in_step_service (a : state) (s' : UserService.state) (f : store -> store) :
  in_step a ->
  UserService.currentUser s' = UserService.currentUser (service a) ->
  currentUser (f (ui a)) = currentUser (ui a) ->
  isAuthenticated (f (ui a)) = isAuthenticated (ui a) ->
  in_step {| service := s'; ui := f (ui a) |}.
Proof.
  intros [Hcur Hauth] Hs Hc Ha. split; cbn.
  - now rewrite Hc, Hs.
  - now rewrite Ha, Hc.
Qed.

Lemma exec_keeps_in_step (c : call) (a : state) :
  in_step a -> in_step (exec c a).
Proof.
  intros Ha. pose proof Ha as [Hcur Hauth]. destruct c; cbn [exec].
  - unfold login. step_store.
    destruct (login_cases now email_ password (service a))
      as [[msg ->]|(l & _ & ->)]; cbn.
    + now apply (in_step_service a (service a)
                   (fun st => set_isLoading false (set_isLoading true st))).
    + split; reflexivity.
  - unfold logout. step_store. split; reflexivity.
  - unfold loadUsers. step_store.
    destruct (UserService.getAllUsers (service a)) as [[us|e] s'] eqn:Hrun;
      pose proof (proj1 (readers_keep_state (service a))) as Hsame;
      rewrite Hrun in Hsame; cbn in Hsame; subst s'; cbn.
    + now apply (in_step_service a (service a) (set_users service_array)).
    + now destruct a.
  - unfold createUser. step_store.
    pose proof (proj1 (managers_keep_currentUser (service a)) now userData)
      as Hsame.
    destruct (UserService.createUser now userData (service a))
      as [[r|e] s'] eqn:Hrun; cbn in *.
    + destruct (UserService.success r), (UserService.user r); cbn;
        try (now apply (in_step_service a s' (fun st => st)));
        now apply (in_step_service a s' (set_users _)).
    + now apply (in_step_service a s' (fun st => st)).
  - unfold updateUser. step_store.
    pose proof (proj1 (proj2 (managers_keep_currentUser (service a)))
                  now userId updateData) as Hsame.
    destruct (UserService.updateUser now userId updateData (service a))
      as [[r|e] s'] eqn:Hrun; cbn in *.
    + destruct (UserService.success r), (UserService.user r); cbn;
        try (now apply (in_step_service a s' (fun st => st)));
        now apply (in_step_service a s' (set_users _)).
    + now apply (in_step_service a s' (fun st => st)).
  - unfold deleteUser. step_store.
    pose proof (proj2 (proj2 (managers_keep_currentUser (service a))) userId)
      as Hsame.
    destruct (UserService.deleteUser userId (service a))
      as [[r|e] s'] eqn:Hrun; cbn in *.
    + destruct (UserService.success r); cbn;
        try (now apply (in_step_service a s' (fun st => st)));
        now apply (in_step_service a s' (set_users _)).
    + now apply (in_step_service a s' (fun st => st)).
  - unfold updateProfile. step_store.
    destruct (updateProfile_cases now new_name new_avatar (service a))
      as [[msg ->]|(l & f & _ & _ & _ & Hrun)]; cbn.
    + now destruct a.
    + rewrite Hrun. cbn. split; cbn; [reflexivity|].
      rewrite Hauth, Hcur.
      destruct (UserService.currentUser (service a)) eqn:Hc; [reflexivity|].
      exfalso. revert Hrun.
      unfold UserService.updateProfile, try_catch, bind, gets, ret.
      rewrite Hc. unfold UserService.failure. intros [=].
  - unfold changePassword. step_store.
    pose proof (proj2 (proj2 (readers_keep_state (service a)))
                  currentPassword newPassword) as Hsame.
    destruct (UserService.changePassword currentPassword newPassword
                (service a)) as [[r|e] s'] eqn:Hrun; cbn in *; subst s';
      now destruct a.
  - unfold setSelectedUser. step_store.
    now apply (in_step_service a (service a) (set_selectedUser u)).
  - unfold setLoading. step_store.
    now apply (in_step_service a (service a) (set_isLoading loading)).
Qed.

End UserStoreProperties.

Section UserStoreBehaviour.
Import UserTypes UserStore.

Ltac step_store :=
  unfold try_catch, bind, gets, ret, throw, modify, set, in_service;
  cbn -[UserService.login UserService.getAllUsers UserService.createUser
        UserService.updateUser UserService.deleteUser
        UserService.updateProfile UserService.changePassword].

Lemma session_keeps_in_step (cs : list call) (a : state) :
  in_step a -> in_step (session cs a).
Proof.
  revert a. induction cs as [|c cs IH]; intros a Ha; cbn; [exact Ha|].
  apply IH. now apply exec_keeps_in_step.
Qed.

(** X26: after a page load with nothing persisted, or with a signed-out
    entry, the store and the service name the same signed-in user over
    every sequence of store actions, and [isAuthenticated] says whether
    there is one.  After a load that rehydrates a signed-in user they are
    out of step: the store says authenticated while the service has
    nobody signed in, so every permission check fails and a route that
    requires a permission sends an active user to the dashboard, while a
    route without requirements renders.  [logout] and a successful
    [login] bring them in step, and once in step they stay so. *)
Theorem store_session_keeps_in_step (boot : Z) (saved : option Persisted)
  (cs : list call) :
  ((forall p, saved = Some p ->
              saved_currentUser p = None /\ saved_isAuthenticated p = false) ->
   in_step (session cs (initial boot saved))) /\
  (forall copy,
      saved = Some {| saved_currentUser := Some copy;
                      saved_isAuthenticated := true |} ->
      let a := initial boot saved in
      ~ in_step a /\
      isAuthenticated (ui a) = true /\
      UserService.currentUser (service a) = None /\
      (forall p, hasPermission p a = false) /\
      (isActive copy = true ->
       ProtectedRoute None None None a = children /\
       forall p, ProtectedRoute None (Some p) None a = to_dashboard)) /\
  (forall a, in_step (exec Logout a)) /\
  (forall a now e p,
      fst (login now e p a) = Return {| success := true; message := None |} ->
      in_step (exec (Login now e p) a)) /\
  (forall a, in_step a ->
     in_step (session cs a) /\
     forall p,
       hasPermission p (session cs a)
       = match currentUser (ui (session cs a)) with
         | Some u =>
             ROLE_PERMISSIONS
               (role (UserService.deref (service (session cs a)) u)) p
         | None => false
         end).
Proof.
  split; [|split; [|split; [|split]]].
  - intros Hsaved. apply session_keeps_in_step.
    destruct saved as [p|]; [|split; reflexivity].
    destruct (Hsaved p eq_refl) as [Hu Hflag].
    unfold initial. rewrite Hu. split; cbn; [reflexivity|exact Hflag].
  - intros copy -> a. subst a. unfold initial. cbn.
    split; [|split; [reflexivity|split; [reflexivity|split]]].
    + intros [Hcur _]. cbn in Hcur. discriminate.
    + reflexivity.
    + intros Hactive. unfold ProtectedRoute, hasPermission. cbn.
      unfold UserService.deref. cbn. rewrite Hactive. cbn.
      split; reflexivity.
  - intros a. cbn [exec]. unfold logout. step_store. split; reflexivity.
  - intros a now e p. cbn [exec]. unfold login. step_store.
    destruct (login_cases now e p (service a))
      as [[msg ->]|(l & _ & ->)]; cbn.
    + discriminate.
    + intros _. split; reflexivity.
  - intros a Hstep.
    pose proof (session_keeps_in_step cs a Hstep) as Hend.
    split; [exact Hend|]. intros p. destruct Hend as [Hcur _].
    unfold hasPermission, UserService.hasPermission. rewrite <- Hcur.
    destruct (currentUser _); [apply orb_false_r|reflexivity].
Qed.

Lemma role_eqb_eq (a b : UserRole) : role_eqb a b = true <-> a = b.
Proof. destruct a, b; cbn; split; congruence. Qed.

(** X27: when the store and the service are in step, [ProtectedRoute]
    renders its children exactly for a signed-in, active user that has the
    required role (if one is required), whose role grants the required
    permission (if one is required) and one of the listed permissions (if
    a list is given).  With an empty list it renders its children for
    nobody. *)
Theorem ProtectedRoute_renders_for_permitted_users
  (requireRole : option UserRole) (requirePermission : option Permission)
  (requireAnyPermission : option (list Permission)) (a : state) :
  in_step a ->
  (ProtectedRoute requireRole requirePermission requireAnyPermission a
   = children <->
   exists u,
     currentUser (ui a) = Some u /\
     isActive (UserService.deref (service a) u) = true /\
     (forall r, requireRole = Some r ->
                role (UserService.deref (service a) u) = r) /\
     (forall p, requirePermission = Some p ->
                ROLE_PERMISSIONS (role (UserService.deref (service a) u)) p
                = true) /\
     (forall ps, requireAnyPermission = Some ps ->
                 exists p, p ∈ ps /\
                           ROLE_PERMISSIONS
                             (role (UserService.deref (service a) u)) p
                           = true)) /\
  ProtectedRoute requireRole requirePermission (Some []) a <> children.
Proof.
  intros [Hcur Hauth].
  assert (forall p u, currentUser (ui a) = Some u ->
            hasPermission p a
            = ROLE_PERMISSIONS (role (UserService.deref (service a) u)) p)
    as Hperm.
  { intros p u Hu. unfold hasPermission, UserService.hasPermission.
    rewrite <- Hcur, Hu. apply orb_false_r. }
  split.
  - unfold ProtectedRoute. rewrite Hauth.
    destruct (currentUser (ui a)) as [u|] eqn:Hu; cbn.
    2:{ split; [discriminate|]. now intros (u & [=] & _). }
    split.
    + intros H. exists u. split; [reflexivity|].
      destruct (isActive (UserService.deref (service a) u)); cbn in H;
        [|discriminate].
      split; [reflexivity|].
      destruct requireRole as [r|].
      * destruct (role_eqb _ r) eqn:Hr; cbn in H; [|discriminate].
        apply role_eqb_eq in Hr.
        split; [now intros r' [= <-]|].
        revert H. destruct requirePermission as [p|].
        -- destruct (hasPermission p a) eqn:Hp; cbn; [|discriminate].
           rewrite (Hperm p u eq_refl) in Hp. intros H.
           split; [now intros p' [= <-]|].
           intros ps ->. destruct (hasAnyPermission ps a) eqn:Hany;
             cbn in H; [|discriminate].
           apply existsb_exists in Hany as (p' & Hin & Hp').
           exists p'. split; [now apply list_elem_of_In|].
           now rewrite <- (Hperm p' u eq_refl).
        -- intros H. split; [discriminate|].
           intros ps ->. destruct (hasAnyPermission ps a) eqn:Hany;
             cbn in H; [|discriminate].
           apply existsb_exists in Hany as (p' & Hin & Hp').
           exists p'. split; [now apply list_elem_of_In|].
           now rewrite <- (Hperm p' u eq_refl).
      * split; [discriminate|]. cbn in H.
        revert H. destruct requirePermission as [p|].
        -- destruct (hasPermission p a) eqn:Hp; cbn; [|discriminate].
           rewrite (Hperm p u eq_refl) in Hp. intros H.
           split; [now intros p' [= <-]|].
           intros ps ->. destruct (hasAnyPermission ps a) eqn:Hany;
             cbn in H; [|discriminate].
           apply existsb_exists in Hany as (p' & Hin & Hp').
           exists p'. split; [now apply list_elem_of_In|].
           now rewrite <- (Hperm p' u eq_refl).
        -- intros H. split; [discriminate|].
           intros ps ->. destruct (hasAnyPermission ps a) eqn:Hany;
             cbn in H; [|discriminate].
           apply existsb_exists in Hany as (p' & Hin & Hp').
           exists p'. split; [now apply list_elem_of_In|].
           now rewrite <- (Hperm p' u eq_refl).
    + intros (u' & [= <-] & Hactive & Hrole & Hp & Hany).
      rewrite Hactive. cbn.
      assert (match requireRole with
              | Some r => negb (role_eqb
                                  (role (UserService.deref (service a) u)) r)
              | None => false
              end = false) as ->.
      { destruct requireRole as [r|]; [|reflexivity].
        apply negb_false_iff, role_eqb_eq. now apply Hrole. }
      assert (match requirePermission with
              | Some p => negb (hasPermission p a)
              | None => false
              end = false) as ->.
      { destruct requirePermission as [p|]; [|reflexivity].
        apply negb_false_iff. rewrite (Hperm p u eq_refl). now apply Hp. }
      assert (match requireAnyPermission with
              | Some ps => negb (hasAnyPermission ps a)
              | None => false
              end = false) as ->; [|reflexivity].
      destruct requireAnyPermission as [ps|]; [|reflexivity].
      apply negb_false_iff. destruct (Hany ps eq_refl) as (p & Hin & Hgrant).
      apply existsb_exists. exists p. split; [now apply list_elem_of_In|].
      fold (hasPermission p a). now rewrite (Hperm p u eq_refl).
  - unfold ProtectedRoute.
    destruct (isAuthenticated (ui a)), (currentUser (ui a)); try discriminate.
    repeat (match goal with
            | |- context [if ?b then _ else _] => destruct b
            end; try discriminate).
Qed.

(** X28: [loadUsers] makes the store hold the array of the service itself.
    A user created through the store is appended to the elements that the
    store's array has after the service has pushed it: with an array of the
    store's own the new user is listed once, with the array of the service
    it is listed twice. *)
Theorem createUser_after_loadUsers_lists_user_twice (now : Z)
  (d : CreateUserRequest) (a : state) :
  UserService.hasPermission canManageUsers (service a) = true ->
  (forall l, l ∈ UserService.users (service a) ->
             email (UserService.deref (service a) l) <> req_email d) ->
  let l := length (UserService.objects (service a)) in
  let listed (a' : state) :=
    match users (ui a') with
    | service_array => UserService.users (service a) ++ [l; l]
    | own_array us => us ++ [l]
    end in
  loadUsers a
  = (Return tt,
     {| service := service a; ui := set_users service_array (ui a) |}) /\
  (forall a', service a' = service a ->
     exists a2,
       createUser now d a' = (Return {| success := true; message := None |}, a2)
       /\ UserService.users (service a2)
          = UserService.users (service a) ++ [l]
       /\ users (ui a2) = own_array (listed a')) /\
  (exists a2,
     createUser now d (snd (loadUsers a))
     = (Return {| success := true; message := None |}, a2)
     /\ users (ui a2)
        = own_array (UserService.users (service a) ++ [l; l])).
Proof.
  intros Hperm Hfree l listed.
  assert (loadUsers a
          = (Return tt,
             {| service := service a;
                ui := set_users service_array (ui a) |})) as Hload.
  { unfold loadUsers. step_store. unfold UserService.getAllUsers.
    unfold bind, gets, throw. now rewrite Hperm. }
  assert (forall a', service a' = service a ->
     exists a2,
       createUser now d a' = (Return {| success := true; message := None |}, a2)
       /\ UserService.users (service a2)
          = UserService.users (service a) ++ [l]
       /\ users (ui a2) = own_array (listed a')) as Hcreate.
  { intros a' Ha'. unfold createUser. step_store. rewrite Ha'.
    rewrite (createUser_appends now d (service a) Hperm Hfree).
    cbn. eexists. split; [reflexivity|]. cbn. split; [reflexivity|].
    unfold elements_of, listed. cbn.
    destruct (users (ui a')); [|reflexivity].
    now rewrite <- app_assoc. }
  split; [exact Hload|]. split; [exact Hcreate|].
  rewrite Hload. cbn [snd].
  destruct (Hcreate {| service := service a;
                       ui := set_users service_array (ui a) |} eq_refl)
    as (a2 & Hrun & _ & Husers).
  exists a2. split; [exact Hrun|]. exact Husers.
Qed.

End UserStoreBehaviour.

Lemma store_session_keeps_in_step_witness :
  ~ UserStore.in_step
      (UserStore.initial 1767355200000 (Some UserStore.manager_saved)) /\
  UserStore.isAuthenticated
    (UserStore.ui
       (UserStore.initial 1767355200000 (Some UserStore.manager_saved)))
  = true /\
  (forall p,
      UserStore.hasPermission p
        (UserStore.initial 1767355200000 (Some UserStore.manager_saved))
      = false) /\
  UserStore.in_step
    (UserStore.session [UserStore.LoadUsers]
       (UserStore.initial 1767355200000 None)).
Proof.
  destruct (store_session_keeps_in_step 1767355200000
              (Some UserStore.manager_saved) [])
    as (_ & Hout & _).
  destruct (Hout _ eq_refl) as (Hn & Hauth & _ & Hp & _).
  split; [exact Hn|]. split; [exact Hauth|]. split; [exact Hp|].
  apply (proj1 (store_session_keeps_in_step 1767355200000 None
                  [UserStore.LoadUsers])).
  intros p Hp'. discriminate Hp'.
Defined.

Lemma ProtectedRoute_renders_for_permitted_users_witness :
  UserStore.ProtectedRoute (Some UserTypes.admin)
    (Some UserTypes.canManageUsers) None UserStore.admin_console
  = UserStore.children.
Proof.
  apply (ProtectedRoute_renders_for_permitted_users (Some UserTypes.admin)
           (Some UserTypes.canManageUsers) None UserStore.admin_console).
  - split; vm_compute; reflexivity.
  - exists 0%nat. split; [reflexivity|]. split; [reflexivity|].
    split; [now intros r [= <-]|]. split; [now intros p [= <-]|].
    discriminate.
Defined.

Lemma createUser_after_loadUsers_lists_user_twice_witness :
  exists a2,
    UserStore.createUser 1767268800000 Samples.new_seller
      UserStore.admin_console
    = (Return {| UserStore.success := true; UserStore.message := None |}, a2)
    /\ UserStore.users (UserStore.ui a2)
       = UserStore.own_array [0; 1; 2; 2]%nat.
Proof.
  destruct (createUser_after_loadUsers_lists_user_twice 1767268800000
              Samples.new_seller UserStore.admin_console)
    as (_ & Hcreate & _).
  - reflexivity.
  - intros l Hl. apply list_elem_of_In in Hl. vm_compute in Hl.
    destruct Hl as [<-|[<-|[]]]; vm_compute; discriminate.
  - destruct (Hcreate UserStore.admin_console eq_refl)
      as (a2 & Hrun & _ & Husers).
    exists a2. split; [exact Hrun|]. rewrite Husers. reflexivity.
Defined.

(** ** The responsive hook *)

Section ResponsiveProperties.
Import Responsive.

(** X29: with the default configuration the device type and the
    breakpoints agree: the device is [mobile] exactly below [md],
    [desktop] exactly from [lg] on, and [tablet] in between; the
    breakpoints reached are downward closed.  Under any configuration
    [getResponsiveValue] gives the value listed for the device type when
    there is one and the default otherwise, and a configuration whose
    tablet bound is not above its mobile bound never reports a tablet. *)
Theorem deviceType_agrees_with_breakpoints (width : Z) :
  let d := deviceType no_config width in
  let r := reached no_config width in
  (d = mobile <-> at_md r = false) /\
  (d = tablet <-> at_md r = true /\ at_lg r = false) /\
  (d = desktop <-> at_lg r = true) /\
  (at_xxl r = true -> at_xl r = true) /\
  (at_xl r = true -> at_lg r = true) /\
  (at_lg r = true -> at_md r = true) /\
  (at_md r = true -> at_sm r = true) /\
  (at_sm r = true -> at_xs r = true) /\
  (forall T config (values : Values T),
      getResponsiveValue config width values
      = default (by_default values)
          match deviceType config width with
          | mobile => for_mobile values
          | tablet => for_tablet values
          | desktop => for_desktop values
          end) /\
  (forall config,
      (below_tablet (deviceBreakpoints (finalConfig config))
       <= below_mobile (deviceBreakpoints (finalConfig config)))%Z ->
      deviceType config width <> tablet).
Proof.
  cbn zeta.
  repeat match goal with |- _ /\ _ => split end.
  1-8: unfold deviceType, reached; cbn;
       repeat match goal with
         | |- context [(?a <? ?b)%Z] => destruct (Z.ltb_spec a b)
         | |- context [(?a <=? ?b)%Z] => destruct (Z.leb_spec a b)
         end;
       try lia; intuition (try discriminate; try congruence).
  - intros T config values. unfold getResponsiveValue, deviceType.
    destruct (_ <? _)%Z; [now destruct (for_mobile values)|].
    destruct (_ <? _)%Z;
      [now destruct (for_mobile values), (for_tablet values)|].
    now destruct (for_mobile values), (for_tablet values),
      (for_desktop values).
  - intros config Hle. unfold deviceType.
    destruct (Z.ltb_spec width
                (below_mobile (deviceBreakpoints (finalConfig config))));
      [discriminate|].
    destruct (Z.ltb_spec width
                (below_tablet (deviceBreakpoints (finalConfig config))));
      [lia|discriminate].
Qed.

End ResponsiveProperties.

Lemma getLastSuccessfulBackup_newest_completed_witness :
  BackupTypes.status (BackupService.deref Samples.after_backup 0%nat)
  = BackupTypes.completed.
Proof.
  pose proof (getLastSuccessfulBackup_newest_completed Samples.after_backup)
    as H.
  change (BackupQueries.getLastSuccessfulBackup Samples.after_backup)
    with (Some 0%nat) in H.
  exact (proj1 (proj2 H)).
Defined.

Lemma deviceType_agrees_with_breakpoints_witness :
  Responsive.deviceType Responsive.no_config 800 = Responsive.tablet.
Proof.
  destruct (deviceType_agrees_with_breakpoints 800) as (_ & [_ H] & _).
  apply H. split; reflexivity.
Defined.
